(** * NanoGUI [Screen]: focus, keyboard routing, modality, drag capture,
      resize and window stacking

    A shallow embedding of [src/src/screen.cpp] (class [Screen] of
    [include/nanogui/screen.h]).  Widgets live on the C++ heap and are
    referred to by pointers; here a pointer is a key of a finite map from
    keys to widget records, a null pointer is [None], and a pointer to a
    freed or never allocated object is a key the map does not bind
    (dereferencing it makes the operation fault).  Calls of virtual
    widget handlers are recorded in an event log carried by the state. *)

From Stdlib Require Import ZArith Lia.
From stdpp Require Import base option list gmap.

Local Open Scope Z_scope.

(** * The model *)

(** ** Geometry and enumerations *)

(** [Eigen::Vector2i]. *)
Abbreviation Vector2i := (Z * Z)%type.

Definition vsub (a b : Vector2i) : Vector2i := (a.1 - b.1, a.2 - b.2).
Definition vadd (a b : Vector2i) : Vector2i := (a.1 + b.1, a.2 + b.2).

(** Component-wise division of an integer vector by a scalar
    ([size /= mPixelRatio]); C++ integer division truncates. *)
Definition vquot (a : Vector2i) (r : Z) : Vector2i := (Z.quot a.1 r, Z.quot a.2 r).

(** A [double] is carried by its 64-bit pattern and a [float] by its
    32-bit pattern: timestamps are stored and passed on, scroll offsets
    are narrowed from [double] to [float] and passed on. *)
Abbreviation double := Z.
Abbreviation float := Z.

(** [m / 2^k] rounded to the nearest integer, ties to the even one. *)
Definition round_shift (m k : Z) : Z :=
  if k <=? 0 then Z.shiftl m (- k)
  else
    let q := Z.shiftr m k in
    let r := m - Z.shiftl q k in
    let half := Z.shiftl 1 (k - 1) in
    if r <? half then q
    else if half <? r then q + 1
    else if Z.even q then q else q + 1.

(** [(float) d], the conversion that [Vector2f(x, y)] applies to its
    [double] arguments, on the bit patterns, as IEEE 754 arithmetic does
    it: the nearest [float], ties to even; infinity beyond the range of
    [float]; a quiet NaN with the leading bits of the payload for a NaN.
    The finite value [M * 2^E] is rounded to [N * 2^q] with [N] of at
    most 24 bits and [q] not below -149; [N + (q + 149) * 2^23] is then
    its encoding, for subnormal and normal results alike. *)
Definition float_of_double (d : double) : float :=
  let sign := Z.shiftl (Z.shiftr d 63 mod 2) 31 in
  let e := Z.shiftr d 52 mod 2048 in
  let m := d mod 2^52 in
  if e =? 2047 then
    if m =? 0 then sign + 2139095040
    else sign + Z.lor 2143289344 (Z.shiftr m 29)
  else
    let M := if e =? 0 then m else 2^52 + m in
    let E := if e =? 0 then -1074 else e - 1075 in
    if M =? 0 then sign
    else
      let q := Z.max (E + Z.log2 M + 1 - 24) (-149) in
      let N := round_shift M (q - E) in
      let bits := N + Z.shiftl (q + 149) 23 in
      if 2139095040 <=? bits then sign + 2139095040 else sign + bits.

(** [enum class Cursor] of [common.h]. *)
Inductive Cursor : Set :=
  | Arrow | IBeam | Crosshair | Hand | HResize | VResize | CursorCount.

#[global] Instance Cursor_eq_dec : EqDecision Cursor.
Proof. solve_decision. Defined.

(** Event codes of [common.h]. *)
Definition NG_RELEASE : Z := 0.
Definition NG_PRESS : Z := 1.
Definition NG_REPEAT : Z := 2.
Definition NG_MOUSE_BUTTON_1 : Z := 0.
Definition NG_MOUSE_BUTTON_2 : Z := 1.
Definition NG_MOUSE_BUTTON_3 : Z := 2.

(** ** Widgets *)

(** A widget pointer. *)
Abbreviation wid := nat.

(** The dynamic type of a widget as far as [screen.cpp] inspects it with
    [dynamic_cast].  [Screen::moveWindowToFront] passes a [Popup *] where
    a [Window *] is expected, so a popup is a window: it has the [modal]
    flag as well and [dynamic_cast<Window *>] succeeds on it. *)
Inductive Role : Set :=
  | PlainWidget
  | IsWindow (modal : bool)
  | IsPopup (modal : bool) (parentWindow : wid).

(** Modelled from the spec: the virtual event handlers of [Widget]
    ([widget.h] is not among the sources), "polymorphic per-widget
    event overrides", as far as the Screen looks at them: whether the
    handler of the widget reports the event as handled.  That a handler
    was called is recorded in the event log. *)
Record Handlers : Type := mkHandlers {
  keyboardEvent_h : Z → Z → Z → Z → bool;
  keyboardCharacterEvent_h : Z → bool;
  mouseButtonEvent_h : Vector2i → Z → bool → Z → bool;
  mouseDragEvent_h : Vector2i → Vector2i → Z → Z → bool;
  mouseMotionEvent_h : Vector2i → Vector2i → Z → Z → bool;
  scrollEvent_h : Vector2i → float * float → bool
}.

(** Modelled from the spec: the [Widget] base class ([widget.h] is not
    among the sources).  "node with parent (weak back-reference),
    children (ordered sequence, last = frontmost), position, size (local
    to parent), visible, enabled, cursor"; [focused] is what the widget
    "reports" when asked [focused()]. *)
Record Widget : Type := mkWidget {
  parent : option wid;
  mChildren : list wid;
  position : Vector2i;
  mSize : Vector2i;
  mVisible : bool;
  enabled : bool;
  focused : bool;
  cursor : Cursor;
  role : Role;
  handlers : Handlers
}.

Definition set_focused (b : bool) (w : Widget) : Widget :=
  mkWidget (parent w) (mChildren w) (position w) (mSize w) (mVisible w)
           (enabled w) b (cursor w) (role w) (handlers w).

Definition set_children (l : list wid) (w : Widget) : Widget :=
  mkWidget (parent w) l (position w) (mSize w) (mVisible w)
           (enabled w) (focused w) (cursor w) (role w) (handlers w).

Definition set_size (s : Vector2i) (w : Widget) : Widget :=
  mkWidget (parent w) (mChildren w) (position w) s (mVisible w)
           (enabled w) (focused w) (cursor w) (role w) (handlers w).

(** [dynamic_cast<Window *>(w) != nullptr]. *)
Definition is_window (w : Widget) : bool :=
  match role w with PlainWidget => false | _ => true end.

(** [window->modal()]; [None] when the cast to [Window *] fails. *)
Definition window_modal (w : Widget) : option bool :=
  match role w with
  | PlainWidget => None
  | IsWindow m => Some m
  | IsPopup m _ => Some m
  end.

(** [dynamic_cast<Popup *>(w)] followed by [parentWindow()]. *)
Definition popup_parent (w : Widget) : option wid :=
  match role w with IsPopup _ pw => Some pw | _ => None end.

(** Modelled from the spec: [Widget::contains] ([widget.h] is not among
    the sources): the point lies within the widget's bounds, the
    rectangle of [size] at [position], both in the parent's frame. *)
Definition contains (w : Widget) (p : Vector2i) : bool :=
  ((position w).1 <=? p.1) && (p.1 <? (position w).1 + (mSize w).1)
  && ((position w).2 <=? p.2) && (p.2 <? (position w).2 + (mSize w).2).

(** ** The Screen *)

(** What the widgets and the windowing backend observe: each call of a
    widget's handler and each cursor change requested from the backend. *)
Inductive Event : Set :=
  | EvFocus (w : wid) (gained : bool)
  | EvKeyboard (w : wid) (key scancode action modifiers : Z)
  | EvKeyboardCharacter (w : wid) (codepoint : Z)
  | EvMouseButton (w : wid) (p : Vector2i) (button : Z) (down : bool) (modifiers : Z)
  | EvMouseDrag (w : wid) (p rel : Vector2i) (buttons modifiers : Z)
  | EvMouseMotion (w : wid) (p rel : Vector2i) (buttons modifiers : Z)
  | EvScroll (w : wid) (p : Vector2i) (rel : float * float)
  | EvResize (size : Vector2i)
  | EvSetCursor (c : Cursor).

#[global] Instance Event_eq_dec : EqDecision Event.
Proof. solve_decision. Defined.

(** The members of [class Screen] that the event routing reads or writes,
    the heap of widgets and the event log.  The Screen is itself a widget:
    its base-class part ([mChildren], [mSize], [mVisible], focus flag) is
    the heap record at [this]. *)
Record Screen : Type := mkScreen {
  this : wid;
  heap : gmap wid Widget;
  mCursor : Cursor;
  mFocusPath : list wid;
  mFBSize : Vector2i;
  mPixelRatio : Z;
  mMouseState : Z;
  mModifiers : Z;
  mMousePos : Vector2i;
  mDragActive : bool;
  mDragWidget : option wid;
  mLastInteraction : double;
  events : list Event
}.

Definition set_heap (h : gmap wid Widget) (s : Screen) : Screen :=
  mkScreen (this s) h (mCursor s) (mFocusPath s) (mFBSize s) (mPixelRatio s)
           (mMouseState s) (mModifiers s) (mMousePos s) (mDragActive s)
           (mDragWidget s) (mLastInteraction s) (events s).

Definition set_mCursor (c : Cursor) (s : Screen) : Screen :=
  mkScreen (this s) (heap s) c (mFocusPath s) (mFBSize s) (mPixelRatio s)
           (mMouseState s) (mModifiers s) (mMousePos s) (mDragActive s)
           (mDragWidget s) (mLastInteraction s) (events s).

Definition set_mFocusPath (l : list wid) (s : Screen) : Screen :=
  mkScreen (this s) (heap s) (mCursor s) l (mFBSize s) (mPixelRatio s)
           (mMouseState s) (mModifiers s) (mMousePos s) (mDragActive s)
           (mDragWidget s) (mLastInteraction s) (events s).

Definition set_mFBSize (v : Vector2i) (s : Screen) : Screen :=
  mkScreen (this s) (heap s) (mCursor s) (mFocusPath s) v (mPixelRatio s)
           (mMouseState s) (mModifiers s) (mMousePos s) (mDragActive s)
           (mDragWidget s) (mLastInteraction s) (events s).

Definition set_mMouseState (z : Z) (s : Screen) : Screen :=
  mkScreen (this s) (heap s) (mCursor s) (mFocusPath s) (mFBSize s) (mPixelRatio s)
           z (mModifiers s) (mMousePos s) (mDragActive s)
           (mDragWidget s) (mLastInteraction s) (events s).

Definition set_mModifiers (z : Z) (s : Screen) : Screen :=
  mkScreen (this s) (heap s) (mCursor s) (mFocusPath s) (mFBSize s) (mPixelRatio s)
           (mMouseState s) z (mMousePos s) (mDragActive s)
           (mDragWidget s) (mLastInteraction s) (events s).

Definition set_mMousePos (v : Vector2i) (s : Screen) : Screen :=
  mkScreen (this s) (heap s) (mCursor s) (mFocusPath s) (mFBSize s) (mPixelRatio s)
           (mMouseState s) (mModifiers s) v (mDragActive s)
           (mDragWidget s) (mLastInteraction s) (events s).

Definition set_mDragActive (b : bool) (s : Screen) : Screen :=
  mkScreen (this s) (heap s) (mCursor s) (mFocusPath s) (mFBSize s) (mPixelRatio s)
           (mMouseState s) (mModifiers s) (mMousePos s) b
           (mDragWidget s) (mLastInteraction s) (events s).

Definition set_mDragWidget (w : option wid) (s : Screen) : Screen :=
  mkScreen (this s) (heap s) (mCursor s) (mFocusPath s) (mFBSize s) (mPixelRatio s)
           (mMouseState s) (mModifiers s) (mMousePos s) (mDragActive s)
           w (mLastInteraction s) (events s).

Definition set_mLastInteraction (t : double) (s : Screen) : Screen :=
  mkScreen (this s) (heap s) (mCursor s) (mFocusPath s) (mFBSize s) (mPixelRatio s)
           (mMouseState s) (mModifiers s) (mMousePos s) (mDragActive s)
           (mDragWidget s) t (events s).

Definition set_events (l : list Event) (s : Screen) : Screen :=
  mkScreen (this s) (heap s) (mCursor s) (mFocusPath s) (mFBSize s) (mPixelRatio s)
           (mMouseState s) (mModifiers s) (mMousePos s) (mDragActive s)
           (mDragWidget s) (mLastInteraction s) l.

(** What the windowing backend answers during one callback
    ([ngGetTime], [ngGetWindowSize], [ngGetFramebufferSize]), and which
    branch of [#if defined(_WIN32) || defined(__linux__)] was compiled. *)
Record Backend : Type := mkBackend {
  ngGetTime : double;
  ngGetWindowSize : Vector2i;
  ngGetFramebufferSize : Vector2i;
  win32_or_linux : bool
}.

(** ** Operations on the state: a state monad with faults *)

(** A member function of the Screen: it reads and writes the state and
    yields a value, or faults ([None]) when it dereferences a null or
    dangling pointer, or when the fuel bounding a loop whose termination is
    not evident runs out. *)
Definition M (A : Type) : Type := Screen → option (A * Screen).

#[global] Instance M_ret : MRet M := λ A a s, Some (a, s).
#[global] Instance M_bind : MBind M :=
  λ A B f m s, match m s with Some (a, s') => f a s' | None => None end.

Definition fault {A} : M A := λ _, None.
Definition get_state : M Screen := λ s, Some (s, s).
Definition modify (f : Screen → Screen) : M unit := λ s, Some (tt, f s).

(** [*w]. *)
Definition deref (w : wid) : M Widget :=
  λ s, match heap s !! w with Some wd => Some (wd, s) | None => None end.

(** [*w], for a pointer that may be null; the pointer comes along. *)
Definition deref_opt (w : option wid) : M (wid * Widget) :=
  match w with
  | Some x => λ s, match heap s !! x with Some wd => Some ((x, wd), s) | None => None end
  | None => fault
  end.

(** [*w = wd]. *)
Definition store (w : wid) (wd : Widget) : M unit :=
  modify (λ s, set_heap (<[w := wd]> (heap s)) s).

(** The state an operation leaves (the state it started in, had it
    faulted). *)
Definition state_after {A} (m : M A) (s : Screen) : Screen :=
  match m s with Some (_, s') => s' | None => s end.

Definition emit (e : Event) : M unit :=
  modify (λ s, set_events (events s ++ [e]) s).

(** Modelled from the spec: [Widget::focusEvent] of the base class
    ([widget.h] is not among the sources): the widget is notified (the
    log records it) and from then on reports itself focused or not
    accordingly. *)
Definition focusEvent (w : wid) (b : bool) : M unit :=
  wd ← deref w;
  emit (EvFocus w b);;
  store w (set_focused b wd).

(** ** Window stacking: [Screen::moveWindowToFront] *)

Local Open Scope nat_scope.

(** The function only touches [mChildren], the child sequence of the
    Screen, and reads of each child whether it is a [Popup] and of which
    window; it is written over that sequence, threaded through the
    recursive calls, and lifted to the Screen afterwards. *)
Section Stacking.

(** [owner c = Some w]: [dynamic_cast<Popup *>(c)] succeeds and
    [parentWindow()] of the popup is [w]. *)
Variable owner : wid → option wid.

(** [mChildren.erase(std::remove(.., window), ..); mChildren.push_back(window)] *)
Definition erase_push (window : wid) (ch : list wid) : list wid :=
  filter (λ c, c ≠ window) ch ++ [window].

(** The first [for] loop, from [index] on: [baseIndex] becomes each
    index at which [window] is found. *)
Fixpoint baseIndex_loop (window : wid) (ch : list wid) (index baseIndex : nat) : nat :=
  match ch with
  | [] => baseIndex
  | c :: rest =>
      baseIndex_loop window rest (S index)
                     (if decide (c = window) then index else baseIndex)
  end.

(** The second [for] loop, from [index] on: the popup [pw] at which the
    loop breaks, if it does. *)
Fixpoint offender_loop (window : wid) (baseIndex : nat) (ch : list wid) (index : nat)
  : option wid :=
  match ch with
  | [] => None
  | c :: rest =>
      if bool_decide (owner c = Some window) && bool_decide (index < baseIndex)
      then Some c
      else offender_loop window baseIndex rest (S index)
  end.

(** [moveWindowToFront_children] is the function body, [sort_loop] its
    [do .. while (changed)] loop.  Neither the recursion nor the loop is
    bounded in the source; [fuel] bounds the number of calls and loop
    rounds, and [None] means that it ran out. *)
Fixpoint moveWindowToFront_children (fuel : nat) (window : wid) (ch : list wid)
  : option (list wid) :=
  match fuel with
  | O => None
  | S fuel' => sort_loop fuel' window (erase_push window ch)
  end
with sort_loop (fuel : nat) (window : wid) (ch : list wid) : option (list wid) :=
  match fuel with
  | O => None
  | S fuel' =>
      let baseIndex := baseIndex_loop window ch 0 0 in
      match offender_loop window baseIndex ch 0 with
      | Some pw =>
          match moveWindowToFront_children fuel' pw ch with
          | Some ch' => sort_loop fuel' window ch'   (* changed = true *)
          | None => None
          end
      | None => Some ch                             (* changed = false *)
      end
  end.

End Stacking.

(** The popup owner of a child, read off the heap.  Children are owned by
    their parent and hence allocated; a child the heap does not bind is
    taken not to be a popup. *)
Definition child_owner (h : gmap wid Widget) (c : wid) : option wid :=
  h !! c ≫= popup_parent.

(** [Screen::moveWindowToFront(window)]; [mChildren] is the child
    sequence of the Screen's own widget record. *)
Definition moveWindowToFront (fuel : nat) (window : wid) : M unit :=
  s ← get_state;
  scr ← deref (this s);
  match moveWindowToFront_children (child_owner (heap s)) fuel window (mChildren scr) with
  | Some ch => store (this s) (set_children ch scr)
  | None => fault
  end.


Local Open Scope Z_scope.

(** ** Focus: [Screen::updateFocus] *)

(** A range-based [for] over a sequence of widget pointers. *)
Fixpoint for_each (l : list wid) (body : wid → M unit) : M unit :=
  match l with
  | [] => mret tt
  | w :: rest => body w;; for_each rest body
  end.

(** [if (!w->focused()) continue; w->focusEvent(false);] *)
Definition notify_focus_lost (w : wid) : M unit :=
  wd ← deref w;
  if focused wd then focusEvent w false else mret tt.

(** The [while (widget)] loop: [widget] is appended to [mFocusPath],
    [window] remembers it when it is a [Window], and the walk goes on
    with its parent.  The loop ends at a null parent; the source has no
    bound on it, [fuel] bounds the number of rounds. *)
Fixpoint parent_walk (fuel : nat) (widget window : option wid) : M (option wid) :=
  match widget with
  | None => mret window
  | Some w =>
      match fuel with
      | O => fault
      | S fuel' =>
          wd ← deref w;
          modify (λ s, set_mFocusPath (mFocusPath s ++ [w]) s);;
          parent_walk fuel' (parent wd) (if is_window wd then Some w else window)
      end
  end.

(** [Screen::updateFocus(widget)]; [None] is [nullptr].  The fuel serves
    the walk to the root and the final [moveWindowToFront]. *)
Definition updateFocus (fuel : nat) (widget : option wid) : M unit :=
  s ← get_state;
  for_each (mFocusPath s) notify_focus_lost;;
  modify (set_mFocusPath []);;
  window ← parent_walk fuel widget None;
  s' ← get_state;
  for_each (rev (mFocusPath s')) (λ w, focusEvent w true);;
  match window with
  | Some w => moveWindowToFront fuel w
  | None => mret tt
  end.

(** ** Keyboard: [Screen::keyboardEvent], [Screen::keyboardCharacterEvent] *)

(** The loop shared by the two functions, over the widgets the reverse
    iterator visits: [if (w->focused() && w->handler(..)) return true;]
    for the widget [w] the iterator points at.  [ev w] is the call as the
    log records it, [handled wd] what the handler of the widget answers. *)
Fixpoint deliver_loop (ev : wid → Event) (handled : Widget → bool) (l : list wid) : M bool :=
  match l with
  | [] => mret false
  | w :: rest =>
      wd ← deref w;
      if focused wd then
        emit (ev w);;
        if handled wd then mret true else deliver_loop ev handled rest
      else deliver_loop ev handled rest
  end.

(** [mFocusPath.rbegin() + 1 .. mFocusPath.rend()]: the path backwards,
    without its last element. *)
Definition rbegin_plus_1 (path : list wid) : list wid := tail (rev path).

(** [Screen::keyboardEvent]. *)
Definition keyboardEvent (key scancode action modifiers : Z) : M bool :=
  s ← get_state;
  if bool_decide (0 < length (mFocusPath s))%nat then
    deliver_loop (λ w, EvKeyboard w key scancode action modifiers)
                 (λ wd, keyboardEvent_h (handlers wd) key scancode action modifiers)
                 (rbegin_plus_1 (mFocusPath s))
  else mret false.

(** [Screen::keyboardCharacterEvent]. *)
Definition keyboardCharacterEvent (codepoint : Z) : M bool :=
  s ← get_state;
  if bool_decide (0 < length (mFocusPath s))%nat then
    deliver_loop (λ w, EvKeyboardCharacter w codepoint)
                 (λ wd, keyboardCharacterEvent_h (handlers wd) codepoint)
                 (rbegin_plus_1 (mFocusPath s))
  else mret false.

(** [Screen::keyCallbackEvent] and [Screen::charCallbackEvent]: the time
    of the interaction is stored, then the event is routed. *)
Definition keyCallbackEvent (env : Backend) (key scancode action mods : Z) : M bool :=
  modify (set_mLastInteraction (ngGetTime env));;
  keyboardEvent key scancode action mods.

Definition charCallbackEvent (env : Backend) (codepoint : Z) : M bool :=
  modify (set_mLastInteraction (ngGetTime env));;
  keyboardCharacterEvent codepoint.

(** ** Hit testing and positions (base class [Widget]) *)

(** Modelled from the spec: [Widget::findWidget] ([widget.cpp] is not
    among the sources).  "At each node, if the point lies within the
    node's bounds and the node is visible, it recurses into children in
    reverse child order (frontmost first) and returns the first descendant
    match, falling back to the node itself if no child matches.  Widgets
    that are invisible are skipped entirely."  [p] is in the frame of the
    node's parent.  The outer [option] is [None] when a pointer dangles or
    the fuel bounding the depth of the descent runs out. *)
Fixpoint findWidget_node (fuel : nat) (h : gmap wid Widget) (w : wid) (p : Vector2i)
  : option (option wid) :=
  match fuel with
  | O => None
  | S fuel' =>
      match h !! w with
      | None => None
      | Some wd =>
          if mVisible wd && contains wd p then
            (fix children_loop (cs : list wid) : option (option wid) :=
               match cs with
               | [] => Some (Some w)
               | c :: rest =>
                   match findWidget_node fuel' h c (vsub p (position wd)) with
                   | None => None
                   | Some (Some d) => Some (Some d)
                   | Some None => children_loop rest
                   end
               end) (rev (mChildren wd))
          else Some None
      end
  end.

(** [findWidget(p)] called on the Screen. *)
Definition findWidget (fuel : nat) (p : Vector2i) : M (option wid) :=
  λ s, match findWidget_node fuel (heap s) (this s) p with
       | Some r => Some (r, s)
       | None => None
       end.

(** Modelled from the spec: [Widget::absolutePosition] ([widget.h] is not
    among the sources): positions are local to the parent and "a widget's
    absolute position is the sum of its ancestors' positions up to the
    root", the widget's own position included. *)
Fixpoint absolutePosition_node (fuel : nat) (h : gmap wid Widget) (w : wid)
  : option Vector2i :=
  match fuel with
  | O => None
  | S fuel' =>
      match h !! w with
      | None => None
      | Some wd =>
          match parent wd with
          | None => Some (position wd)
          | Some pw =>
              match absolutePosition_node fuel' h pw with
              | Some a => Some (vadd a (position wd))
              | None => None
              end
          end
      end
  end.

Definition absolutePosition (fuel : nat) (w : wid) : M Vector2i :=
  λ s, match absolutePosition_node fuel (heap s) w with
       | Some r => Some (r, s)
       | None => None
       end.

(** [w->parent()->absolutePosition()]: a null parent is dereferenced,
    which faults. *)
Definition parent_absolutePosition (fuel : nat) (wd : Widget) : M Vector2i :=
  match parent wd with
  | Some pw => absolutePosition fuel pw
  | None => fault
  end.

(** ** Pointer events *)

(** A C++ [int]: 32 bits, two's complement. *)
Definition int_wrap (z : Z) : Z := (z + 2^31) mod 2^32 - 2^31.

(** The modality check that opens the button and the scroll callback:
    [true] when the callback is to [return false].
    [mFocusPath[mFocusPath.size() - 2]] is cast to [Window *]. *)
Definition modal_window_blocks : M bool :=
  s ← get_state;
  if bool_decide (1 < length (mFocusPath s))%nat then
    match mFocusPath s !! (length (mFocusPath s) - 2)%nat with
    | Some w =>
        wd ← deref w;
        match window_modal wd return M bool with
        | Some true => mret (negb (contains wd (mMousePos s)))
        | _ => mret false
        end
    | None => fault
    end
  else mret false.

(** [if (w != nullptr && w->cursor() != mCursor) { mCursor = w->cursor();
    ngSetCursor(mPlatformWindow, mCursor); }] *)
Definition update_cursor (w : option wid) : M unit :=
  match w with
  | None => mret tt
  | Some x =>
      wd ← deref x;
      s ← get_state;
      if bool_decide (cursor wd ≠ mCursor s) then
        modify (set_mCursor (cursor wd));;
        emit (EvSetCursor (cursor wd))
      else mret tt
  end.

(** Modelled from the spec: [Widget::mouseButtonEvent] called on the
    Screen ([widget.cpp] is not among the sources): the callback "delivers
    the press/release event to the hit-tested widget". *)
Definition Widget_mouseButtonEvent (fuel : nat) (p : Vector2i) (button : Z)
    (down : bool) (modifiers : Z) : M bool :=
  hit ← findWidget fuel p;
  match hit with
  | Some w =>
      wd ← deref w;
      emit (EvMouseButton w p button down modifiers);;
      mret (mouseButtonEvent_h (handlers wd) p button down modifiers)
  | None => mret false
  end.

(** Modelled from the spec: [Widget::scrollEvent] called on the Screen
    ([widget.cpp] is not among the sources): the event is "delivered to
    the hit-tested widget at the current mouse position". *)
Definition Widget_scrollEvent (fuel : nat) (p : Vector2i) (rel : float * float) : M bool :=
  hit ← findWidget fuel p;
  match hit with
  | Some w =>
      wd ← deref w;
      emit (EvScroll w p rel);;
      mret (scrollEvent_h (handlers wd) p rel)
  | None => mret false
  end.

(** Modelled from the spec: [Widget::mouseMotionEvent] called on the
    Screen ([widget.cpp] is not among the sources): the motion is
    "delivered as a generic motion event to the hit-tested widget (or the
    Screen, as fallback)". *)
Definition Widget_mouseMotionEvent (fuel : nat) (p rel : Vector2i) (buttons modifiers : Z)
  : M bool :=
  hit ← findWidget fuel p;
  s ← get_state;
  let w := default (this s) hit in
  wd ← deref w;
  emit (EvMouseMotion w p rel buttons modifiers);;
  mret (mouseMotionEvent_h (handlers wd) p rel buttons modifiers).

(** [if (action == NG_PRESS) mMouseState |= 1 << button; else
    mMouseState &= ~(1 << button);] *)
Definition update_mouse_state (button action : Z) : M unit :=
  if bool_decide (action = NG_PRESS)
  then modify (λ s, set_mMouseState
                      (Z.lor (mMouseState s) (int_wrap (Z.shiftl 1 button))) s)
  else modify (λ s, set_mMouseState
                      (Z.land (mMouseState s) (Z.lnot (int_wrap (Z.shiftl 1 button)))) s).

(** [if (mDragActive && action == NG_RELEASE && dropWidget != mDragWidget)
    mDragWidget->mouseButtonEvent(mMousePos -
    mDragWidget->parent()->absolutePosition(), button, false, mModifiers);]
    The answer of the handler is dropped. *)
Definition release_drag_widget (fuel : nat) (button action : Z) (dropWidget : option wid)
  : M unit :=
  s ← get_state;
  if mDragActive s && bool_decide (action = NG_RELEASE)
     && bool_decide (dropWidget ≠ mDragWidget s)
  then
    dw ← deref_opt (mDragWidget s);
    a ← parent_absolutePosition fuel dw.2;
    emit (EvMouseButton dw.1 (vsub (mMousePos s) a) button false (mModifiers s))
  else mret tt.

(** The [if (action == NG_PRESS && (button == NG_MOUSE_BUTTON_1 || button
    == NG_MOUSE_BUTTON_2)) .. else ..] that sets [mDragWidget] and
    [mDragActive]. *)
Definition update_drag (fuel : nat) (button action : Z) : M unit :=
  if bool_decide (action = NG_PRESS)
     && (bool_decide (button = NG_MOUSE_BUTTON_1) || bool_decide (button = NG_MOUSE_BUTTON_2))
  then
    s ← get_state;
    hit ← findWidget fuel (mMousePos s);
    let dragWidget := if bool_decide (hit = Some (this s)) then None else hit in
    modify (set_mDragWidget dragWidget);;
    modify (set_mDragActive (bool_decide (dragWidget ≠ None)));;
    if bool_decide (dragWidget ≠ None) then (mret tt : M unit) else updateFocus fuel None
  else
    modify (set_mDragActive false);;
    modify (set_mDragWidget None).

(** [Screen::mouseButtonCallbackEvent]. *)
Definition mouseButtonCallbackEvent (env : Backend) (fuel : nat)
    (button action modifiers : Z) : M bool :=
  modify (set_mModifiers modifiers);;
  modify (set_mLastInteraction (ngGetTime env));;
  blocked ← modal_window_blocks;
  if (blocked : bool) then (mret false : M bool) else
  update_mouse_state button action;;
  s ← get_state;
  dropWidget ← findWidget fuel (mMousePos s);
  release_drag_widget fuel button action dropWidget;;
  update_cursor dropWidget;;
  update_drag fuel button action;;
  s' ← get_state;
  Widget_mouseButtonEvent fuel (mMousePos s') button (bool_decide (action = NG_PRESS))
                          (mModifiers s').

(** [Screen::scrollCallbackEvent]; [scrollEvent(mMousePos, Vector2f(x, y))]
    narrows the two offsets to [float]. *)
Definition scrollCallbackEvent (env : Backend) (fuel : nat) (x y : double) : M bool :=
  modify (set_mLastInteraction (ngGetTime env));;
  blocked ← modal_window_blocks;
  if (blocked : bool) then (mret false : M bool) else
  s ← get_state;
  Widget_scrollEvent fuel (mMousePos s) (float_of_double x, float_of_double y).

(** [Screen::cursorPosCallbackEvent]; [x] and [y] are the coordinates
    after the conversion [(int) x], [(int) y] that the function starts
    with. *)
Definition cursorPosCallbackEvent (env : Backend) (fuel : nat) (x y : Z) : M bool :=
  s ← get_state;
  let p0 := if win32_or_linux env then vquot (x, y) (mPixelRatio s) else (x, y) in
  modify (set_mLastInteraction (ngGetTime env));;
  let p := vsub p0 (1, 2) in
  ret ← (if negb (mDragActive s) then
           widget ← findWidget fuel p;
           update_cursor widget;;
           mret false
         else
           dw ← deref_opt (mDragWidget s);
           a ← parent_absolutePosition fuel dw.2;
           emit (EvMouseDrag dw.1 (vsub p a) (vsub p (mMousePos s))
                             (mMouseState s) (mModifiers s));;
           mret (mouseDragEvent_h (handlers dw.2) (vsub p a) (vsub p (mMousePos s))
                                  (mMouseState s) (mModifiers s)));
  ret' ← (if (ret : bool) then (mret true : M bool)
          else Widget_mouseMotionEvent fuel p (vsub p (mMousePos s))
                                       (mMouseState s) (mModifiers s));
  modify (set_mMousePos p);;
  mret ret'.

(** ** Resize: [Screen::resizeCallbackEvent] *)

(** [Screen::resizeEvent], the default of [screen.h]: the notification is
    delivered and not handled. *)
Definition resizeEvent (size : Vector2i) : M bool :=
  emit (EvResize size);;
  mret false.

(** [mPixelRatio] is a [float]; dividing the integer vector [size] by it
    converts it to the vector's scalar type, so [mPixelRatio] is carried
    as that integer ([get_pixel_ratio] returns [1.0f]). *)
Definition resizeCallbackEvent (env : Backend) : M bool :=
  s ← get_state;
  let fbSize := ngGetFramebufferSize env in
  let size := if win32_or_linux env
              then vquot (ngGetWindowSize env) (mPixelRatio s)
              else ngGetWindowSize env in
  if bool_decide (mFBSize s = (0, 0)) || bool_decide (size = (0, 0))
  then (mret false : M bool) else
  modify (set_mFBSize fbSize);;
  scr ← deref (this s);
  store (this s) (set_size size scr);;
  modify (set_mLastInteraction (ngGetTime env));;
  resizeEvent size.

(** ** Disposal: [Screen::disposeWindow] *)

(** Modelled from the spec: the destruction of a widget ([widget.cpp] is
    not among the sources): a widget owns its children, and widgets are
    "destroyed when removed from their parent's child sequence"; the
    widget and, before it, the widgets it owns leave the heap. *)
Fixpoint destroy (fuel : nat) (w : wid) (h : gmap wid Widget) : option (gmap wid Widget) :=
  match fuel with
  | O => None
  | S fuel' =>
      match h !! w with
      | None => None
      | Some wd =>
          (fix children_loop (cs : list wid) (h : gmap wid Widget) :=
             match cs with
             | [] => Some (delete w h)
             | c :: rest =>
                 match destroy fuel' c h with
                 | Some h' => children_loop rest h'
                 | None => None
                 end
             end) (mChildren wd) h
      end
  end.

(** Modelled from the spec: the release of the widget that
    [Widget::removeChild] ends with ([widget.cpp] is not among the
    sources). *)
Definition delete_widget (fuel : nat) (w : wid) : M unit :=
  λ s, match destroy fuel w (heap s) with
       | Some h => Some (tt, set_heap h s)
       | None => None
       end.

(** Modelled from the spec: [Widget::removeChild] called on the Screen
    ([widget.cpp] is not among the sources): the widget is removed from
    the child sequence and destroyed. *)
Definition removeChild (fuel : nat) (w : wid) : M unit :=
  s ← get_state;
  scr ← deref (this s);
  store (this s) (set_children (filter (λ c, c ≠ w) (mChildren scr)) scr);;
  delete_widget fuel w.

(** [Screen::disposeWindow(window)]. *)
Definition disposeWindow (fuel : nat) (window : wid) : M unit :=
  s ← get_state;
  (if bool_decide (window ∈ mFocusPath s) then modify (set_mFocusPath []) else mret tt);;
  (if bool_decide (mDragWidget s = Some window) then modify (set_mDragWidget None)
   else mret tt);;
  removeChild fuel window.

(** ** Predicates used to state and prove the properties *)

Local Open Scope nat_scope.

(** *** Stacking order *)

Section StackingOrder.

(** [rank] measures how deep a widget sits in the popup ownership: a
    popup ranks strictly below the window that owns it. *)
Variable rank : wid → nat.

(** A widget [W] that occurs once in the child sequence does so still
    afterwards, with no more children before it: the step from [ch] to
    [ch'] spares every widget ranking above [r]. *)
Definition keeps (r : nat) (ch ch' : list wid) : Prop :=
  ∀ W pre post,
    r < rank W → (ch = pre ++ W :: post) → (W ∉ pre) → (W ∉ post) →
    ∃ pre' post',
      ch' = pre' ++ W :: post' ∧ (W ∉ pre') ∧ (W ∉ post') ∧ length pre' ≤ length pre.

(** The same, and [x] no longer stands before [W] if it did. *)
Definition moves (x : wid) (ch ch' : list wid) : Prop :=
  ∀ W pre post,
    rank x < rank W → (ch = pre ++ W :: post) → (W ∉ pre) → (W ∉ post) →
    ∃ pre' post',
      ch' = pre' ++ W :: post' ∧ (W ∉ pre') ∧ (W ∉ post') ∧ length pre' ≤ length pre
      ∧ (x ∈ pre → length pre' < length pre).

End StackingOrder.

(** The popup ownership recorded in the heap respects [rank]. *)
Definition owner_below (rank : wid → nat) (p : wid) (wd : Widget) : Prop :=
  match popup_parent wd with
  | Some w => rank p < rank w
  | None => True
  end.

#[global] Instance owner_below_dec rank p wd : Decision (owner_below rank p wd).
Proof. unfold owner_below. destruct (popup_parent wd); apply _. Defined.

Definition ranked (rank : wid → nat) (h : gmap wid Widget) : Prop :=
  map_Forall (owner_below rank) h.

#[global] Instance ranked_dec rank h : Decision (ranked rank h).
Proof. unfold ranked. apply _. Defined.

(** After [moveWindowToFront(win)]: every popup of [win] among the
    Screen's children has an index above that of [win]. *)
Definition popups_behind (win : wid) (st : Screen) : Prop :=
  ∀ scr i j p,
    heap st !! this st = Some scr →
    mChildren scr !! i = Some p → child_owner (heap st) p = Some win →
    mChildren scr !! j = Some win → (j < i)%nat.

(** The same for the popups other than [win] itself. *)
Definition other_popups_behind (win : wid) (st : Screen) : Prop :=
  ∀ scr i j p,
    heap st !! this st = Some scr →
    mChildren scr !! i = Some p → child_owner (heap st) p = Some win → p ≠ win →
    mChildren scr !! j = Some win → (j < i)%nat.

(** *** Focus *)

(** The ancestor chain of a widget, from the widget to the root (the
    widget without parent), leaf first; the chain of no widget is empty. *)
Inductive ancestor_chain (h : gmap wid Widget) : option wid → list wid → Prop :=
  | chain_none : ancestor_chain h None []
  | chain_step w wd l :
      h !! w = Some wd → ancestor_chain h (parent wd) l →
      ancestor_chain h (Some w) (w :: l).

(** What [w->focused()] answers. *)
Definition focused_in (h : gmap wid Widget) (w : wid) : bool :=
  match h !! w with Some wd => focused wd | None => false end.

(** How often an event occurs in a log. *)
Definition count_event (e : Event) (l : list Event) : nat :=
  length (filter (λ x, x = e) l).

(** What an operation added to the log. *)
Definition events_since (st st' : Screen) : list Event :=
  drop (length (events st)) (events st').

(** From [st] to [st'], every widget of the former focus path that is not
    in the new one was notified exactly once that it lost the focus. *)
Definition focus_lost_once (st st' : Screen) : Prop :=
  ∀ w, w ∈ mFocusPath st → w ∉ mFocusPath st' →
       count_event (EvFocus w false) (events_since st st') = 1%nat.

(** The heap up to the focus flags. *)
Definition shape (h : gmap wid Widget) : gmap wid Widget := set_focused false <$> h.

(** *** Keyboard *)

(** A sequence up to and including its first element that satisfies [p]. *)
Fixpoint take_through {A} (p : A → bool) (l : list A) : list A :=
  match l with
  | [] => []
  | x :: rest => x :: (if p x then [] else take_through p rest)
  end.

(** What the handler of widget [w] answers. *)
Definition handled_by (h : gmap wid Widget) (handled : Widget → bool) (w : wid) : bool :=
  match h !! w with Some wd => handled wd | None => false end.

(** The widgets a key or character event is offered to, in the order the
    code visits them: the focused widgets of the focus path read backwards
    from its last but one entry to its first, through the first one whose
    handler takes the event. *)
Definition key_targets (handled : Widget → bool) (st : Screen) : list wid :=
  take_through (handled_by (heap st) handled)
    (List.filter (focused_in (heap st)) (rbegin_plus_1 (mFocusPath st))).

(** The same in the words of the specification: "along focusPath from
    leaf outward (excluding the Screen itself) until one consumes it". *)
Definition key_targets_leaf_outward (handled : Widget → bool) (st : Screen) : list wid :=
  take_through (handled_by (heap st) handled)
    (List.filter (focused_in (heap st)) (removelast (mFocusPath st))).

(** *** Modality *)

(** The last but one entry of the focus path is the modal window [M],
    with record [wd]. *)
Definition modal_window_below_top (st : Screen) (M : wid) (wd : Widget) : Prop :=
  (1 < length (mFocusPath st))%nat
  ∧ mFocusPath st !! (length (mFocusPath st) - 2)%nat = Some M
  ∧ heap st !! M = Some wd
  ∧ window_modal wd = Some true.

(** From [st] to [st'] the Screen is as it was in everything but
    [mModifiers] and [mLastInteraction], of which nothing is said. *)
Definition same_but_modifiers_and_time (st st' : Screen) : Prop :=
  this st' = this st ∧ heap st' = heap st ∧ mCursor st' = mCursor st
  ∧ mFocusPath st' = mFocusPath st ∧ mFBSize st' = mFBSize st
  ∧ mPixelRatio st' = mPixelRatio st ∧ mMouseState st' = mMouseState st
  ∧ mMousePos st' = mMousePos st ∧ mDragActive st' = mDragActive st
  ∧ mDragWidget st' = mDragWidget st ∧ events st' = events st.

(** *** Drag capture *)

(** From [st] to [st'] nothing changed but focus flags, the cursor shape
    applied, the log, which grew, and possibly the focus path, which was
    cleared. *)
Definition frame (st st' : Screen) : Prop :=
  this st' = this st ∧ mMousePos st' = mMousePos st ∧ mModifiers st' = mModifiers st
  ∧ shape (heap st') = shape (heap st)
  ∧ (mFocusPath st' = mFocusPath st ∨ mFocusPath st' = [])
  ∧ ∃ evs, events st' = events st ++ evs.

Definition keeps_drag (st st' : Screen) : Prop :=
  mDragActive st' = mDragActive st ∧ mDragWidget st' = mDragWidget st.

(** Whether a press that hit-tests to [hit] captures the widget: it does
    unless nothing or the Screen itself was hit. *)
Definition captures (st : Screen) (hit : option wid) : bool :=
  match hit with
  | Some x => bool_decide (x ≠ this st)
  | None => false
  end.

(** A press of the first or the second mouse button. *)
Definition is_drag_press (button action : Z) : bool :=
  bool_decide (action = NG_PRESS)
  && (bool_decide (button = NG_MOUSE_BUTTON_1) || bool_decide (button = NG_MOUSE_BUTTON_2)).

(** The drag capture in the words of the specification: the drag that
    the button [initiating] began on [W] is back to idle exactly "on
    release of the button that initiated the drag, or whenever the newly
    hit widget under the release point differs from the captured widget". *)
Definition idle_exactly_on_release_or_miss (initiating button action : Z) (W : wid)
    (hit : option wid) (st' : Screen) : Prop :=
  mDragActive st' = false
  ↔ (action = NG_RELEASE ∧ button = initiating) ∨ hit ≠ Some W.

(** *** Disposal *)

(** While [mDragActive] holds, [mDragWidget] refers to an existing
    widget. *)
Definition drag_invariant (st : Screen) : Prop :=
  mDragActive st = true → ∃ w, mDragWidget st = Some w ∧ is_Some (heap st !! w).

(** [x] belongs to the subtree of [w]: the ancestor chain of [x] passes
    through [w]. *)
Definition in_subtree (h : gmap wid Widget) (w x : wid) : Prop :=
  ∃ chain, ancestor_chain h (Some x) chain ∧ w ∈ chain.

(** After the disposal of [w], whose subtree was read off the heap [h]:
    [w] is no child of the Screen, and neither the focus path nor
    [mDragWidget] refers to a widget of the subtree. *)
Definition no_reference_into (h : gmap wid Widget) (w : wid) (st' : Screen) : Prop :=
  (∀ scr, heap st' !! this st' = Some scr → w ∉ mChildren scr)
  ∧ ∀ x, in_subtree h w x → (x ∉ mFocusPath st') ∧ mDragWidget st' ≠ Some x.

(** *** Scenes the statements are tried on *)

Local Open Scope Z_scope.

Definition ignores : Handlers :=
  mkHandlers (λ _ _ _ _, false) (λ _, false) (λ _ _ _ _, false)
             (λ _ _ _ _, false) (λ _ _ _ _, false) (λ _ _, false).

Definition consumes : Handlers :=
  mkHandlers (λ _ _ _ _, true) (λ _, true) (λ _ _ _ _, true)
             (λ _ _ _ _, true) (λ _ _ _ _, true) (λ _ _, true).

(** A visible, enabled, unfocused widget with the arrow cursor. *)
Definition node (par : option wid) (ch : list wid) (pos sz : Vector2i) (r : Role)
    (hs : Handlers) : Widget :=
  mkWidget par ch pos sz true true false Arrow r hs.

(** A Screen of 800 by 600 around a heap, the pointer at [mouse]. *)
Definition screen_of (h : gmap wid Widget) (path : list wid) (mouse : Vector2i)
    (dragActive : bool) (dragWidget : option wid) : Screen :=
  mkScreen 0%nat h Arrow path (800, 600) 1 0 0 mouse dragActive dragWidget 0 [].

Definition backend : Backend := mkBackend 42 (800, 600) (800, 600) true.

(** Screen 0 with window 1, a button 2 in the window, and popup 3 of
    window 1; the popup is painted before its window. *)
Definition popup_heap : gmap wid Widget :=
  <[0%nat := node None [3; 1]%nat (0, 0) (800, 600) PlainWidget ignores]>
  (<[1%nat := node (Some 0%nat) [2%nat] (100, 100) (200, 150) (IsWindow false) ignores]>
  (<[2%nat := node (Some 1%nat) [] (10, 10) (20, 20) PlainWidget ignores]>
  (<[3%nat := node (Some 0%nat) [] (400, 100) (100, 100) (IsPopup false 1%nat) ignores]>
   ∅))).

Definition popup_scene : Screen := screen_of popup_heap [] (115, 115) false None.

(** The rank that goes with [popup_heap]: popup 3 below its owner 1. *)
Definition popup_rank (w : wid) : nat := match w with 3%nat => 0%nat | _ => 1%nat end.


(** Screen 0 with popups 1 and 2, each the parent window of the other. *)
Definition cyclic_heap : gmap wid Widget :=
  <[0%nat := node None [2; 1]%nat (0, 0) (800, 600) PlainWidget ignores]>
  (<[1%nat := node (Some 0%nat) [] (100, 100) (100, 100) (IsPopup false 2%nat) ignores]>
  (<[2%nat := node (Some 0%nat) [] (300, 100) (100, 100) (IsPopup false 1%nat) ignores]>
   ∅)).

Definition cyclic_scene : Screen := screen_of cyclic_heap [] (5, 5) false None.

(** Screen 0 with window 1 and its button 2, and popup 3 of window 1.
    The focus path leads to the button; the Screen and the window report
    themselves focused, the button does not. *)
Definition stale_focus_heap : gmap wid Widget :=
  <[0%nat := set_focused true
               (node None [1; 3]%nat (0, 0) (800, 600) PlainWidget ignores)]>
  (<[1%nat := set_focused true
               (node (Some 0%nat) [2%nat] (100, 100) (200, 150) (IsWindow false) ignores)]>
  (<[2%nat := node (Some 1%nat) [] (10, 10) (20, 20) PlainWidget ignores]>
  (<[3%nat := node (Some 0%nat) [] (400, 100) (100, 100) (IsPopup false 1%nat) ignores]>
   ∅))).

Definition stale_focus_scene : Screen :=
  screen_of stale_focus_heap [2; 1; 0]%nat (115, 115) false None.

(** Screen 0 with window 1 and a text box 2 in it; all three report
    themselves focused and the focus path leads to the text box.  Both the
    window and the text box take every key. *)
Definition keyboard_heap : gmap wid Widget :=
  <[0%nat := set_focused true
               (node None [1%nat] (0, 0) (800, 600) PlainWidget ignores)]>
  (<[1%nat := set_focused true
               (node (Some 0%nat) [2%nat] (100, 100) (200, 150) (IsWindow false) consumes)]>
  (<[2%nat := set_focused true
               (node (Some 1%nat) [] (10, 10) (20, 20) PlainWidget consumes)]>
   ∅)).

Definition keyboard_scene : Screen :=
  screen_of keyboard_heap [2; 1; 0]%nat (115, 115) false None.

(** Screen 0 with the modal window 1 and its button 2, which has the
    focus; the pointer is at (5, 5), outside the window. *)
Definition modal_heap : gmap wid Widget :=
  <[0%nat := set_focused true
               (node None [1%nat] (0, 0) (800, 600) PlainWidget ignores)]>
  (<[1%nat := set_focused true
               (node (Some 0%nat) [2%nat] (100, 100) (200, 150) (IsWindow true) ignores)]>
  (<[2%nat := set_focused true
               (node (Some 1%nat) [] (10, 10) (20, 20) PlainWidget ignores)]>
   ∅)).

Definition modal_window : Widget :=
  set_focused true
    (node (Some 0%nat) [2%nat] (100, 100) (200, 150) (IsWindow true) ignores).

Definition modal_scene : Screen :=
  screen_of modal_heap [2; 1; 0]%nat (5, 5) false None.

(** Screen 0 with window 1 and its button 2, on which the first mouse
    button began a drag; the focus path leads to the button. *)
Definition drag_heap : gmap wid Widget :=
  <[0%nat := set_focused true
               (node None [1%nat] (0, 0) (800, 600) PlainWidget ignores)]>
  (<[1%nat := set_focused true
               (node (Some 0%nat) [2%nat] (100, 100) (200, 150) (IsWindow false) ignores)]>
  (<[2%nat := set_focused true
               (node (Some 1%nat) [] (10, 10) (20, 20) PlainWidget ignores)]>
   ∅)).

Definition drag_button : Widget :=
  set_focused true (node (Some 1%nat) [] (10, 10) (20, 20) PlainWidget ignores).

(** The pointer is at [mouse]; the button 2 or the window 1 is captured. *)
Definition drag_scene (mouse : Vector2i) (captured : wid) : Screen :=
  mkScreen 0%nat drag_heap Arrow [2; 1; 0]%nat (800, 600) 1 1 0 mouse true
           (Some captured) 0 [].

(** The backend reports a framebuffer of (0, 0) and a window of 800 by
    600. *)
Definition zero_framebuffer_backend : Backend := mkBackend 42 (800, 600) (0, 0) true.

(** * Further operations of the Screen *)

Local Open Scope Z_scope.

Definition set_position (p : Vector2i) (w : Widget) : Widget :=
  mkWidget (parent w) (mChildren w) p (mSize w) (mVisible w)
           (enabled w) (focused w) (cursor w) (role w) (handlers w).

Definition set_mPixelRatio (r : Z) (s : Screen) : Screen :=
  mkScreen (this s) (heap s) (mCursor s) (mFocusPath s) (mFBSize s) r
           (mMouseState s) (mModifiers s) (mMousePos s) (mDragActive s)
           (mDragWidget s) (mLastInteraction s) (events s).

(** ** Start-up: [Screen::initialize] *)

(** [get_pixel_ratio]: [return 1.0f;], as the integer it is used as. *)
Definition get_pixel_ratio : Z := 1.

(** How a function that may throw ends. *)
Inductive Outcome : Set :=
  | Returned
  | Thrown_runtime_error.

(** [Screen::initialize(window)].  [nvgCreate_ok] tells whether
    [nvgCreate] returned a context; if not, the function throws with the
    pixel ratio and the two sizes stored and the interaction state
    untouched.  The platform window, the drawing context and the theme
    are not part of the state modelled here. *)
Definition initialize (env : Backend) (nvgCreate_ok : bool) : M Outcome :=
  modify (set_mPixelRatio get_pixel_ratio);;
  s ← get_state;
  scr ← deref (this s);
  store (this s) (set_size (ngGetWindowSize env) scr);;
  modify (set_mFBSize (ngGetFramebufferSize env));;
  if nvgCreate_ok then
    modify (set_mMousePos (0, 0));;
    modify (set_mMouseState 0);;
    modify (set_mModifiers 0);;
    modify (set_mDragActive false);;
    modify (set_mLastInteraction (ngGetTime env));;
    mret Returned
  else mret Thrown_runtime_error.

(** ** Centring: [Screen::centerWindow] *)

Section CenterWindow.

(** [window->preferredSize(mNVGContext)] and
    [window->performLayout(mNVGContext)] are virtual functions of the
    widget that depend on fonts and on the layout engine; they are
    parameters here. *)
Variable preferredSize : wid → Screen → Vector2i.
Variable performLayout : wid → M unit.

(** [Screen::centerWindow(window)]; [mSize] is the size of the Screen and
    the division by 2 is the truncating one of C++. *)
Definition centerWindow (window : wid) : M unit :=
  wd ← deref window;
  (if bool_decide (mSize wd = (0, 0)) then
     s ← get_state;
     store window (set_size (preferredSize window s) wd);;
     performLayout window
   else mret tt);;
  s ← get_state;
  scr ← deref (this s);
  wd' ← deref window;
  store window (set_position (vquot (vsub (mSize scr) (mSize wd')) 2) wd').

End CenterWindow.

(** ** Further predicates *)

(** The window that [updateFocus] moves to the front: of the windows on
    the chain, the one nearest the root. *)
Definition outermost_window (h : gmap wid Widget) (chain : list wid) : option wid :=
  last (List.filter (λ w, match h !! w with Some wd => is_window wd | None => false end)
                    chain).

(** The mask of a mouse button in [mMouseState]: [1 << button]. *)
Definition button_mask (button : Z) : Z := int_wrap (Z.shiftl 1 button).

(** Screen 0 with two windows, 1 below 2, neither owning a popup. *)
Definition two_windows_heap : gmap wid Widget :=
  <[0%nat := node None [1; 2]%nat (0, 0) (800, 600) PlainWidget ignores]>
  (<[1%nat := node (Some 0%nat) [] (100, 100) (201, 150) (IsWindow false) ignores]>
  (<[2%nat := node (Some 0%nat) [] (300, 100) (100, 100) (IsWindow false) ignores]>
   ∅)).

Definition two_windows_scene : Screen :=
  screen_of two_windows_heap [] (5, 5) false None.

(** From [st] to [st'] the button mask, the time of the last interaction
    and the cached sizes stayed as they were. *)
Definition steady (st st' : Screen) : Prop :=
  mMouseState st' = mMouseState st ∧ mLastInteraction st' = mLastInteraction st
  ∧ mFBSize st' = mFBSize st ∧ mPixelRatio st' = mPixelRatio st.

(** [keyboard_heap] with the focus on the text box alone. *)
Definition lone_focus_scene : Screen :=
  screen_of keyboard_heap [2]%nat (115, 115) false None.

(** The point a motion callback works with: [(int) x, (int) y], divided
    by the pixel ratio on Windows and Linux, less [(1, 2)]. *)
Definition pointer (env : Backend) (st : Screen) (x y : Z) : Vector2i :=
  vsub (if win32_or_linux env then vquot (x, y) (mPixelRatio st) else (x, y)) (1, 2).

(** The cursor shape after an idle motion over [hit]: that of the widget
    under the pointer, if there is one. *)
Definition cursor_over (st : Screen) (hit : option wid) : Cursor :=
  match hit with
  | Some d => match heap st !! d with Some wd => cursor wd | None => mCursor st end
  | None => mCursor st
  end.

(** A rectangle of size [inner] placed at [pos] within one of size
    [outer] has, on each axis, margins that differ by at most one. *)
Definition centred (outer inner pos : Vector2i) : Prop :=
  Z.abs (outer.1 - inner.1 - 2 * pos.1) ≤ 1 ∧ Z.abs (outer.2 - inner.2 - 2 * pos.2) ≤ 1.

(** A run of resize callbacks, one for each report of the backend, with
    nothing else run on the Screen in between (no frame drawn, no other
    callback); the answers are collected. *)
Fixpoint resize_callbacks (envs : list Backend) : M (list bool) :=
  match envs with
  | [] => mret []
  | env :: rest =>
      r ← resizeCallbackEvent env;
      rs ← resize_callbacks rest;
      mret (r :: rs)
  end.

(** * Properties *)

Local Open Scope nat_scope.

(** ** Window stacking: the loops *)

(** *** What the two [for] loops compute *)

Section StackingFacts.

Variable owner : wid → option wid.

Lemma baseIndex_loop_absent window ch index baseIndex :
  window ∉ ch → baseIndex_loop window ch index baseIndex = baseIndex.
Proof.
  revert index baseIndex.
  induction ch as [|c rest IH]; intros index baseIndex Hn; simpl; [done|].
  apply not_elem_of_cons in Hn as [Hc Hrest].
  destruct (decide (c = window)); [congruence|]. by apply IH.
Qed.

(** [baseIndex] ends as the last index at which [window] occurs. *)
Lemma baseIndex_loop_last window pre post index baseIndex :
  window ∉ post →
  baseIndex_loop window (pre ++ window :: post) index baseIndex = index + length pre.
Proof.
  intros Hpost. revert index baseIndex.
  induction pre as [|c pre IH]; intros index baseIndex; simpl.
  - destruct (decide (window = window)); [|done].
    rewrite baseIndex_loop_absent by done. lia.
  - rewrite IH. lia.
Qed.

Lemma baseIndex_loop_keep_or_later window ch index baseIndex :
  baseIndex_loop window ch index baseIndex = baseIndex
  ∨ index ≤ baseIndex_loop window ch index baseIndex.
Proof.
  revert index baseIndex.
  induction ch as [|c rest IH]; intros index baseIndex; simpl; [by left|].
  destruct (decide (c = window)).
  - right. destruct (IH (S index) index) as [-> | ?]; lia.
  - destruct (IH (S index) baseIndex) as [-> | ?]; [by left | right; lia].
Qed.

Lemma baseIndex_loop_ge window ch index baseIndex j :
  ch !! j = Some window →
  index + j ≤ baseIndex_loop window ch index baseIndex.
Proof.
  revert index baseIndex j.
  induction ch as [|c rest IH]; intros index baseIndex j Hj; [done|].
  destruct j as [|j]; simpl in *.
  - injection Hj as ->. destruct (decide (window = window)); [|done].
    destruct (baseIndex_loop_keep_or_later window rest (S index) index) as [-> | ?]; lia.
  - specialize (IH (S index) (if decide (c = window) then index else baseIndex) j Hj).
    lia.
Qed.

Lemma offender_loop_Some window baseIndex ch index pw :
  offender_loop owner window baseIndex ch index = Some pw →
  ∃ k, ch !! k = Some pw ∧ owner pw = Some window ∧ index + k < baseIndex.
Proof.
  revert index.
  induction ch as [|c rest IH]; intros index H; simpl in H; [done|].
  destruct (bool_decide (owner c = Some window) && bool_decide (index < baseIndex)) eqn:E.
  - injection H as <-. apply andb_true_iff in E as [E1 E2].
    apply bool_decide_eq_true in E1, E2.
    exists 0. split; [done|]. split; [done|lia].
  - destruct (IH _ H) as (k & Hk & Ho & Hlt).
    exists (S k). split; [done|]. split; [done|lia].
Qed.

Lemma offender_loop_None window baseIndex ch index :
  offender_loop owner window baseIndex ch index = None →
  ∀ k c, ch !! k = Some c → owner c = Some window → ¬ index + k < baseIndex.
Proof.
  revert index.
  induction ch as [|c rest IH]; intros index H k c' Hk Ho Hlt; [done|].
  simpl in H.
  destruct (bool_decide (owner c = Some window) && bool_decide (index < baseIndex)) eqn:E;
    [done|].
  destruct k as [|k]; simpl in Hk.
  - injection Hk as ->.
    apply andb_false_iff in E as [E|E]; apply bool_decide_eq_false in E.
    + done.
    + apply E. lia.
  - apply (IH _ H k c' Hk Ho). lia.
Qed.

End StackingFacts.

(** *** The fixed point the scan reaches *)

Section StackingResult.

Variable owner : wid → option wid.

Lemma moveWindowToFront_children_S fuel window ch :
  moveWindowToFront_children owner (S fuel) window ch
  = sort_loop owner fuel window (erase_push window ch).
Proof. reflexivity. Qed.

Lemma sort_loop_S fuel window ch :
  sort_loop owner (S fuel) window ch
  = match offender_loop owner window (baseIndex_loop window ch 0 0) ch 0 with
    | Some pw =>
        match moveWindowToFront_children owner fuel pw ch with
        | Some ch' => sort_loop owner fuel window ch'
        | None => None
        end
    | None => Some ch
    end.
Proof. reflexivity. Qed.

(** The loop is left only after a scan that found no popup to move. *)
Lemma sort_loop_exit fuel window ch ch' :
  sort_loop owner fuel window ch = Some ch' →
  offender_loop owner window (baseIndex_loop window ch' 0 0) ch' 0 = None.
Proof.
  revert ch. induction fuel as [|fuel IH]; intros ch H; [done|].
  rewrite sort_loop_S in H.
  destruct (offender_loop owner window (baseIndex_loop window ch 0 0) ch 0)
    as [pw|] eqn:E.
  - destruct (moveWindowToFront_children owner fuel pw ch); [|done]. by eapply IH.
  - by injection H as <-.
Qed.

Lemma stacking_keeps_members fuel :
  (∀ window ch ch',
     moveWindowToFront_children owner fuel window ch = Some ch' →
     window ∈ ch' ∧ ∀ y, y ∈ ch → y ∈ ch')
  ∧ (∀ window ch ch',
       sort_loop owner fuel window ch = Some ch' → ∀ y, y ∈ ch → y ∈ ch').
Proof.
  induction fuel as [|fuel [IHcall IHloop]]; [by split|].
  split; intros window ch ch' H.
  - rewrite moveWindowToFront_children_S in H.
    pose proof (IHloop _ _ _ H) as Hsub. split.
    + apply Hsub. unfold erase_push. apply elem_of_app. right. by left.
    + intros y Hy. apply Hsub. unfold erase_push. apply elem_of_app.
      destruct (decide (y = window)) as [->|Hne]; [right; by left|].
      left. by apply list_elem_of_filter.
  - rewrite sort_loop_S in H.
    destruct (offender_loop owner window (baseIndex_loop window ch 0 0) ch 0) as [pw|].
    + destruct (moveWindowToFront_children owner fuel pw ch) as [ch1|] eqn:E1; [|done].
      intros y Hy. eapply IHloop; [done|]. by eapply IHcall.
    + by injection H as <-.
Qed.

(** In the sequence the function leaves, a popup of [window] other than
    [window] itself stands behind every occurrence of [window]. *)
Lemma popup_behind_window fuel window ch ch' i j p :
  moveWindowToFront_children owner fuel window ch = Some ch' →
  ch' !! i = Some p → owner p = Some window → p ≠ window →
  ch' !! j = Some window → j < i.
Proof.
  intros H Hi Hown Hne Hj.
  destruct fuel as [|fuel]; [done|]. rewrite moveWindowToFront_children_S in H.
  pose proof (offender_loop_None owner _ _ _ _ (sort_loop_exit _ _ _ _ H) i p Hi Hown) as Hi'.
  pose proof (baseIndex_loop_ge window ch' 0 0 j Hj) as Hj'.
  destruct (decide (i = j)) as [->|]; [congruence|]. lia.
Qed.

End StackingResult.

(** *** Termination when the popup ownership is well founded *)

Section StackingTermination.

Variable owner : wid → option wid.
Variable rank : wid → nat.
Hypothesis owner_ranked : ∀ p w, owner p = Some w → rank p < rank w.

Lemma keeps_refl r ch : keeps rank r ch ch.
Proof. intros W pre post _ -> Hpre Hpost. by exists pre, post. Qed.

Lemma keeps_trans r ch1 ch2 ch3 :
  keeps rank r ch1 ch2 → keeps rank r ch2 ch3 → keeps rank r ch1 ch3.
Proof.
  intros H12 H23 W pre post Hr Hch Hpre Hpost.
  destruct (H12 W pre post Hr Hch Hpre Hpost) as (pre2 & post2 & E2 & Hpre2 & Hpost2 & Hlen2).
  destruct (H23 W pre2 post2 Hr E2 Hpre2 Hpost2) as (pre3 & post3 & E3 & Hpre3 & Hpost3 & Hlen3).
  exists pre3, post3. repeat split; try done. lia.
Qed.

Lemma moves_keeps x r ch ch' : rank x ≤ r → moves rank x ch ch' → keeps rank r ch ch'.
Proof.
  intros Hr H W pre post HW Hch Hpre Hpost.
  destruct (H W pre post ltac:(lia) Hch Hpre Hpost) as (pre' & post' & ? & ? & ? & ? & _).
  by exists pre', post'.
Qed.

Lemma erase_push_moves x ch : moves rank x ch (erase_push x ch).
Proof.
  intros W pre post Hr -> Hpre Hpost.
  assert (W ≠ x) as Hne by (intros ->; lia).
  exists (filter (λ c, c ≠ x) pre), (filter (λ c, c ≠ x) post ++ [x]).
  unfold erase_push. rewrite filter_app, filter_cons_True by done.
  split; [by rewrite <- app_assoc|].
  split; [rewrite list_elem_of_filter; tauto|].
  split.
  { rewrite not_elem_of_app, list_elem_of_filter, list_elem_of_singleton. tauto. }
  split; [apply length_filter|].
  intros Hx. apply (length_filter_lt _ _ x); [done|]. tauto.
Qed.

Lemma moves_then_keeps x ch1 ch2 ch3 :
  moves rank x ch1 ch2 → keeps rank (rank x) ch2 ch3 → moves rank x ch1 ch3.
Proof.
  intros H12 H23 W pre post Hr Hch Hpre Hpost.
  destruct (H12 W pre post Hr Hch Hpre Hpost)
    as (pre2 & post2 & E2 & Hpre2 & Hpost2 & Hlen2 & Hlt2).
  destruct (H23 W pre2 post2 Hr E2 Hpre2 Hpost2) as (pre3 & post3 & E3 & Hpre3 & Hpost3 & Hlen3).
  exists pre3, post3. repeat split; try done; [lia|].
  intros Hx. specialize (Hlt2 Hx). lia.
Qed.

(** The [do .. while] loop for [x], given that the calls it makes (for
    popups, which rank below [x]) return: each round takes one child from
    before [x]. *)
Lemma sort_loop_terminates x :
  (∀ pw, rank pw < rank x → ∀ ch, ∃ fuel0 ch',
       (∀ fuel, fuel0 ≤ fuel → moveWindowToFront_children owner fuel pw ch = Some ch')
       ∧ moves rank pw ch ch') →
  ∀ m pre post, length pre ≤ m → x ∉ pre → x ∉ post →
    ∃ fuel0 ch',
      (∀ fuel, fuel0 ≤ fuel → sort_loop owner fuel x (pre ++ x :: post) = Some ch')
      ∧ keeps rank (rank x) (pre ++ x :: post) ch'.
Proof.
  intros IHcalls. induction m as [|m IHm]; intros pre post Hlen Hpre Hpost.
  - exists 1, (pre ++ x :: post). split; [|apply keeps_refl].
    intros [|fuel] Hfuel; [lia|]. rewrite sort_loop_S.
    destruct (offender_loop owner x _ _ 0) as [pw|] eqn:E; [|done].
    apply offender_loop_Some in E as (k & _ & _ & Hk).
    rewrite (baseIndex_loop_last x pre post 0 0 Hpost) in Hk. lia.
  - destruct (offender_loop owner x (baseIndex_loop x (pre ++ x :: post) 0 0)
                            (pre ++ x :: post) 0) as [pw|] eqn:E.
    + pose proof E as E'.
      apply offender_loop_Some in E' as (k & Hk & Hown & Hlt).
      rewrite (baseIndex_loop_last x pre post 0 0 Hpost) in Hlt. simpl in Hlt.
      rewrite lookup_app_l in Hk by done.
      apply list_elem_of_lookup_2 in Hk.
      destruct (IHcalls pw (owner_ranked _ _ Hown) (pre ++ x :: post))
        as (fuel1 & ch1 & Hrun1 & Hmoves).
      destruct (Hmoves x pre post (owner_ranked _ _ Hown) eq_refl Hpre Hpost)
        as (pre1 & post1 & -> & Hpre1 & Hpost1 & _ & Hlt1).
      specialize (Hlt1 Hk).
      destruct (IHm pre1 post1 ltac:(lia) Hpre1 Hpost1) as (fuel2 & ch2 & Hrun2 & Hkeeps).
      exists (S (fuel1 `max` fuel2)), ch2. split.
      * intros [|fuel] Hfuel; [lia|]. rewrite sort_loop_S, E, Hrun1 by lia.
        apply Hrun2. lia.
      * eapply keeps_trans; [|exact Hkeeps].
        eapply moves_keeps; [|exact Hmoves]. specialize (owner_ranked _ _ Hown). lia.
    + exists 1, (pre ++ x :: post). split; [|apply keeps_refl].
      intros [|fuel] Hfuel; [lia|]. by rewrite sort_loop_S, E.
Qed.

(** Every call returns, given fuel enough; by induction on the rank. *)
Lemma moveWindowToFront_children_terminates n :
  ∀ x, rank x < n → ∀ ch, ∃ fuel0 ch',
    (∀ fuel, fuel0 ≤ fuel → moveWindowToFront_children owner fuel x ch = Some ch')
    ∧ moves rank x ch ch'.
Proof.
  induction n as [|n IHn]; intros x Hx ch; [lia|].
  assert (x ∉ filter (λ c, c ≠ x) ch) as Hpre
    by (rewrite list_elem_of_filter; tauto).
  destruct (sort_loop_terminates x (λ pw Hpw, IHn pw ltac:(lia))
              (length (filter (λ c, c ≠ x) ch)) (filter (λ c, c ≠ x) ch) []
              (le_n _) Hpre (not_elem_of_nil x))
    as (fuel0 & ch' & Hrun & Hkeeps).
  exists (S fuel0), ch'. split.
  - intros [|fuel] Hfuel; [lia|]. rewrite moveWindowToFront_children_S.
    apply Hrun. lia.
  - eapply moves_then_keeps; [apply erase_push_moves | exact Hkeeps].
Qed.

End StackingTermination.

(** ** Running the operations *)

(** Two Screens are equal when their members are. *)
Lemma Screen_eq (a b : Screen) :
  this a = this b → heap a = heap b → mCursor a = mCursor b →
  mFocusPath a = mFocusPath b → mFBSize a = mFBSize b → mPixelRatio a = mPixelRatio b →
  mMouseState a = mMouseState b → mModifiers a = mModifiers b →
  mMousePos a = mMousePos b → mDragActive a = mDragActive b →
  mDragWidget a = mDragWidget b → mLastInteraction a = mLastInteraction b →
  events a = events b → a = b.
Proof. destruct a, b. simpl. by intros -> -> -> -> -> -> -> -> -> -> -> -> ->. Qed.

Ltac screen_simpl :=
  cbn [this heap mCursor mFocusPath mFBSize mPixelRatio mMouseState mModifiers
       mMousePos mDragActive mDragWidget mLastInteraction events
       set_heap set_mCursor set_mFocusPath set_mFBSize set_mMouseState
       set_mModifiers set_mMousePos set_mDragActive set_mDragWidget
       set_mLastInteraction set_events] in *.

Ltac screen_eq :=
  apply Screen_eq;
  cbn [this heap mCursor mFocusPath mFBSize mPixelRatio mMouseState mModifiers
       mMousePos mDragActive mDragWidget mLastInteraction events
       set_heap set_mCursor set_mFocusPath set_mFBSize set_mMouseState
       set_mModifiers set_mMousePos set_mDragActive set_mDragWidget
       set_mLastInteraction set_events];
  try reflexivity.

Ltac unfold_M :=
  unfold mbind, mret, M_bind, M_ret, get_state, modify, deref, deref_opt,
    store, emit, fault in *.

Lemma moveWindowToFront_run fuel window st :
  moveWindowToFront fuel window st
  = match heap st !! this st with
    | Some scr =>
        match moveWindowToFront_children (child_owner (heap st)) fuel window
                                         (mChildren scr) with
        | Some ch => Some (tt, set_heap (<[this st := set_children ch scr]> (heap st)) st)
        | None => None
        end
    | None => None
    end.
Proof.
  unfold moveWindowToFront. unfold_M.
  destruct (heap st !! this st) as [scr|]; [|done].
  by destruct (moveWindowToFront_children _ fuel window (mChildren scr)).
Qed.

Lemma child_owner_set_children h w wd ch c :
  h !! w = Some wd →
  child_owner (<[w := set_children ch wd]> h) c = child_owner h c.
Proof.
  intros Hw. unfold child_owner.
  destruct (decide (w = c)) as [->|Hne].
  - by rewrite lookup_insert_eq, Hw.
  - by rewrite lookup_insert_ne.
Qed.

Lemma ranked_child_owner rank h p w :
  ranked rank h → child_owner h p = Some w → rank p < rank w.
Proof.
  intros Hr Ho. unfold child_owner in Ho.
  destruct (h !! p) as [wd|] eqn:Hp; [|done]. simpl in Ho.
  specialize (Hr p wd Hp). unfold owner_below in Hr. by rewrite Ho in Hr.
Qed.

(** ** Window stacking *)

Lemma moveWindowToFront_post fuel win st st' :
  moveWindowToFront fuel win st = Some (tt, st') →
  (∃ scr', heap st' !! this st' = Some scr' ∧ win ∈ mChildren scr')
  ∧ other_popups_behind win st'.
Proof.
  rewrite moveWindowToFront_run. intros H.
  destruct (heap st !! this st) as [scr|] eqn:Hscr; [|done].
  destruct (moveWindowToFront_children _ fuel win (mChildren scr)) as [ch|] eqn:Hch; [|done].
  injection H as <-. simpl. split.
  - exists (set_children ch scr). rewrite lookup_insert_eq. split; [done|].
    by apply (stacking_keeps_members _ fuel) in Hch as [? _].
  - intros scr' i j p Hscr' Hi Hown Hne Hj. simpl in *.
    rewrite lookup_insert_eq in Hscr'. injection Hscr' as <-. simpl in *.
    rewrite child_owner_set_children in Hown by done.
    by eapply popup_behind_window.
Qed.

Lemma moveWindowToFront_returns rank win st :
  is_Some (heap st !! this st) → ranked rank (heap st) →
  ∃ fuel0 ch scr,
    heap st !! this st = Some scr
    ∧ ∀ fuel, fuel0 ≤ fuel →
        moveWindowToFront fuel win st
        = Some (tt, set_heap (<[this st := set_children ch scr]> (heap st)) st).
Proof.
  intros [scr Hscr] Hr.
  destruct (moveWindowToFront_children_terminates (child_owner (heap st)) rank
              (λ p w, ranked_child_owner rank (heap st) p w Hr)
              (S (rank win)) win (Nat.lt_succ_diag_r _) (mChildren scr))
    as (fuel0 & ch & Hrun & _).
  exists fuel0, ch, scr. split; [done|]. intros fuel Hfuel.
  by rewrite moveWindowToFront_run, Hscr, (Hrun fuel Hfuel).
Qed.

(** [moveWindowToFront] changes no widget's parent window. *)
Lemma moveWindowToFront_child_owner fuel win st st' c :
  moveWindowToFront fuel win st = Some (tt, st') →
  child_owner (heap st') c = child_owner (heap st) c.
Proof.
  rewrite moveWindowToFront_run. intros H.
  destruct (heap st !! this st) as [scr|] eqn:Hscr; [|done].
  destruct (moveWindowToFront_children _ fuel win (mChildren scr)) as [ch|]; [|done].
  injection H as <-. screen_simpl. by apply child_owner_set_children.
Qed.

(** C6.  After [moveWindowToFront(win)] has returned, [win] is among the
    Screen's children, and every popup among them whose parent window is
    [win] has an index strictly above the index of [win]: this holds of
    the popups other than [win] in every case, and of all the popups of
    [win] as soon as [win] is not its own parent window. *)
Theorem moveWindowToFront_popups_behind fuel win st st' :
  moveWindowToFront fuel win st = Some (tt, st') →
  (∃ scr', heap st' !! this st' = Some scr' ∧ win ∈ mChildren scr')
  ∧ other_popups_behind win st'
  ∧ (child_owner (heap st) win ≠ Some win → popups_behind win st').
Proof.
  intros H. destruct (moveWindowToFront_post fuel win st st' H) as [Hin Hbehind].
  split; [exact Hin|]. split; [exact Hbehind|].
  intros Hself scr i j p Hscr Hi Hown Hj.
  apply (Hbehind scr i j p Hscr Hi Hown); [|exact Hj].
  intros ->. apply Hself.
  by rewrite <- (moveWindowToFront_child_owner fuel win st st' win H).
Qed.

Lemma moveWindowToFront_popups_behind_witness :
  (∃ scr', heap (state_after (moveWindowToFront 5 1) popup_scene)
             !! this (state_after (moveWindowToFront 5 1) popup_scene) = Some scr'
           ∧ 1 ∈ mChildren scr')
  ∧ other_popups_behind 1 (state_after (moveWindowToFront 5 1) popup_scene)
  ∧ popups_behind 1 (state_after (moveWindowToFront 5 1) popup_scene).
Proof.
  destruct (moveWindowToFront_popups_behind 5 1 popup_scene
              (state_after (moveWindowToFront 5 1) popup_scene))
    as (Hin & Hother & Hall); [vm_compute; reflexivity|].
  split; [exact Hin|]. split; [exact Hother|].
  apply Hall. vm_compute. discriminate.
Defined.

(** C7, as amended.  [moveWindowToFront(win)] returns, with one and the
    same result for every amount of fuel from some amount on, whenever
    the Screen is allocated and the popup ownership is well founded: some
    rank puts every popup strictly below its parent window. *)
Theorem moveWindowToFront_terminates rank win st :
  is_Some (heap st !! this st) → ranked rank (heap st) →
  ∃ fuel0 st', ∀ fuel, fuel0 ≤ fuel → moveWindowToFront fuel win st = Some (tt, st').
Proof.
  intros Hthis Hr.
  destruct (moveWindowToFront_returns rank win st Hthis Hr) as (fuel0 & ch & scr & _ & H).
  eauto.
Qed.

Lemma moveWindowToFront_terminates_witness :
  ∃ fuel0 st', ∀ fuel, fuel0 ≤ fuel →
    moveWindowToFront fuel 1 popup_scene = Some (tt, st').
Proof.
  apply (moveWindowToFront_terminates popup_rank 1 popup_scene).
  - vm_compute. eexists. reflexivity.
  - by apply (bool_decide_unpack _).
Defined.

Lemma cyclic_popups_no_result (owner : wid → option wid) :
  owner 1 = Some 2 → owner 2 = Some 1 →
  ∀ n fuel, fuel ≤ n →
    moveWindowToFront_children owner fuel 1 [2; 1] = None
    ∧ moveWindowToFront_children owner fuel 1 [1; 2] = None
    ∧ moveWindowToFront_children owner fuel 2 [2; 1] = None
    ∧ moveWindowToFront_children owner fuel 2 [1; 2] = None.
Proof.
  intros H1 H2. induction n as [|n IH]; intros fuel Hfuel.
  - by replace fuel with 0 by lia.
  - destruct fuel as [|[|fuel]]; [done|done|].
    destruct (IH fuel ltac:(lia)) as (E1 & E2 & E3 & E4).
    rewrite !moveWindowToFront_children_S, !sort_loop_S.
    unfold erase_push; simpl. rewrite H1, H2. simpl.
    by rewrite ?E1, ?E2, ?E3, ?E4.
Qed.

(** C7, as stated, fails where two popups are each the parent window of
    the other: no amount of fuel lets the call return. *)
Lemma moveWindowToFront_cyclic_popups_diverges :
  ¬ ∃ fuel st', moveWindowToFront fuel 1 cyclic_scene = Some (tt, st').
Proof.
  intros (fuel & st' & H). rewrite moveWindowToFront_run in H.
  change (heap cyclic_scene !! this cyclic_scene) with
    (Some (node None [2; 1] (0, 0)%Z (800, 600)%Z PlainWidget ignores)) in H.
  simpl in H.
  destruct (cyclic_popups_no_result (child_owner cyclic_heap) eq_refl eq_refl fuel fuel
              (le_n _)) as (E & _).
  unfold cyclic_scene, screen_of in H. simpl in H. by rewrite E in H.
Qed.

(** ** Focus *)

Lemma set_events_set_heap_id st :
  set_events (events st ++ []) (set_heap (heap st) st) = st.
Proof. destruct st. unfold set_events, set_heap. simpl. by rewrite app_nil_r. Qed.

Lemma set_focused_id wd : set_focused (focused wd) wd = wd.
Proof. by destruct wd. Qed.

Lemma focusEvent_run w b st :
  focusEvent w b st
  = match heap st !! w with
    | Some wd =>
        Some (tt, set_events (events st ++ [EvFocus w b])
                    (set_heap (<[w := set_focused b wd]> (heap st)) st))
    | None => None
    end.
Proof. unfold focusEvent. unfold_M. by destruct (heap st !! w). Qed.

Lemma notify_focus_lost_run w wd st :
  heap st !! w = Some wd →
  notify_focus_lost w st
  = Some (tt, set_events (events st ++ (if focused wd then [EvFocus w false] else []))
                (set_heap (<[w := set_focused false wd]> (heap st)) st)).
Proof.
  intros Hw. unfold notify_focus_lost.
  unfold mbind at 1, M_bind at 1, deref at 1. rewrite Hw.
  destruct (focused wd) eqn:Hf.
  - by rewrite focusEvent_run, Hw.
  - rewrite <- Hf, set_focused_id, insert_id by done.
    by rewrite set_events_set_heap_id.
Qed.

(** Notifications change focus flags only. *)
Lemma shape_insert_focused h w wd b :
  h !! w = Some wd → shape (<[w := set_focused b wd]> h) = shape h.
Proof.
  intros Hw. unfold shape. rewrite fmap_insert.
  apply insert_id. by rewrite lookup_fmap, Hw.
Qed.

Lemma shape_lookup h h' w wd :
  shape h = shape h' → h !! w = Some wd →
  ∃ wd', h' !! w = Some wd' ∧ set_focused false wd' = set_focused false wd.
Proof.
  intros Hs Hw. assert (shape h !! w = shape h' !! w) as E by by rewrite Hs.
  unfold shape in E. rewrite !lookup_fmap, Hw in E.
  destruct (h' !! w) as [wd'|]; [|done].
  exists wd'. split; [done|]. simpl in E. congruence.
Qed.

Lemma shape_is_Some h h' w : shape h = shape h' → is_Some (h !! w) → is_Some (h' !! w).
Proof. intros Hs [wd Hw]. destruct (shape_lookup h h' w wd Hs Hw) as (wd' & -> & _). eauto. Qed.

Lemma shape_ancestor_chain h h' widget chain :
  shape h = shape h' → ancestor_chain h widget chain → ancestor_chain h' widget chain.
Proof.
  intros Hs. induction 1 as [|w wd l Hw _ IH]; [constructor|].
  destruct (shape_lookup h h' w wd Hs Hw) as (wd' & Hw' & E).
  apply (chain_step h' w wd' l Hw').
  by replace (parent wd') with (parent wd) by exact (f_equal parent (eq_sym E)).
Qed.

Lemma shape_ranked rank h h' : shape h = shape h' → ranked rank h' → ranked rank h.
Proof.
  intros Hs Hr p wd Hp.
  destruct (shape_lookup h h' p wd Hs Hp) as (wd' & Hp' & E).
  specialize (Hr p wd' Hp'). unfold owner_below, popup_parent in *.
  by replace (role wd) with (role wd') by exact (f_equal role E).
Qed.

Lemma count_event_app e l1 l2 :
  count_event e (l1 ++ l2) = count_event e l1 + count_event e l2.
Proof. unfold count_event. by rewrite filter_app, length_app. Qed.

Lemma count_event_singleton e e' :
  count_event e [e'] = if decide (e' = e) then 1 else 0.
Proof.
  unfold count_event. rewrite filter_cons, filter_nil.
  by destruct (decide (e' = e)).
Qed.

Lemma focused_in_insert_eq h w wd : focused_in (<[w := wd]> h) w = focused wd.
Proof. unfold focused_in. by rewrite lookup_insert_eq. Qed.

Lemma focused_in_insert_ne h w wd x : w ≠ x → focused_in (<[w := wd]> h) x = focused_in h x.
Proof. intros. unfold focused_in. by rewrite lookup_insert_ne. Qed.

(** The first loop of [updateFocus]: each widget of the path that reports
    itself focused is notified once, the others are not. *)
Lemma focus_lost_loop_run path :
  ∀ st, Forall (λ w, is_Some (heap st !! w)) path →
    ∃ h1 lost,
      for_each path notify_focus_lost st
      = Some (tt, set_events (events st ++ lost) (set_heap h1 st))
      ∧ shape h1 = shape (heap st)
      ∧ (∀ e, e ∈ lost → ∃ w, e = EvFocus w false)
      ∧ (∀ w, count_event (EvFocus w false) lost
              = if bool_decide (w ∈ path) && focused_in (heap st) w then 1 else 0).
Proof.
  induction path as [|w rest IH]; intros st Hall.
  - exists (heap st), []. simpl. unfold mret, M_ret. rewrite set_events_set_heap_id.
    repeat split; try done.
    intros e He. by apply elem_of_nil in He.
  - apply Forall_cons in Hall as [[wd Hw] Hrest].
    set (st_a := set_events (events st ++ (if focused wd then [EvFocus w false] else []))
                   (set_heap (<[w := set_focused false wd]> (heap st)) st)).
    assert (Forall (λ x, is_Some (heap st_a !! x)) rest) as Hrest_a.
    { eapply Forall_impl; [exact Hrest|]. intros x Hx. simpl.
      eapply shape_is_Some; [|exact Hx]. symmetry. by apply shape_insert_focused. }
    destruct (IH st_a Hrest_a) as (h1 & lost & Hrun & Hshape & Honly & Hcount).
    exists h1, ((if focused wd then [EvFocus w false] else []) ++ lost).
    split; [|split; [|split]].
    + simpl. unfold mbind, M_bind. rewrite (notify_focus_lost_run w wd st Hw).
      fold st_a. unfold mbind, M_bind in Hrun. rewrite Hrun. simpl.
      by rewrite app_assoc.
    + rewrite Hshape. simpl. by apply shape_insert_focused.
    + intros e [He|He]%elem_of_app; [|by apply Honly].
      destruct (focused wd); [|by apply elem_of_nil in He].
      apply list_elem_of_singleton in He. eauto.
    + intros x. rewrite count_event_app, Hcount. simpl.
      destruct (decide (x = w)) as [->|Hne].
      * rewrite focused_in_insert_eq. simpl. rewrite andb_false_r.
        rewrite bool_decide_eq_true_2 by (by left). simpl.
        unfold focused_in. rewrite Hw.
        destruct (focused wd); [|done].
        by rewrite count_event_singleton, decide_True.
      * rewrite focused_in_insert_ne by done.
        assert (count_event (EvFocus x false)
                  (if focused wd then [EvFocus w false] else []) = 0) as ->.
        { destruct (focused wd); [|done].
          rewrite count_event_singleton, decide_False; [done|]. congruence. }
        simpl. f_equal.
        destruct (bool_decide (x ∈ rest)) eqn:E.
        -- apply bool_decide_eq_true in E. symmetry.
           rewrite bool_decide_eq_true_2; [done|]. by right.
        -- apply bool_decide_eq_false in E. symmetry.
           rewrite bool_decide_eq_false_2; [done|].
           rewrite elem_of_cons. tauto.
Qed.

Lemma set_mFocusPath_app_nil st : set_mFocusPath (mFocusPath st ++ []) st = st.
Proof. destruct st. unfold set_mFocusPath. simpl. by rewrite app_nil_r. Qed.

(** The [while] loop of [updateFocus] appends the ancestor chain. *)
Lemma parent_walk_run h widget chain :
  ancestor_chain h widget chain →
  ∀ window, ∃ window',
    ∀ fuel st, length chain ≤ fuel → heap st = h →
      parent_walk fuel widget window st
      = Some (window', set_mFocusPath (mFocusPath st ++ chain) st).
Proof.
  induction 1 as [|w wd l Hw _ IH]; intros window.
  - exists window. intros fuel st _ _.
    destruct fuel; simpl; unfold mret, M_ret; by rewrite set_mFocusPath_app_nil.
  - destruct (IH (if is_window wd then Some w else window)) as [window' Hrun].
    exists window'. intros fuel st Hfuel Hh.
    destruct fuel as [|fuel]; [simpl in Hfuel; lia|].
    simpl. unfold_M. rewrite Hh, Hw.
    rewrite Hrun by (simpl in *; first [lia | done]).
    simpl. by rewrite <- app_assoc.
Qed.

Lemma ancestor_chain_allocated h widget chain :
  ancestor_chain h widget chain → Forall (λ w, is_Some (h !! w)) chain.
Proof. induction 1; constructor; eauto. Qed.

(** The last loop of [updateFocus]: each widget is notified in turn. *)
Lemma focus_gained_loop_run b l :
  ∀ st, Forall (λ w, is_Some (heap st !! w)) l →
    ∃ h',
      for_each l (λ w, focusEvent w b) st
      = Some (tt, set_events (events st ++ map (λ w, EvFocus w b) l) (set_heap h' st))
      ∧ shape h' = shape (heap st).
Proof.
  induction l as [|w rest IH]; intros st Hall.
  - exists (heap st). simpl. unfold mret, M_ret. by rewrite set_events_set_heap_id.
  - apply Forall_cons in Hall as [[wd Hw] Hrest].
    set (st_a := set_events (events st ++ [EvFocus w b])
                   (set_heap (<[w := set_focused b wd]> (heap st)) st)).
    assert (Forall (λ x, is_Some (heap st_a !! x)) rest) as Hrest_a.
    { eapply Forall_impl; [exact Hrest|]. intros x Hx. simpl.
      eapply shape_is_Some; [|exact Hx]. symmetry. by apply shape_insert_focused. }
    destruct (IH st_a Hrest_a) as (h' & Hrun & Hshape).
    exists h'. split.
    + simpl. unfold mbind, M_bind. rewrite focusEvent_run, Hw. fold st_a.
      unfold mbind, M_bind in Hrun. rewrite Hrun. simpl. by rewrite <- app_assoc.
    + rewrite Hshape. simpl. by apply shape_insert_focused.
Qed.

(** [updateFocus(nullptr)]: the focus is cleared; the heap changes in
    focus flags only and nothing else of the Screen changes. *)
Lemma updateFocus_None_run fuel st :
  Forall (λ w, is_Some (heap st !! w)) (mFocusPath st) →
  ∃ h1 lost,
    updateFocus fuel None st
    = Some (tt, set_events (events st ++ lost) (set_mFocusPath [] (set_heap h1 st)))
    ∧ shape h1 = shape (heap st).
Proof.
  intros Hall.
  destruct (focus_lost_loop_run _ st Hall) as (h1 & lost & Hlost & Hshape & _).
  exists h1, lost. split; [|done].
  unfold updateFocus. unfold_M. rewrite Hlost.
  by destruct fuel.
Qed.

Lemma updateFocus_returns rank widget chain st :
  Forall (λ w, is_Some (heap st !! w)) (mFocusPath st) →
  ancestor_chain (heap st) widget chain →
  is_Some (heap st !! this st) → ranked rank (heap st) →
  ∃ fuel0 h' lost,
    (∀ fuel, fuel0 ≤ fuel →
       updateFocus fuel widget st
       = Some (tt, set_events (events st ++ lost ++ map (λ w, EvFocus w true) (rev chain))
                     (set_mFocusPath chain (set_heap h' st))))
    ∧ (∀ e, e ∈ lost → ∃ w, e = EvFocus w false)
    ∧ (∀ w, count_event (EvFocus w false) lost
            = if bool_decide (w ∈ mFocusPath st) && focused_in (heap st) w then 1 else 0).
Proof.
  intros Hall Hchain Hthis Hrank.
  destruct (focus_lost_loop_run _ st Hall) as (h1 & lost & Hlost & Hshape1 & Honly & Hcount).
  assert (ancestor_chain h1 widget chain) as Hchain1
    by (eapply shape_ancestor_chain; [|exact Hchain]; done).
  destruct (parent_walk_run h1 widget chain Hchain1 None) as [window Hwalk].
  set (st2 := set_mFocusPath chain
                (set_mFocusPath [] (set_events (events st ++ lost) (set_heap h1 st)))).
  assert (Forall (λ w, is_Some (heap st2 !! w)) (rev chain)) as Hall2.
  { apply Forall_rev. exact (ancestor_chain_allocated _ _ _ Hchain1). }
  destruct (focus_gained_loop_run true _ st2 Hall2) as (h3 & Hgained & Hshape3).
  simpl in Hshape3.
  set (st3 := set_events (events st2 ++ map (λ w, EvFocus w true) (rev chain))
                (set_heap h3 st2)).
  assert (∀ fuel, length chain ≤ fuel →
            updateFocus fuel widget st
            = match window with
              | Some w => moveWindowToFront fuel w st3
              | None => Some (tt, st3)
              end) as Hprefix.
  { intros fuel Hfuel. unfold updateFocus. unfold_M. rewrite Hlost.
    rewrite Hwalk by first [exact Hfuel | reflexivity]. simpl.
    fold st2. rewrite Hgained. fold st3. by destruct window. }
  destruct window as [win|].
  - assert (is_Some (heap st3 !! this st3)) as Hthis3.
    { change (is_Some (h3 !! this st)).
      eapply shape_is_Some; [|exact Hthis]. by rewrite Hshape3, Hshape1. }
    assert (ranked rank (heap st3)) as Hrank3.
    { change (ranked rank h3).
      eapply shape_ranked; [|exact Hrank]. by rewrite Hshape3, Hshape1. }
    destruct (moveWindowToFront_returns rank win st3 Hthis3 Hrank3)
      as (fuel1 & ch & scr & _ & Hmove).
    exists (length chain `max` fuel1), (<[this st := set_children ch scr]> h3), lost.
    split; [|done]. intros fuel Hfuel.
    assert (length chain ≤ fuel) as Hfuel0 by lia.
    assert (fuel1 ≤ fuel) as Hfuel1 by lia.
    rewrite (Hprefix fuel Hfuel0).
    rewrite (Hmove fuel Hfuel1).
    do 2 f_equal. unfold st3, st2. screen_eq.
    by rewrite <- app_assoc.
  - exists (length chain), h3, lost. split; [|done]. intros fuel Hfuel.
    rewrite (Hprefix fuel Hfuel).
    do 2 f_equal. unfold st3, st2. screen_eq.
    by rewrite <- app_assoc.
Qed.

(** C1, as amended.  For a widget [w] of the tree (or none), with the
    popup ownership well founded so that the final [moveWindowToFront]
    returns: [updateFocus(w)] returns and leaves as [mFocusPath] the
    ancestor chain of [w] from [w] to the root, leaf first; every widget
    of the former path that reported itself focused has received exactly
    one focus-lost notification (whether or not it is in the new path) and
    no other widget has received any; then the widgets of the new path
    have received focus-gained notifications in root-to-leaf order. *)
Theorem updateFocus_focus_path rank widget chain st :
  Forall (λ w, is_Some (heap st !! w)) (mFocusPath st) →
  ancestor_chain (heap st) widget chain →
  is_Some (heap st !! this st) → ranked rank (heap st) →
  ∃ fuel0 st',
    (∀ fuel, fuel0 ≤ fuel → updateFocus fuel widget st = Some (tt, st'))
    ∧ mFocusPath st' = chain
    ∧ ∃ lost,
        events st' = events st ++ lost ++ map (λ w, EvFocus w true) (rev chain)
        ∧ (∀ e, e ∈ lost → ∃ w, e = EvFocus w false)
        ∧ (∀ w, count_event (EvFocus w false) lost
                = if bool_decide (w ∈ mFocusPath st) && focused_in (heap st) w
                  then 1 else 0).
Proof.
  intros Hall Hchain Hthis Hrank.
  destruct (updateFocus_returns rank widget chain st Hall Hchain Hthis Hrank)
    as (fuel0 & h' & lost & Hrun & Honly & Hcount).
  eexists fuel0, _. split; [exact Hrun|]. split; [done|].
  exists lost. by repeat split.
Qed.

Lemma updateFocus_focus_path_witness :
  ∃ fuel0 st',
    (∀ fuel, fuel0 ≤ fuel → updateFocus fuel (Some 3) stale_focus_scene = Some (tt, st'))
    ∧ mFocusPath st' = [3; 0]
    ∧ ∃ lost,
        events st' = events stale_focus_scene ++ lost
                     ++ map (λ w, EvFocus w true) (rev [3; 0])
        ∧ (∀ e, e ∈ lost → ∃ w, e = EvFocus w false)
        ∧ (∀ w, count_event (EvFocus w false) lost
                = if bool_decide (w ∈ mFocusPath stale_focus_scene)
                     && focused_in (heap stale_focus_scene) w
                  then 1 else 0).
Proof.
  apply (updateFocus_focus_path popup_rank (Some 3) [3; 0] stale_focus_scene).
  - repeat constructor; vm_compute; eexists; reflexivity.
  - eapply chain_step; [vm_compute; reflexivity|]. simpl.
    eapply chain_step; [vm_compute; reflexivity|]. simpl. constructor.
  - vm_compute. eexists. reflexivity.
  - by apply (bool_decide_unpack _).
Defined.

(** C1, as stated, fails for a widget of the former path that does not
    report itself focused: the loop skips it, it is not notified at all.
    The focus goes from the button 2 in window 1, which does not report
    itself focused, to the popup 3; the new path is the ancestor chain of
    the popup, and the button, which has left the path, has received no
    focus-lost notification. *)
Lemma updateFocus_skips_unfocused :
  ancestor_chain (heap stale_focus_scene) (Some 3) [3; 0]
  ∧ is_Some (updateFocus 5 (Some 3) stale_focus_scene)
  ∧ mFocusPath (state_after (updateFocus 5 (Some 3)) stale_focus_scene) = [3; 0]
  ∧ 2 ∈ mFocusPath stale_focus_scene
  ∧ count_event (EvFocus 2 false)
      (events_since stale_focus_scene
         (state_after (updateFocus 5 (Some 3)) stale_focus_scene)) = 0
  ∧ ¬ focus_lost_once stale_focus_scene
        (state_after (updateFocus 5 (Some 3)) stale_focus_scene).
Proof.
  assert (mFocusPath (state_after (updateFocus 5 (Some 3)) stale_focus_scene) = [3; 0]) as E
    by (vm_compute; reflexivity).
  split.
  { eapply chain_step; [vm_compute; reflexivity|]. simpl.
    eapply chain_step; [vm_compute; reflexivity|]. simpl. constructor. }
  split; [vm_compute; eexists; reflexivity|].
  split; [exact E|].
  split; [by left|].
  split; [vm_compute; reflexivity|].
  intros H. specialize (H 2). rewrite E in H.
  assert (2 ∉ [3; 0]) as Hout.
  { intros Hin. apply elem_of_cons in Hin as [Hin|Hin]; [discriminate|].
    apply elem_of_cons in Hin as [Hin|Hin]; [discriminate|].
    by apply elem_of_nil in Hin. }
  specialize (H ltac:(by left) Hout).
  vm_compute in H. discriminate.
Qed.

(** ** Keyboard *)

Lemma set_events_app_nil st : set_events (events st ++ []) st = st.
Proof. destruct st. unfold set_events. simpl. by rewrite app_nil_r. Qed.

(** The delivery loop offers the event to the focused widgets in turn,
    through the first that takes it, and answers whether one did. *)
Lemma deliver_loop_run ev handled l :
  ∀ st, Forall (λ w, is_Some (heap st !! w)) l →
    deliver_loop ev handled l st
    = Some (existsb (handled_by (heap st) handled) (List.filter (focused_in (heap st)) l),
            set_events
              (events st
               ++ map ev (take_through (handled_by (heap st) handled)
                                       (List.filter (focused_in (heap st)) l)))
              st).
Proof.
  induction l as [|w rest IH]; intros st Hall.
  - simpl. unfold mret, M_ret. by rewrite set_events_app_nil.
  - apply Forall_cons in Hall as [[wd Hw] Hrest].
    assert (focused_in (heap st) w = focused wd) as Ef
      by (unfold focused_in; by rewrite Hw).
    assert (handled_by (heap st) handled w = handled wd) as Eh
      by (unfold handled_by; by rewrite Hw).
    cbn [deliver_loop List.filter]. rewrite Ef.
    unfold mbind at 1, M_bind at 1, deref at 1. rewrite Hw.
    destruct (focused wd).
    + cbn [take_through existsb]. rewrite Eh.
      unfold mbind at 1, M_bind at 1, emit, modify.
      destruct (handled wd); [done|].
      rewrite IH by exact Hrest.
      cbn [orb map]. do 2 f_equal. screen_eq. by rewrite <- app_assoc.
    + by rewrite IH.
Qed.

Lemma existsb_take_through {A} (p : A → bool) l :
  existsb p (take_through p l) = existsb p l.
Proof.
  induction l as [|x rest IH]; [done|]. simpl.
  destruct (p x); [done|]. by rewrite IH.
Qed.

Lemma Forall_rbegin_plus_1 (P : wid → Prop) path :
  Forall P path → Forall P (rbegin_plus_1 path).
Proof. intros H. unfold rbegin_plus_1. by apply Forall_tail, Forall_rev. Qed.

Lemma keyboardEvent_run key scancode action modifiers st :
  Forall (λ w, is_Some (heap st !! w)) (mFocusPath st) →
  let handled := λ wd, keyboardEvent_h (handlers wd) key scancode action modifiers in
  keyboardEvent key scancode action modifiers st
  = Some (existsb (handled_by (heap st) handled) (key_targets handled st),
          set_events (events st ++ map (λ w, EvKeyboard w key scancode action modifiers)
                                       (key_targets handled st)) st).
Proof.
  intros Hall handled. unfold keyboardEvent, key_targets. unfold_M.
  rewrite existsb_take_through.
  destruct (mFocusPath st) as [|w path] eqn:E.
  - simpl. by rewrite set_events_app_nil.
  - rewrite bool_decide_eq_true_2 by (simpl; lia).
    rewrite deliver_loop_run; [done|]. by apply Forall_rbegin_plus_1.
Qed.

Lemma keyboardCharacterEvent_run codepoint st :
  Forall (λ w, is_Some (heap st !! w)) (mFocusPath st) →
  let handled := λ wd, keyboardCharacterEvent_h (handlers wd) codepoint in
  keyboardCharacterEvent codepoint st
  = Some (existsb (handled_by (heap st) handled) (key_targets handled st),
          set_events (events st ++ map (λ w, EvKeyboardCharacter w codepoint)
                                       (key_targets handled st)) st).
Proof.
  intros Hall handled. unfold keyboardCharacterEvent, key_targets. unfold_M.
  rewrite existsb_take_through.
  destruct (mFocusPath st) as [|w path] eqn:E.
  - simpl. by rewrite set_events_app_nil.
  - rewrite bool_decide_eq_true_2 by (simpl; lia).
    rewrite deliver_loop_run; [done|]. by apply Forall_rbegin_plus_1.
Qed.

(** C2, as amended.  A key or a character callback offers the event to
    the focused widgets of the focus path in the order of the reverse
    iterator, from the last but one entry of [mFocusPath] (the widget
    just below the Screen) to the first (the leaf), leaving out the last
    entry (the Screen), and stops at the first widget that consumes it;
    it returns true if and only if a widget it was offered to consumed
    it.  With an empty path nothing is offered and the answer is false. *)
Theorem key_char_callbacks_delivery env key scancode action mods codepoint st :
  Forall (λ w, is_Some (heap st !! w)) (mFocusPath st) →
  let on_key := λ wd, keyboardEvent_h (handlers wd) key scancode action mods in
  let on_char := λ wd, keyboardCharacterEvent_h (handlers wd) codepoint in
  keyCallbackEvent env key scancode action mods st
  = Some (existsb (handled_by (heap st) on_key) (key_targets on_key st),
          set_events (events st ++ map (λ w, EvKeyboard w key scancode action mods)
                                       (key_targets on_key st))
                     (set_mLastInteraction (ngGetTime env) st))
  ∧ charCallbackEvent env codepoint st
    = Some (existsb (handled_by (heap st) on_char) (key_targets on_char st),
            set_events (events st ++ map (λ w, EvKeyboardCharacter w codepoint)
                                         (key_targets on_char st))
                       (set_mLastInteraction (ngGetTime env) st)).
Proof.
  intros Hall on_key on_char. split.
  - unfold keyCallbackEvent. unfold mbind, M_bind, modify.
    by rewrite keyboardEvent_run.
  - unfold charCallbackEvent. unfold mbind, M_bind, modify.
    by rewrite keyboardCharacterEvent_run.
Qed.

Lemma key_char_callbacks_delivery_witness :
  keyCallbackEvent backend 65 0 NG_PRESS 0 keyboard_scene
  = Some (true, set_events [EvKeyboard 1 65 0 NG_PRESS 0]
                           (set_mLastInteraction 42 keyboard_scene))
  ∧ charCallbackEvent backend 97 keyboard_scene
    = Some (true, set_events [EvKeyboardCharacter 1 97]
                             (set_mLastInteraction 42 keyboard_scene)).
Proof.
  apply (key_char_callbacks_delivery backend 65 0 NG_PRESS 0 97 keyboard_scene).
  repeat constructor; vm_compute; eexists; reflexivity.
Defined.

(** C2, as stated, fails where two widgets of the path would consume the
    key: the window just below the Screen gets it and consumes it, the
    leaf, first in leaf-outward order, is never offered it. *)
Lemma keyCallbackEvent_outermost_first :
  events_since keyboard_scene
    (state_after (keyCallbackEvent backend 65 0 NG_PRESS 0) keyboard_scene)
  = [EvKeyboard 1 65 0 NG_PRESS 0]
  ∧ map (λ w, EvKeyboard w 65 0 NG_PRESS 0)
        (key_targets_leaf_outward (λ wd, keyboardEvent_h (handlers wd) 65 0 NG_PRESS 0)
                                  keyboard_scene)
    = [EvKeyboard 2 65 0 NG_PRESS 0]
  ∧ events_since keyboard_scene
      (state_after (keyCallbackEvent backend 65 0 NG_PRESS 0) keyboard_scene)
    ≠ map (λ w, EvKeyboard w 65 0 NG_PRESS 0)
          (key_targets_leaf_outward (λ wd, keyboardEvent_h (handlers wd) 65 0 NG_PRESS 0)
                                    keyboard_scene).
Proof.
  split; [by vm_compute|]. split; [by vm_compute|].
  vm_compute. discriminate.
Qed.

(** ** Modality *)

Lemma modal_window_blocks_run st M wd :
  modal_window_below_top st M wd →
  modal_window_blocks st = Some (negb (contains wd (mMousePos st)), st).
Proof.
  intros (Hlen & HM & Hwd & Hmodal).
  unfold modal_window_blocks. unfold_M.
  rewrite bool_decide_eq_true_2 by done.
  by rewrite HM, Hwd, Hmodal.
Qed.

(** What a button or scroll callback does when the modal window blocks
    it: it returns false, having stored the time (and, for a button, the
    modifiers), and nothing else. *)
Lemma blocked_callbacks_run env fuel button action modifiers x y st M wd :
  modal_window_below_top st M wd →
  contains wd (mMousePos st) = false →
  mouseButtonCallbackEvent env fuel button action modifiers st
  = Some (false, set_mLastInteraction (ngGetTime env) (set_mModifiers modifiers st))
  ∧ scrollCallbackEvent env fuel x y st
    = Some (false, set_mLastInteraction (ngGetTime env) st).
Proof.
  intros Hmodal Hout. split.
  - unfold mouseButtonCallbackEvent. unfold mbind, M_bind, modify.
    rewrite (modal_window_blocks_run _ M wd) by exact Hmodal.
    simpl. by rewrite Hout.
  - unfold scrollCallbackEvent. unfold mbind, M_bind, modify.
    rewrite (modal_window_blocks_run _ M wd) by exact Hmodal.
    simpl. by rewrite Hout.
Qed.

(** C3.  Whenever the second-from-top entry of [mFocusPath] is a modal
    window [M] and the mouse position lies outside the bounds of [M], a
    mouse-button callback and a scroll callback return false, deliver no
    event to any widget (the log is as before) and leave [mMouseState]
    and [mFocusPath] unchanged. *)
Theorem modal_window_suppresses env fuel button action modifiers x y st M wd :
  modal_window_below_top st M wd →
  contains wd (mMousePos st) = false →
  (∃ st', mouseButtonCallbackEvent env fuel button action modifiers st = Some (false, st')
          ∧ events st' = events st
          ∧ mMouseState st' = mMouseState st
          ∧ mFocusPath st' = mFocusPath st)
  ∧ (∃ st', scrollCallbackEvent env fuel x y st = Some (false, st')
            ∧ events st' = events st
            ∧ mMouseState st' = mMouseState st
            ∧ mFocusPath st' = mFocusPath st).
Proof.
  intros Hmodal Hout.
  destruct (blocked_callbacks_run env fuel button action modifiers x y st M wd Hmodal Hout)
    as [Hbutton Hscroll].
  split; eexists; (split; [eassumption|done]).
Qed.

Lemma modal_window_suppresses_witness :
  (∃ st', mouseButtonCallbackEvent backend 5 NG_MOUSE_BUTTON_1 NG_PRESS 0 modal_scene
          = Some (false, st')
          ∧ events st' = events modal_scene
          ∧ mMouseState st' = mMouseState modal_scene
          ∧ mFocusPath st' = mFocusPath modal_scene)
  ∧ (∃ st', scrollCallbackEvent backend 5 0 1 modal_scene = Some (false, st')
            ∧ events st' = events modal_scene
            ∧ mMouseState st' = mMouseState modal_scene
            ∧ mFocusPath st' = mFocusPath modal_scene).
Proof.
  apply (modal_window_suppresses backend 5 NG_MOUSE_BUTTON_1 NG_PRESS 0 0 1
                                 modal_scene 1 modal_window).
  - repeat split; [simpl; lia | reflexivity..].
  - reflexivity.
Defined.

(** C10.  The button callback stores the modifiers and the current time
    before the modality check, the scroll callback the current time: an
    event that the modal window suppresses returns false and leaves a
    Screen whose [mModifiers] is the argument of the callback (button;
    unchanged for a scroll) and whose [mLastInteraction] is the time the
    backend reports, and which is as it was in everything else. *)
Theorem suppressed_event_still_recorded env fuel button action modifiers x y st M wd :
  modal_window_below_top st M wd →
  contains wd (mMousePos st) = false →
  (∃ st', mouseButtonCallbackEvent env fuel button action modifiers st = Some (false, st')
          ∧ mModifiers st' = modifiers
          ∧ mLastInteraction st' = ngGetTime env
          ∧ same_but_modifiers_and_time st st')
  ∧ (∃ st', scrollCallbackEvent env fuel x y st = Some (false, st')
            ∧ mModifiers st' = mModifiers st
            ∧ mLastInteraction st' = ngGetTime env
            ∧ same_but_modifiers_and_time st st').
Proof.
  intros Hmodal Hout.
  destruct (blocked_callbacks_run env fuel button action modifiers x y st M wd Hmodal Hout)
    as [Hbutton Hscroll].
  split; eexists; (split; [eassumption|]); by repeat split.
Qed.

Lemma suppressed_event_still_recorded_witness :
  (∃ st', mouseButtonCallbackEvent backend 5 NG_MOUSE_BUTTON_1 NG_PRESS 4 modal_scene
          = Some (false, st')
          ∧ mModifiers st' = 4%Z
          ∧ mLastInteraction st' = 42%Z
          ∧ same_but_modifiers_and_time modal_scene st')
  ∧ (∃ st', scrollCallbackEvent backend 5 0 1 modal_scene = Some (false, st')
            ∧ mModifiers st' = mModifiers modal_scene
            ∧ mLastInteraction st' = 42%Z
            ∧ same_but_modifiers_and_time modal_scene st').
Proof.
  apply (suppressed_event_still_recorded backend 5 NG_MOUSE_BUTTON_1 NG_PRESS 4 0 1
                                         modal_scene 1 modal_window).
  - repeat split; [simpl; lia | reflexivity..].
  - reflexivity.
Defined.

(** ** Hit testing *)

Lemma shape_lookup_None h h' w : shape h = shape h' → h !! w = None → h' !! w = None.
Proof.
  intros Hs Hw. assert (shape h !! w = shape h' !! w) as E by by rewrite Hs.
  unfold shape in E. rewrite !lookup_fmap, Hw in E.
  by destruct (h' !! w).
Qed.

(** Hit testing does not look at focus flags. *)
Lemma findWidget_node_shape fuel :
  ∀ h h' w p, shape h = shape h' →
    findWidget_node fuel h w p = findWidget_node fuel h' w p.
Proof.
  induction fuel as [|fuel IH]; intros h h' w p Hs; [done|].
  simpl. destruct (h !! w) as [wd|] eqn:Hw.
  - destruct (shape_lookup h h' w wd Hs Hw) as (wd' & -> & E).
    destruct wd as [par ch pos sz vis en foc cur rl hs].
    destruct wd' as [par' ch' pos' sz' vis' en' foc' cur' rl' hs'].
    unfold set_focused in E. simpl in E. injection E as -> -> -> -> -> -> -> -> ->.
    unfold contains. simpl.
    destruct (vis && _); [|done].
    induction (rev ch) as [|c rest IHrest]; [done|].
    rewrite (IH h h' c _ Hs). by rewrite IHrest.
  - by rewrite (shape_lookup_None h h' w Hs Hw).
Qed.

(** Hit testing finds allocated widgets only. *)
Lemma findWidget_node_allocated fuel :
  ∀ h w p d, findWidget_node fuel h w p = Some (Some d) → is_Some (h !! d).
Proof.
  induction fuel as [|fuel IH]; intros h w p d H; [done|].
  simpl in H. destruct (h !! w) as [wd|] eqn:Hw; [|done].
  destruct (mVisible wd && contains wd p); [|done].
  revert H. induction (rev (mChildren wd)) as [|c rest IHrest]; intros H.
  - injection H as <-. eauto.
  - destruct (findWidget_node fuel h c (vsub p (position wd))) as [[d'|]|] eqn:E.
    + injection H as <-. by eapply IH.
    + by apply IHrest.
    + done.
Qed.

Lemma findWidget_run fuel p st hit :
  findWidget_node fuel (heap st) (this st) p = Some hit →
  findWidget fuel p st = Some (hit, st).
Proof. intros H. unfold findWidget. by rewrite H. Qed.

(** ** Drag capture *)

Lemma frame_refl st : frame st st.
Proof. repeat split; try done; [by left|]. exists []. by rewrite app_nil_r. Qed.

Lemma frame_trans st1 st2 st3 : frame st1 st2 → frame st2 st3 → frame st1 st3.
Proof.
  intros (Ht & Hm & Hmod & Hs & Hp & evs & He) (Ht' & Hm' & Hmod' & Hs' & Hp' & evs' & He').
  repeat split; try congruence.
  - destruct Hp' as [Hp'|Hp']; [rewrite Hp'; exact Hp | by right].
  - exists (evs ++ evs'). by rewrite He', He, app_assoc.
Qed.

Lemma frame_intro st st' evs :
  this st' = this st → mMousePos st' = mMousePos st → mModifiers st' = mModifiers st →
  shape (heap st') = shape (heap st) →
  mFocusPath st' = mFocusPath st ∨ mFocusPath st' = [] →
  events st' = events st ++ evs → frame st st'.
Proof. intros. repeat split; try done. by exists evs. Qed.

Lemma frame_drag st b w : frame st (set_mDragActive b (set_mDragWidget w st)).
Proof. apply (frame_intro _ _ []); try done; [by left|]. cbn. by rewrite app_nil_r. Qed.

Lemma frame_set_events st evs : frame st (set_events (events st ++ evs) st).
Proof. repeat split; try done; [by left|]. by exists evs. Qed.

Lemma release_drag_widget_run fuel button action dropWidget st W wdW pw a :
  mDragWidget st = Some W → heap st !! W = Some wdW → parent wdW = Some pw →
  absolutePosition_node fuel (heap st) pw = Some a →
  release_drag_widget fuel button action dropWidget st
  = Some (tt, set_events
                (events st
                 ++ (if mDragActive st && bool_decide (action = NG_RELEASE)
                        && bool_decide (dropWidget ≠ Some W)
                     then [EvMouseButton W (vsub (mMousePos st) a) button false
                                         (mModifiers st)]
                     else []))
                st).
Proof.
  intros HW HwdW Hpw Ha. unfold release_drag_widget. unfold_M. rewrite HW.
  destruct (mDragActive st && bool_decide (action = NG_RELEASE)
            && bool_decide (dropWidget ≠ Some W)).
  - rewrite HwdW. simpl. unfold parent_absolutePosition. rewrite Hpw.
    unfold absolutePosition. by rewrite Ha.
  - by rewrite set_events_app_nil.
Qed.

Lemma update_cursor_run hit st :
  (∀ d, hit = Some d → is_Some (heap st !! d)) →
  ∃ st', update_cursor hit st = Some (tt, st')
         ∧ frame st st' ∧ keeps_drag st st'
         ∧ heap st' = heap st ∧ mFocusPath st' = mFocusPath st.
Proof.
  intros Halloc. destruct hit as [d|]; simpl.
  - destruct (Halloc d eq_refl) as [wd Hd]. unfold_M. rewrite Hd.
    destruct (bool_decide (cursor wd ≠ mCursor st)).
    + eexists. split; [reflexivity|]. split; [|done].
      repeat split; try done; [by left|]. by eexists.
    + eexists. split; [reflexivity|]. split; [apply frame_refl | done].
  - eexists. split; [reflexivity|]. split; [apply frame_refl | done].
Qed.

Lemma is_drag_press_eq button action :
  bool_decide (action = NG_PRESS)
  && (bool_decide (button = NG_MOUSE_BUTTON_1) || bool_decide (button = NG_MOUSE_BUTTON_2))
  = is_drag_press button action.
Proof. reflexivity. Qed.

Lemma update_drag_run fuel button action st hit :
  findWidget_node fuel (heap st) (this st) (mMousePos st) = Some hit →
  Forall (λ w, is_Some (heap st !! w)) (mFocusPath st) →
  ∃ st', update_drag fuel button action st = Some (tt, st')
         ∧ frame st st'
         ∧ if is_drag_press button action && captures st hit
           then mDragActive st' = true ∧ mDragWidget st' = hit
           else mDragActive st' = false ∧ mDragWidget st' = None.
Proof.
  intros Hhit Hall. unfold update_drag. rewrite is_drag_press_eq.
  destruct (is_drag_press button action); simpl.
  - unfold_M. rewrite (findWidget_run _ _ _ _ Hhit).
    destruct hit as [x|]; simpl.
    + destruct (decide (x = this st)) as [->|Hne].
      * rewrite (bool_decide_eq_true_2 (Some (this st) = Some (this st))) by done.
        rewrite (bool_decide_eq_false_2 (this st ≠ this st)) by (intros ?; done).
        rewrite (bool_decide_eq_false_2 (None ≠ None)) by (intros ?; done).
        match goal with |- context [updateFocus fuel None ?s] =>
          destruct (updateFocus_None_run fuel s Hall) as (h1 & lost & -> & Hshape) end.
        eexists. split; [reflexivity|]. split; [|done].
        repeat split; try done; [by right|]. simpl. by eexists.
      * rewrite (bool_decide_eq_false_2 (Some x = Some (this st))) by congruence.
        rewrite (bool_decide_eq_true_2 (Some x ≠ None)) by done.
        rewrite (bool_decide_eq_true_2 (x ≠ this st)) by done.
        eexists. split; [reflexivity|]. split; [|done]. apply frame_drag.
    + match goal with |- context [updateFocus fuel None ?s] =>
        destruct (updateFocus_None_run fuel s Hall) as (h1 & lost & -> & Hshape) end.
      eexists. split; [reflexivity|]. split; [|done].
      repeat split; try done; [by right|]. simpl. by eexists.
  - unfold_M. eexists. split; [reflexivity|]. split; [|done].
    apply (frame_intro _ _ []); try done; [by left|]. cbn. by rewrite app_nil_r.
Qed.

Lemma Widget_mouseButtonEvent_run fuel p button down modifiers st hit :
  findWidget_node fuel (heap st) (this st) p = Some hit →
  ∃ r st', Widget_mouseButtonEvent fuel p button down modifiers st = Some (r, st')
           ∧ frame st st' ∧ keeps_drag st st'.
Proof.
  intros Hhit. unfold Widget_mouseButtonEvent.
  unfold mbind at 1, M_bind at 1. rewrite (findWidget_run _ _ _ _ Hhit).
  destruct hit as [w|].
  - destruct (findWidget_node_allocated _ _ _ _ _ Hhit) as [wd Hw].
    unfold_M. rewrite Hw. eexists _, _. split; [reflexivity|].
    split; [apply frame_set_events | done].
  - eexists _, _. split; [reflexivity|]. split; [apply frame_refl | done].
Qed.

(** The modality check reads the focus path, the heap and the mouse
    position only. *)
Lemma modal_window_blocks_ext b st s :
  modal_window_blocks st = Some (b, st) →
  mFocusPath s = mFocusPath st → heap s = heap st → mMousePos s = mMousePos st →
  modal_window_blocks s = Some (b, s).
Proof.
  unfold modal_window_blocks. unfold_M. intros H E1 E2 E3. rewrite E1, E3.
  destruct (bool_decide (1 < length (mFocusPath st))); [|by simplify_eq].
  destruct (mFocusPath st !! _) as [w|]; [|done].
  cbv beta in *. rewrite E2.
  destruct (heap st !! w) as [wd|]; [|done].
  destruct (window_modal wd) as [[|]|]; by simplify_eq.
Qed.

Lemma update_mouse_state_run button action st :
  ∃ ms, update_mouse_state button action st = Some (tt, set_mMouseState ms st).
Proof. unfold update_mouse_state. destruct (bool_decide _); by eexists. Qed.

Lemma drag_step env fuel button action modifiers st W wdW pw a hit :
  mDragActive st = true → mDragWidget st = Some W →
  heap st !! W = Some wdW → parent wdW = Some pw →
  absolutePosition_node fuel (heap st) pw = Some a →
  Forall (λ w, is_Some (heap st !! w)) (mFocusPath st) →
  modal_window_blocks st = Some (false, st) →
  findWidget_node fuel (heap st) (this st) (mMousePos st) = Some hit →
  ∃ r st',
    mouseButtonCallbackEvent env fuel button action modifiers st = Some (r, st')
    ∧ (if is_drag_press button action && captures st hit
       then mDragActive st' = true ∧ mDragWidget st' = hit
       else mDragActive st' = false ∧ mDragWidget st' = None)
    ∧ (action = NG_RELEASE → hit ≠ Some W →
       ∃ rest, events st'
               = events st
                 ++ EvMouseButton W (vsub (mMousePos st) a) button false modifiers :: rest).
Proof.
  intros Hactive HW HwdW Hpw Ha Hall Hpass Hhit.
  unfold mouseButtonCallbackEvent.
  unfold mbind at 1, M_bind at 1, modify at 1.
  unfold mbind at 1, M_bind at 1, modify at 1.
  unfold mbind at 1, M_bind at 1.
  set (st1 := set_mLastInteraction (ngGetTime env) (set_mModifiers modifiers st)).
  rewrite (modal_window_blocks_ext false st st1 Hpass eq_refl eq_refl eq_refl).
  unfold mbind at 1, M_bind at 1.
  destruct (update_mouse_state_run button action st1) as [ms ->].
  set (st2 := set_mMouseState ms st1).
  unfold mbind at 1, M_bind at 1, get_state at 1.
  unfold mbind at 1, M_bind at 1.
  rewrite (findWidget_run fuel (mMousePos st2) st2 hit Hhit).
  unfold mbind at 1, M_bind at 1.
  rewrite (release_drag_widget_run fuel button action hit st2 W wdW pw a HW HwdW Hpw Ha).
  set (evs3 := if mDragActive st2 && bool_decide (action = NG_RELEASE)
                  && bool_decide (hit ≠ Some W)
               then [EvMouseButton W (vsub (mMousePos st2) a) button false (mModifiers st2)]
               else []).
  set (st3 := set_events (events st2 ++ evs3) st2).
  unfold mbind at 1, M_bind at 1.
  destruct (update_cursor_run hit st3) as (st4 & -> & Hf34 & _ & Hheap4 & Hpath4).
  { intros d ->. exact (findWidget_node_allocated _ _ _ _ _ Hhit). }
  destruct Hf34 as (Ht4 & Hm4 & Hmod4 & _ & _ & evs4 & He4).
  unfold mbind at 1, M_bind at 1.
  destruct (update_drag_run fuel button action st4 hit) as (st5 & -> & Hf45 & Hdrag).
  { rewrite Hheap4, Ht4, Hm4. exact Hhit. }
  { rewrite Hheap4, Hpath4. exact Hall. }
  destruct Hf45 as (Ht5 & Hm5 & Hmod5 & Hs5 & _ & evs5 & He5).
  unfold mbind at 1, M_bind at 1, get_state at 1.
  destruct (Widget_mouseButtonEvent_run fuel (mMousePos st5) button
              (bool_decide (action = NG_PRESS)) (mModifiers st5) st5 hit)
    as (r & st6 & -> & Hf56 & Hd56a & Hd56w).
  { rewrite (findWidget_node_shape fuel (heap st5) (heap st4)) by exact Hs5.
    rewrite Ht5, Hm5, Hheap4, Ht4, Hm4. exact Hhit. }
  exists r, st6. split; [done|]. split.
  - rewrite Hd56a, Hd56w.
    replace (captures st hit) with (captures st4 hit); [exact Hdrag|].
    unfold captures. by rewrite Ht4.
  - intros Hrel Hne. destruct Hf56 as (_ & _ & _ & _ & _ & evs6 & He6).
    exists (evs4 ++ evs5 ++ evs6). rewrite He6, He5, He4.
    change (events st3) with (events st ++ evs3).
    assert (evs3 = [EvMouseButton W (vsub (mMousePos st) a) button false modifiers]) as ->.
    { unfold evs3. change (mDragActive st2) with (mDragActive st). rewrite Hactive.
      by rewrite !bool_decide_eq_true_2. }
    by rewrite <- !app_assoc.
Qed.

(** C5, as amended.  While a drag has captured widget [W], a mouse-button
    callback that the modality check lets pass leaves the drag active
    exactly when it is a press of the first or second button that
    hit-tests to a widget other than the Screen, which is then the
    captured widget; every other event (the release of any button, the
    press of another button) ends the drag.  When a button is released
    and the widget hit-tested under the pointer differs from [W], a
    mouse-button event with pressed=false is delivered to [W] first. *)
Theorem drag_ends_or_recaptures env fuel button action modifiers st W wdW pw a hit :
  mDragActive st = true → mDragWidget st = Some W →
  heap st !! W = Some wdW → parent wdW = Some pw →
  absolutePosition_node fuel (heap st) pw = Some a →
  Forall (λ w, is_Some (heap st !! w)) (mFocusPath st) →
  modal_window_blocks st = Some (false, st) →
  findWidget_node fuel (heap st) (this st) (mMousePos st) = Some hit →
  ∃ r st',
    mouseButtonCallbackEvent env fuel button action modifiers st = Some (r, st')
    ∧ (if is_drag_press button action && captures st hit
       then mDragActive st' = true ∧ mDragWidget st' = hit
       else mDragActive st' = false ∧ mDragWidget st' = None)
    ∧ (action = NG_RELEASE → hit ≠ Some W →
       ∃ rest, events st'
               = events st
                 ++ EvMouseButton W (vsub (mMousePos st) a) button false modifiers :: rest).
Proof. apply drag_step. Qed.

Lemma drag_ends_or_recaptures_witness :
  ∃ r st',
    mouseButtonCallbackEvent backend 5 NG_MOUSE_BUTTON_1 NG_RELEASE 0
                             (drag_scene (5, 5)%Z 2) = Some (r, st')
    ∧ (if is_drag_press NG_MOUSE_BUTTON_1 NG_RELEASE
          && captures (drag_scene (5, 5)%Z 2) (Some 0)
       then mDragActive st' = true ∧ mDragWidget st' = Some 0
       else mDragActive st' = false ∧ mDragWidget st' = None)
    ∧ (NG_RELEASE = NG_RELEASE → Some 0 ≠ Some 2 →
       ∃ rest, events st'
               = events (drag_scene (5, 5)%Z 2)
                 ++ EvMouseButton 2 (vsub (mMousePos (drag_scene (5, 5)%Z 2)) (100, 100)%Z)
                                  NG_MOUSE_BUTTON_1 false 0 :: rest).
Proof.
  apply (drag_ends_or_recaptures backend 5 NG_MOUSE_BUTTON_1 NG_RELEASE 0
           (drag_scene (5, 5)%Z 2) 2 drag_button 1 (100, 100)%Z (Some 0)).
  - reflexivity.
  - reflexivity.
  - vm_compute. reflexivity.
  - reflexivity.
  - vm_compute. reflexivity.
  - repeat constructor; vm_compute; eexists; reflexivity.
  - vm_compute. reflexivity.
  - vm_compute. reflexivity.
Defined.

(** C5, as stated, fails: while the first button drags the button widget
    and the pointer is still over it, the press of the third mouse button
    ends the drag, though no button was released and the widget under the
    pointer is the captured one. *)
Lemma third_button_press_ends_drag :
  is_Some (mouseButtonCallbackEvent backend 5 NG_MOUSE_BUTTON_3 NG_PRESS 0
                                    (drag_scene (115, 115)%Z 2))
  ∧ findWidget_node 5 (heap (drag_scene (115, 115)%Z 2)) 0 (115, 115)%Z = Some (Some 2)
  ∧ ¬ idle_exactly_on_release_or_miss NG_MOUSE_BUTTON_1 NG_MOUSE_BUTTON_3 NG_PRESS 2 (Some 2)
        (state_after (mouseButtonCallbackEvent backend 5 NG_MOUSE_BUTTON_3 NG_PRESS 0)
                     (drag_scene (115, 115)%Z 2)).
Proof.
  split; [vm_compute; eexists; reflexivity|].
  split; [vm_compute; reflexivity|].
  intros [Hidle _].
  assert (mDragActive
            (state_after (mouseButtonCallbackEvent backend 5 NG_MOUSE_BUTTON_3 NG_PRESS 0)
                         (drag_scene (115, 115)%Z 2)) = false) as E
    by (vm_compute; reflexivity).
  destruct (Hidle E) as [[Hrel _] | Hmiss]; [discriminate | by apply Hmiss].
Qed.

(** ** Resize *)

Local Open Scope Z_scope.

(** A window size of (0, 0) is rejected: the handler returns false and
    changes nothing. *)
Lemma resizeCallbackEvent_zero_window env st :
  ngGetWindowSize env = (0, 0) → resizeCallbackEvent env st = Some (false, st).
Proof.
  intros Hsize. unfold resizeCallbackEvent. unfold_M. rewrite Hsize.
  assert ((if win32_or_linux env then vquot (0, 0) (mPixelRatio st) else (0, 0)) = (0, 0))
    as -> by (by destruct (win32_or_linux env)).
  rewrite (bool_decide_eq_true_2 ((0, 0) = (0, 0))) by done.
  by rewrite orb_true_r.
Qed.

(** C4 fails on the code.  The backend reports a framebuffer of (0, 0)
    while the window is 800 by 600 and the cached framebuffer size is
    800 by 600: the test looks at the cached [mFBSize], not at the size
    just queried, so the handler goes on, overwrites [mFBSize] with
    (0, 0), stores the time and delivers the resize notification. *)
Theorem resizeCallbackEvent_zero_framebuffer_accepted :
  ngGetFramebufferSize zero_framebuffer_backend = (0, 0)
  ∧ mFBSize popup_scene = (800, 600)
  ∧ is_Some (resizeCallbackEvent zero_framebuffer_backend popup_scene)
  ∧ mFBSize (state_after (resizeCallbackEvent zero_framebuffer_backend) popup_scene)
    = (0, 0)
  ∧ mLastInteraction (state_after (resizeCallbackEvent zero_framebuffer_backend) popup_scene)
    = 42
  ∧ events (state_after (resizeCallbackEvent zero_framebuffer_backend) popup_scene)
    = [EvResize (800, 600)].
Proof. repeat split; try (vm_compute; reflexivity). vm_compute. eexists. reflexivity. Qed.

(** Once [mFBSize] is (0, 0), every later resize is rejected, whatever
    sizes the backend reports: the cached size is never refreshed. *)
Lemma resizeCallbackEvent_stuck env st :
  mFBSize st = (0, 0) → resizeCallbackEvent env st = Some (false, st).
Proof.
  intros Hfb. unfold resizeCallbackEvent. unfold_M. rewrite Hfb.
  by rewrite (bool_decide_eq_true_2 ((0, 0) = (0, 0))) by done.
Qed.

Local Close Scope Z_scope.

(** ** Disposal *)

(** Destruction takes records away and changes none. *)
Lemma destroy_lookup fuel :
  ∀ w h h' x wd, destroy fuel w h = Some h' → h' !! x = Some wd → h !! x = Some wd.
Proof.
  induction fuel as [|fuel IH]; intros w h h' x wd H Hx; [done|].
  simpl in H. destruct (h !! w) as [rec|]; [|done].
  revert h H. induction (mChildren rec) as [|c rest IHrest]; intros h H.
  - injection H as <-. by apply lookup_delete_Some in Hx as [_ ?].
  - destruct (destroy fuel c h) as [h1|] eqn:E; [|done].
    eapply IH; [exact E|]. by apply IHrest.
Qed.

Lemma removeChild_inv fuel w s s' :
  removeChild fuel w s = Some (tt, s') →
  mFocusPath s' = mFocusPath s ∧ mDragWidget s' = mDragWidget s ∧ this s' = this s
  ∧ ∀ scr, heap s' !! this s = Some scr → w ∉ mChildren scr.
Proof.
  unfold removeChild, delete_widget. unfold_M. intros H.
  destruct (heap s !! this s) as [scr|]; [|done].
  unfold modify in H. cbv beta iota in H. screen_simpl.
  destruct (destroy fuel w _) as [h|] eqn:Hdestroy; [|done].
  injection H as <-. screen_simpl. repeat split.
  intros scr' Hscr'.
  apply (destroy_lookup _ _ _ _ _ _ Hdestroy) in Hscr'.
  rewrite lookup_insert_eq in Hscr'. injection Hscr' as <-.
  cbn [mChildren set_children]. rewrite list_elem_of_filter. tauto.
Qed.

(** What [disposeWindow] does achieve: the window itself is no longer a
    child of the Screen, in the focus path or the drag widget. *)
Lemma disposeWindow_forgets_window fuel window st st' :
  disposeWindow fuel window st = Some (tt, st') →
  (∀ scr, heap st' !! this st' = Some scr → window ∉ mChildren scr)
  ∧ (window ∉ mFocusPath st')
  ∧ mDragWidget st' ≠ Some window.
Proof.
  unfold disposeWindow. unfold_M. intros H.
  destruct (bool_decide (window ∈ mFocusPath st)) eqn:E2;
    destruct (bool_decide (mDragWidget st = Some window)) eqn:E1;
    try apply bool_decide_eq_true in E1; try apply bool_decide_eq_false in E1;
    try apply bool_decide_eq_true in E2; try apply bool_decide_eq_false in E2;
    cbv beta iota in H;
    apply removeChild_inv in H as (Hpath & Hdrag & Hthis & Hchildren);
    screen_simpl; rewrite Hpath, Hdrag, Hthis;
    (split; [exact Hchildren|]); split;
    first [done | by apply not_elem_of_nil].
Qed.

Lemma ancestor_chain_functional h widget l1 l2 :
  ancestor_chain h widget l1 → ancestor_chain h widget l2 → l1 = l2.
Proof.
  intros H1. revert l2. induction H1 as [|w wd l Hw _ IH]; intros l2 H2.
  - by inversion H2.
  - inversion H2 as [|w' wd' l' Hw' Hrest]; subst.
    rewrite Hw in Hw'. injection Hw' as <-. f_equal. by apply IH.
Qed.

(** From each of its members on, an ancestor chain is the ancestor chain
    of that member. *)
Lemma ancestor_chain_suffix h widget l x :
  ancestor_chain h widget l → x ∈ l →
  ∃ l1 l2, l = l1 ++ l2 ∧ ancestor_chain h (Some x) l2.
Proof.
  induction 1 as [|w wd l Hw Hrest IH]; intros Hx; [by apply elem_of_nil in Hx|].
  apply elem_of_cons in Hx as [->|Hx].
  - exists [], (w :: l). split; [done|]. by eapply chain_step.
  - destruct (IH Hx) as (l1 & l2 & -> & Hchain). by exists (w :: l1), l2.
Qed.

(** The focus path is cleaned up as far as it is an ancestor chain: it
    then holds a widget of the window's subtree only together with the
    window, and is cleared. *)
Lemma disposeWindow_cleans_focus_path fuel window st st' widget :
  ancestor_chain (heap st) widget (mFocusPath st) →
  disposeWindow fuel window st = Some (tt, st') →
  ∀ x, in_subtree (heap st) window x → x ∉ mFocusPath st'.
Proof.
  intros Hpath H x (chain & Hchain & Hwin) Hx.
  assert (mFocusPath st' = if bool_decide (window ∈ mFocusPath st) then []
                           else mFocusPath st) as E.
  { revert H. unfold disposeWindow. unfold_M.
    destruct (bool_decide (window ∈ mFocusPath st));
      destruct (bool_decide (mDragWidget st = Some window));
      cbv beta iota; intros H;
      by apply removeChild_inv in H as (-> & _). }
  rewrite E in Hx. destruct (bool_decide (window ∈ mFocusPath st)) eqn:Ew.
  - by apply elem_of_nil in Hx.
  - apply bool_decide_eq_false in Ew. apply Ew.
    destruct (ancestor_chain_suffix _ _ _ _ Hpath Hx) as (l1 & l2 & -> & Hchain').
    rewrite (ancestor_chain_functional _ _ _ _ Hchain' Hchain).
    apply elem_of_app. by right.
Qed.

(** C8 fails on the code.  The window is the captured widget of an active
    drag when it is disposed of: [mDragWidget] becomes null, [mDragActive]
    stays true, and the next cursor callback dereferences the null
    pointer. *)
Theorem disposeWindow_breaks_drag_invariant :
  drag_invariant (drag_scene (115, 115)%Z 1)
  ∧ is_Some (disposeWindow 5 1 (drag_scene (115, 115)%Z 1))
  ∧ mDragActive (state_after (disposeWindow 5 1) (drag_scene (115, 115)%Z 1)) = true
  ∧ mDragWidget (state_after (disposeWindow 5 1) (drag_scene (115, 115)%Z 1)) = None
  ∧ ¬ drag_invariant (state_after (disposeWindow 5 1) (drag_scene (115, 115)%Z 1))
  ∧ cursorPosCallbackEvent backend 5 200 200
      (state_after (disposeWindow 5 1) (drag_scene (115, 115)%Z 1)) = None.
Proof.
  split; [intros _; exists 1; split; [done|]; vm_compute; eexists; reflexivity|].
  split; [vm_compute; eexists; reflexivity|].
  split; [vm_compute; reflexivity|].
  split; [vm_compute; reflexivity|].
  split; [|vm_compute; reflexivity].
  intros Hinv. destruct Hinv as (w & Hw & _); [vm_compute; reflexivity|].
  vm_compute in Hw. discriminate.
Qed.

(** C9 fails on the code.  The button inside the window is the captured
    widget when the window is disposed of: the button is destroyed with
    the window, and [mDragWidget] still points to it. *)
Theorem disposeWindow_leaves_dangling_dragWidget :
  is_Some (disposeWindow 5 1 (drag_scene (115, 115)%Z 2))
  ∧ in_subtree (heap (drag_scene (115, 115)%Z 2)) 1 2
  ∧ mDragWidget (state_after (disposeWindow 5 1) (drag_scene (115, 115)%Z 2)) = Some 2
  ∧ heap (state_after (disposeWindow 5 1) (drag_scene (115, 115)%Z 2)) !! 2 = None
  ∧ ¬ no_reference_into (heap (drag_scene (115, 115)%Z 2)) 1
        (state_after (disposeWindow 5 1) (drag_scene (115, 115)%Z 2)).
Proof.
  assert (in_subtree (heap (drag_scene (115, 115)%Z 2)) 1 2) as Hsub.
  { exists [2; 1; 0]. split; [|by right; left].
    eapply chain_step; [vm_compute; reflexivity|]. cbn.
    eapply chain_step; [vm_compute; reflexivity|]. cbn.
    eapply chain_step; [vm_compute; reflexivity|]. cbn. constructor. }
  split; [vm_compute; eexists; reflexivity|].
  split; [exact Hsub|].
  split; [vm_compute; reflexivity|].
  split; [vm_compute; reflexivity|].
  intros [_ Hrefs]. destruct (Hrefs 2 Hsub) as [_ Hdrag].
  apply Hdrag. vm_compute. reflexivity.
Qed.

(** * Further properties *)

Local Open Scope nat_scope.

(** ** Window stacking: what becomes of the children *)

Section StackingMembers.

Variable owner : wid → option wid.

Lemma erase_push_elem_of window ch y :
  y ∈ erase_push window ch ↔ y = window ∨ y ∈ ch.
Proof.
  unfold erase_push. rewrite elem_of_app, list_elem_of_filter, list_elem_of_singleton.
  destruct (decide (y = window)); tauto.
Qed.

Lemma erase_push_NoDup window ch : NoDup ch → NoDup (erase_push window ch).
Proof.
  intros Hnd. unfold erase_push. apply NoDup_app. split; [by apply NoDup_filter|].
  split; [|apply NoDup_singleton].
  intros y Hy Hy'. apply list_elem_of_filter in Hy as [Hne _].
  by apply list_elem_of_singleton in Hy'.
Qed.

Lemma stacking_members fuel :
  (∀ window ch ch',
     moveWindowToFront_children owner fuel window ch = Some ch' →
     (∀ y, y ∈ ch' ↔ y = window ∨ y ∈ ch) ∧ (NoDup ch → NoDup ch'))
  ∧ (∀ window ch ch',
       sort_loop owner fuel window ch = Some ch' →
       (∀ y, y ∈ ch' ↔ y ∈ ch) ∧ (NoDup ch → NoDup ch')).
Proof.
  induction fuel as [|fuel [IHcall IHloop]]; [by split|].
  split; intros window ch ch' H.
  - rewrite moveWindowToFront_children_S in H.
    destruct (IHloop _ _ _ H) as [Hmem Hnd]. split.
    + intros y. by rewrite Hmem, erase_push_elem_of.
    + intros Hch. by apply Hnd, erase_push_NoDup.
  - rewrite sort_loop_S in H.
    destruct (offender_loop owner window (baseIndex_loop window ch 0 0) ch 0)
      as [pw|] eqn:E.
    + destruct (moveWindowToFront_children owner fuel pw ch) as [ch1|] eqn:E1; [|done].
      destruct (IHcall _ _ _ E1) as [Hmem1 Hnd1].
      destruct (IHloop _ _ _ H) as [Hmem Hnd].
      apply offender_loop_Some in E as (k & Hk & _ & _).
      apply list_elem_of_lookup_2 in Hk. split.
      * intros y. rewrite Hmem, Hmem1. split; [|tauto]. by intros [->|?].
      * intros Hch. by apply Hnd, Hnd1.
    + injection H as <-. by split.
Qed.

(** Without a popup of [window] among the other children, the function
    is the plain move to the end. *)
Lemma moveWindowToFront_children_no_popup fuel window ch :
  (∀ c, c ∈ ch → c ≠ window → owner c ≠ Some window) →
  moveWindowToFront_children owner (S (S fuel)) window ch = Some (erase_push window ch).
Proof.
  intros Hnone. rewrite moveWindowToFront_children_S, sort_loop_S.
  destruct (offender_loop owner window _ (erase_push window ch) 0) as [pw|] eqn:E; [|done].
  apply offender_loop_Some in E as (k & Hk & Hown & Hlt). exfalso.
  unfold erase_push in Hk, Hlt.
  rewrite (baseIndex_loop_last window _ [] 0 0 (not_elem_of_nil _)) in Hlt. simpl in Hlt.
  rewrite lookup_app_l in Hk by done.
  apply list_elem_of_lookup_2, list_elem_of_filter in Hk as [Hne Hin].
  by apply (Hnone pw).
Qed.

End StackingMembers.

(** X1.  [moveWindowToFront(win)] changes nothing but the order of the
    Screen's children: a widget is among them afterwards exactly when it
    was before or is [win], and no widget comes to stand there twice. *)
Theorem moveWindowToFront_reorders fuel win st st' :
  moveWindowToFront fuel win st = Some (tt, st') →
  ∃ scr ch',
    heap st !! this st = Some scr
    ∧ st' = set_heap (<[this st := set_children ch' scr]> (heap st)) st
    ∧ (∀ y, y ∈ ch' ↔ y = win ∨ y ∈ mChildren scr)
    ∧ (NoDup (mChildren scr) → NoDup ch').
Proof.
  rewrite moveWindowToFront_run. intros H.
  destruct (heap st !! this st) as [scr|]; [|done].
  destruct (moveWindowToFront_children _ fuel win (mChildren scr)) as [ch'|] eqn:Hch; [|done].
  injection H as <-. exists scr, ch'. split; [done|]. split; [done|].
  exact (proj1 (stacking_members (child_owner (heap st)) fuel) _ _ _ Hch).
Qed.

Lemma moveWindowToFront_reorders_witness :
  ∃ scr ch',
    heap popup_scene !! this popup_scene = Some scr
    ∧ state_after (moveWindowToFront 5 1) popup_scene
      = set_heap (<[this popup_scene := set_children ch' scr]> (heap popup_scene))
                 popup_scene
    ∧ (∀ y, y ∈ ch' ↔ y = 1 ∨ y ∈ mChildren scr)
    ∧ (NoDup (mChildren scr) → NoDup ch').
Proof.
  apply (moveWindowToFront_reorders 5 1 popup_scene). vm_compute. reflexivity.
Defined.

(** X2.  A window that is the parent window of no other child of the
    Screen ends up last in the child sequence, frontmost, and the other
    children keep their order; two units of fuel suffice. *)
Theorem moveWindowToFront_plain_window fuel win st scr :
  heap st !! this st = Some scr →
  (∀ c, c ∈ mChildren scr → c ≠ win → child_owner (heap st) c ≠ Some win) →
  moveWindowToFront (S (S fuel)) win st
  = Some (tt, set_heap (<[this st := set_children
                                       (filter (λ c, c ≠ win) (mChildren scr) ++ [win])
                                       scr]> (heap st)) st).
Proof.
  intros Hscr Hnone. rewrite moveWindowToFront_run, Hscr.
  by rewrite (moveWindowToFront_children_no_popup _ fuel win _ Hnone).
Qed.

Lemma moveWindowToFront_plain_window_witness :
  moveWindowToFront 2 1 two_windows_scene
  = Some (tt, set_heap
                (<[0 := set_children [2; 1]
                          (node None [1; 2] (0, 0)%Z (800, 600)%Z PlainWidget ignores)]>
                   two_windows_heap) two_windows_scene).
Proof.
  apply (moveWindowToFront_plain_window 0 1 two_windows_scene
           (node None [1; 2] (0, 0)%Z (800, 600)%Z PlainWidget ignores)).
  - reflexivity.
  - intros c Hc Hne Hown.
    apply elem_of_cons in Hc as [->|Hc]; [done|].
    apply list_elem_of_singleton in Hc as ->. vm_compute in Hown. discriminate.
Defined.

(** ** Focus: the flags the notifications leave *)

Lemma for_each_cons_inv (body : wid → M unit) w rest st st' :
  for_each (w :: rest) body st = Some (tt, st') →
  ∃ st1, body w st = Some (tt, st1) ∧ for_each rest body st1 = Some (tt, st').
Proof.
  cbn [for_each]. unfold mbind, M_bind. intros H.
  destruct (body w st) as [[[] st1]|]; [|done]. by exists st1.
Qed.

Lemma focus_lost_loop_flags path :
  ∀ st st', for_each path notify_focus_lost st = Some (tt, st') →
    (∀ w, w ∈ path → focused_in (heap st') w = false)
    ∧ (∀ w, w ∉ path → heap st' !! w = heap st !! w).
Proof.
  induction path as [|w rest IH]; intros st st' H.
  - injection H as <-. split; [|done]. intros w Hw. by apply elem_of_nil in Hw.
  - apply for_each_cons_inv in H as (st1 & Hhead & Hrest).
    destruct (heap st !! w) as [wd|] eqn:Hw.
    2:{ unfold notify_focus_lost in Hhead. unfold_M. by rewrite Hw in Hhead. }
    rewrite (notify_focus_lost_run w wd st Hw) in Hhead. injection Hhead as <-.
    destruct (IH _ _ Hrest) as [Hin Hout]. screen_simpl. split.
    + intros x Hx. destruct (decide (x ∈ rest)) as [Hr|Hr]; [by apply Hin|].
      apply elem_of_cons in Hx as [->|Hx]; [|done].
      unfold focused_in. by rewrite (Hout w Hr), lookup_insert_eq.
    + intros x Hx. apply not_elem_of_cons in Hx as [Hne Hx].
      by rewrite (Hout x Hx), lookup_insert_ne.
Qed.

Lemma focus_gained_loop_flags b l :
  ∀ st st', for_each l (λ w, focusEvent w b) st = Some (tt, st') →
    (∀ w, w ∈ l → focused_in (heap st') w = b)
    ∧ (∀ w, w ∉ l → heap st' !! w = heap st !! w).
Proof.
  induction l as [|w rest IH]; intros st st' H.
  - injection H as <-. split; [|done]. intros w Hw. by apply elem_of_nil in Hw.
  - apply for_each_cons_inv in H as (st1 & Hhead & Hrest).
    rewrite focusEvent_run in Hhead.
    destruct (heap st !! w) as [wd|] eqn:Hw; [|done]. injection Hhead as <-.
    destruct (IH _ _ Hrest) as [Hin Hout]. screen_simpl. split.
    + intros x Hx. destruct (decide (x ∈ rest)) as [Hr|Hr]; [by apply Hin|].
      apply elem_of_cons in Hx as [->|Hx]; [|done].
      unfold focused_in. by rewrite (Hout w Hr), lookup_insert_eq.
    + intros x Hx. apply not_elem_of_cons in Hx as [Hne Hx].
      by rewrite (Hout x Hx), lookup_insert_ne.
Qed.

Lemma outermost_window_cons h w wd l :
  h !! w = Some wd →
  outermost_window h (w :: l)
  = match outermost_window h l with
    | Some x => Some x
    | None => if is_window wd then Some w else None
    end.
Proof.
  intros Hw. unfold outermost_window. cbn [List.filter]. rewrite Hw.
  destruct (is_window wd); [by rewrite last_cons|]. by destruct (last _).
Qed.

(** The window the [while] loop of [updateFocus] ends with. *)
Lemma parent_walk_window h widget chain :
  ancestor_chain h widget chain →
  ∀ window fuel st, length chain ≤ fuel → heap st = h →
    parent_walk fuel widget window st
    = Some (match outermost_window h chain with Some x => Some x | None => window end,
            set_mFocusPath (mFocusPath st ++ chain) st).
Proof.
  induction 1 as [|w wd l Hw _ IH]; intros window fuel st Hfuel Hh.
  - destruct fuel; cbn [parent_walk]; unfold mret, M_ret;
      by rewrite set_mFocusPath_app_nil.
  - destruct fuel as [|fuel]; [simpl in Hfuel; lia|].
    cbn [parent_walk]. unfold_M. rewrite Hh, Hw.
    rewrite IH by (simpl in *; first [lia | done]).
    rewrite (outermost_window_cons h w wd l Hw).
    f_equal. f_equal.
    + by destruct (outermost_window h l), (is_window wd).
    + screen_eq. by rewrite <- app_assoc.
Qed.

Lemma outermost_window_shape h h' chain :
  shape h = shape h' → outermost_window h chain = outermost_window h' chain.
Proof.
  intros Hs. unfold outermost_window. f_equal.
  induction chain as [|w l IH]; [done|]. cbn [List.filter]. rewrite IH.
  destruct (h !! w) as [wd|] eqn:Hw.
  - destruct (shape_lookup h h' w wd Hs Hw) as (wd' & -> & E).
    pose proof (f_equal role E) as Er. cbn in Er. unfold is_window. by rewrite Er.
  - by rewrite (shape_lookup_None h h' w Hs Hw).
Qed.

Lemma elem_of_rev {A} (x : A) l : x ∈ rev l ↔ x ∈ l.
Proof. rewrite !list_elem_of_In. symmetry. apply in_rev. Qed.

Lemma focused_in_set_children h t scr ch w :
  h !! t = Some scr →
  focused_in (<[t := set_children ch scr]> h) w = focused_in h w.
Proof.
  intros Ht. unfold focused_in. destruct (decide (t = w)) as [->|Hne].
  - by rewrite lookup_insert_eq, Ht.
  - by rewrite lookup_insert_ne.
Qed.

(** [updateFocus(widget)] in full: the path, the focus flags, what stays
    of every widget, and the Screen's children. *)
Lemma updateFocus_full rank widget chain st :
  Forall (λ w, is_Some (heap st !! w)) (mFocusPath st) →
  ancestor_chain (heap st) widget chain →
  is_Some (heap st !! this st) → ranked rank (heap st) →
  ∃ fuel0 st',
    (∀ fuel, fuel0 ≤ fuel → updateFocus fuel widget st = Some (tt, st'))
    ∧ mFocusPath st' = chain ∧ this st' = this st
    ∧ (∀ w, w ∈ chain → focused_in (heap st') w = true)
    ∧ (∀ w, w ∈ mFocusPath st → w ∉ chain → focused_in (heap st') w = false)
    ∧ (∀ w wd, heap st !! w = Some wd →
         ∃ wd', heap st' !! w = Some wd' ∧ handlers wd' = handlers wd
                ∧ parent wd' = parent wd ∧ role wd' = role wd)
    ∧ match outermost_window (heap st) chain with
      | None =>
          ∀ scr, heap st !! this st = Some scr →
            ∃ scr', heap st' !! this st = Some scr' ∧ mChildren scr' = mChildren scr
      | Some win =>
          (∃ scr', heap st' !! this st = Some scr' ∧ win ∈ mChildren scr')
          ∧ other_popups_behind win st'
      end.
Proof.
  intros Hall Hchain Hthis Hrank.
  destruct (focus_lost_loop_run _ st Hall) as (h1 & lost & Hlost & Hshape1 & _).
  destruct (focus_lost_loop_flags _ _ _ Hlost) as [Hl_in _]. screen_simpl.
  assert (ancestor_chain h1 widget chain) as Hchain1
    by (eapply shape_ancestor_chain; [|exact Hchain]; done).
  pose proof (parent_walk_window h1 widget chain Hchain1 None) as Hwalk.
  set (st2 := set_mFocusPath chain
                (set_mFocusPath [] (set_events (events st ++ lost) (set_heap h1 st)))).
  assert (Forall (λ w, is_Some (heap st2 !! w)) (rev chain)) as Hall2.
  { apply Forall_rev. exact (ancestor_chain_allocated _ _ _ Hchain1). }
  destruct (focus_gained_loop_run true _ st2 Hall2) as (h3 & Hgained & Hshape3).
  destruct (focus_gained_loop_flags _ _ _ _ Hgained) as [Hg_in Hg_out].
  change (heap st2) with h1 in Hshape3, Hg_out. screen_simpl.
  set (st3 := set_events (events st2 ++ map (λ w, EvFocus w true) (rev chain))
                (set_heap h3 st2)).
  assert (shape h3 = shape (heap st)) as Hshape by (by rewrite Hshape3).
  rewrite (outermost_window_shape (heap st) h1 chain) by done.
  assert (∀ fuel, length chain ≤ fuel →
            updateFocus fuel widget st
            = match outermost_window h1 chain with
              | Some w => moveWindowToFront fuel w st3
              | None => Some (tt, st3)
              end) as Hprefix.
  { intros fuel Hfuel. unfold updateFocus. unfold_M. rewrite Hlost.
    rewrite Hwalk by first [exact Hfuel | reflexivity]. simpl.
    fold st2. rewrite Hgained. fold st3. by destruct (outermost_window h1 chain). }
  assert (∀ w, w ∈ chain → focused_in h3 w = true) as F1.
  { intros w Hw. apply Hg_in. by apply elem_of_rev. }
  assert (∀ w, w ∈ mFocusPath st → w ∉ chain → focused_in h3 w = false) as F2.
  { intros w Hw Hn. unfold focused_in. rewrite Hg_out by (by rewrite elem_of_rev).
    by apply Hl_in. }
  assert (∀ w wd, heap st !! w = Some wd →
            ∃ wd', h3 !! w = Some wd' ∧ set_focused false wd' = set_focused false wd)
    as F3.
  { intros w wd Hw. by apply (shape_lookup (heap st) h3). }
  destruct (outermost_window h1 chain) as [win|].
  - assert (is_Some (heap st3 !! this st3)) as Hthis3.
    { change (is_Some (h3 !! this st)). eapply shape_is_Some; [|exact Hthis]. done. }
    assert (ranked rank (heap st3)) as Hrank3.
    { change (ranked rank h3). eapply shape_ranked; [|exact Hrank]. done. }
    destruct (moveWindowToFront_returns rank win st3 Hthis3 Hrank3)
      as (fuel1 & ch & scr & Hscr & Hmove).
    change (heap st3 !! this st3) with (h3 !! this st) in Hscr.
    pose proof (moveWindowToFront_post _ _ _ _ (Hmove fuel1 (le_n _))) as Hpost.
    eexists (length chain `max` fuel1), _. split.
    { intros fuel Hfuel. rewrite Hprefix by lia. apply Hmove. lia. }
    split; [done|]. split; [done|]. screen_simpl.
    change (heap st3) with h3. change (this st3) with (this st).
    split. { intros w Hw. rewrite focused_in_set_children by done. by apply F1. }
    split. { intros w Hw Hn. rewrite focused_in_set_children by done. by apply F2. }
    split; [|exact Hpost].
    intros w wd Hw. destruct (F3 w wd Hw) as (wd' & Hw' & E).
    destruct (decide (this st = w)) as [<-|Hne].
    + exists (set_children ch scr). rewrite lookup_insert_eq. split; [done|].
      rewrite Hscr in Hw'. injection Hw' as <-.
      pose proof (f_equal handlers E). pose proof (f_equal parent E).
      pose proof (f_equal role E). by repeat split.
    + exists wd'. rewrite lookup_insert_ne by done. split; [done|].
      pose proof (f_equal handlers E). pose proof (f_equal parent E).
      pose proof (f_equal role E). by repeat split.
  - eexists (length chain), _. split; [exact Hprefix|].
    split; [done|]. split; [done|]. change (heap st3) with h3.
    split; [exact F1|]. split; [exact F2|]. split.
    + intros w wd Hw. destruct (F3 w wd Hw) as (wd' & Hw' & E). exists wd'.
      pose proof (f_equal handlers E). pose proof (f_equal parent E).
      pose proof (f_equal role E). by repeat split.
    + intros scr Hscr. destruct (F3 _ scr Hscr) as (scr' & Hscr' & E).
      exists scr'. split; [done|]. exact (f_equal mChildren E).
Qed.

(** X3.  After [updateFocus(w)] every widget of the new focus path
    reports itself focused, and every widget of the former path that is
    not in the new one reports itself not focused. *)
Theorem updateFocus_sets_flags rank widget chain st :
  Forall (λ w, is_Some (heap st !! w)) (mFocusPath st) →
  ancestor_chain (heap st) widget chain →
  is_Some (heap st !! this st) → ranked rank (heap st) →
  ∃ fuel0 st',
    (∀ fuel, fuel0 ≤ fuel → updateFocus fuel widget st = Some (tt, st'))
    ∧ (∀ w, w ∈ chain → focused_in (heap st') w = true)
    ∧ (∀ w, w ∈ mFocusPath st → w ∉ chain → focused_in (heap st') w = false).
Proof.
  intros Hall Hchain Hthis Hrank.
  destruct (updateFocus_full rank widget chain st Hall Hchain Hthis Hrank)
    as (fuel0 & st' & Hrun & _ & _ & Hin & Hout & _).
  by exists fuel0, st'.
Qed.

Lemma updateFocus_sets_flags_witness :
  ∃ fuel0 st',
    (∀ fuel, fuel0 ≤ fuel → updateFocus fuel (Some 3) stale_focus_scene = Some (tt, st'))
    ∧ (∀ w, w ∈ [3; 0] → focused_in (heap st') w = true)
    ∧ (∀ w, w ∈ mFocusPath stale_focus_scene → w ∉ [3; 0] →
            focused_in (heap st') w = false).
Proof.
  apply (updateFocus_sets_flags popup_rank (Some 3) [3; 0] stale_focus_scene).
  - repeat constructor; vm_compute; eexists; reflexivity.
  - eapply chain_step; [vm_compute; reflexivity|]. simpl.
    eapply chain_step; [vm_compute; reflexivity|]. simpl. constructor.
  - vm_compute. eexists. reflexivity.
  - by apply (bool_decide_unpack _).
Defined.



Lemma take_through_ext {A} (p q : A → bool) l :
  (∀ x, x ∈ l → p x = q x) → take_through p l = take_through q l.
Proof.
  induction l as [|x rest IH]; intros H; [done|]. cbn [take_through].
  rewrite (H x) by (by left). rewrite IH; [done|]. intros y Hy. apply H. by right.
Qed.

Lemma filter_all_true {A} (p : A → bool) l :
  (∀ x, x ∈ l → p x = true) → List.filter p l = l.
Proof.
  induction l as [|x rest IH]; intros H; [done|]. cbn [List.filter].
  rewrite (H x) by (by left). rewrite IH; [done|]. intros y Hy. apply H. by right.
Qed.

Lemma existsb_ext_elem {A} (p q : A → bool) l :
  (∀ x, x ∈ l → p x = q x) → existsb p l = existsb q l.
Proof.
  induction l as [|x rest IH]; intros H; [done|]. cbn [existsb].
  rewrite (H x) by (by left). rewrite IH; [done|]. intros y Hy. apply H. by right.
Qed.

Lemma elem_of_take_through {A} (p : A → bool) l x : x ∈ take_through p l → x ∈ l.
Proof.
  induction l as [|y rest IH]; [done|]. cbn [take_through].
  intros [->|Hx]%elem_of_cons; [by left|]. right.
  destruct (p y); [by apply elem_of_nil in Hx | by apply IH].
Qed.

Lemma elem_of_rbegin_plus_1 w path : w ∈ rbegin_plus_1 path → w ∈ path.
Proof.
  unfold rbegin_plus_1. intros Hw. apply elem_of_rev.
  destruct (rev path); [done|]. by right.
Qed.

(** X5.  A key pressed after [updateFocus(w)] is offered to every widget
    of the ancestor chain of [w] below the root, the widget just below the
    root first and [w] last, until one consumes it: none is skipped, all
    of them report themselves focused. *)
Theorem key_after_updateFocus env key scancode action mods rank widget chain st :
  Forall (λ w, is_Some (heap st !! w)) (mFocusPath st) →
  ancestor_chain (heap st) widget chain →
  is_Some (heap st !! this st) → ranked rank (heap st) →
  let on_key := λ wd, keyboardEvent_h (handlers wd) key scancode action mods in
  let targets := take_through (handled_by (heap st) on_key) (rbegin_plus_1 chain) in
  ∃ fuel0 st',
    (∀ fuel, fuel0 ≤ fuel → updateFocus fuel widget st = Some (tt, st'))
    ∧ keyCallbackEvent env key scancode action mods st'
      = Some (existsb (handled_by (heap st) on_key) targets,
              set_events (events st' ++ map (λ w, EvKeyboard w key scancode action mods)
                                            targets)
                         (set_mLastInteraction (ngGetTime env) st')).
Proof.
  intros Hall Hchain Hthis Hrank on_key targets.
  destruct (updateFocus_full rank widget chain st Hall Hchain Hthis Hrank)
    as (fuel0 & st' & Hrun & Hpath & _ & Hin & _ & Hkeep & _).
  exists fuel0, st'. split; [exact Hrun|].
  pose proof (ancestor_chain_allocated _ _ _ Hchain) as Halloc.
  rewrite Forall_forall in Halloc.
  assert (∀ w, w ∈ chain → handled_by (heap st') on_key w = handled_by (heap st) on_key w)
    as Hsame.
  { intros w Hw. destruct (Halloc w Hw) as [wd Hwd].
    destruct (Hkeep w wd Hwd) as (wd' & Hwd' & Hh & _).
    unfold handled_by, on_key. by rewrite Hwd, Hwd', Hh. }
  assert (key_targets on_key st' = targets) as Htargets.
  { unfold key_targets, targets. rewrite Hpath.
    rewrite filter_all_true by (intros w Hw; by apply Hin, elem_of_rbegin_plus_1).
    apply take_through_ext. intros w Hw. by apply Hsame, elem_of_rbegin_plus_1. }
  unfold keyCallbackEvent. unfold mbind, M_bind, modify.
  rewrite keyboardEvent_run.
  - fold on_key. change (heap (set_mLastInteraction (ngGetTime env) st')) with (heap st').
    change (events (set_mLastInteraction (ngGetTime env) st')) with (events st').
    change (key_targets on_key (set_mLastInteraction (ngGetTime env) st'))
      with (key_targets on_key st').
    rewrite Htargets. f_equal. f_equal.
    apply existsb_ext_elem. intros w Hw.
    by apply Hsame, elem_of_rbegin_plus_1, (elem_of_take_through _ _ _ Hw).
  - change (Forall (λ w, is_Some (heap st' !! w)) (mFocusPath st')).
    rewrite Hpath. apply Forall_forall. intros w Hw.
    destruct (Halloc w Hw) as [wd Hwd]. destruct (Hkeep w wd Hwd) as (wd' & -> & _). eauto.
Qed.

Lemma key_after_updateFocus_witness :
  ∃ fuel0 st',
    (∀ fuel, fuel0 ≤ fuel → updateFocus fuel (Some 2) keyboard_scene = Some (tt, st'))
    ∧ keyCallbackEvent backend 65 0 NG_PRESS 0 st'
      = Some (true,
              set_events (events st' ++ [EvKeyboard 1 65 0 NG_PRESS 0])
                         (set_mLastInteraction 42 st')).
Proof.
  apply (key_after_updateFocus backend 65 0 NG_PRESS 0 popup_rank (Some 2) [2; 1; 0]
                               keyboard_scene).
  - repeat constructor; vm_compute; eexists; reflexivity.
  - eapply chain_step; [vm_compute; reflexivity|]. simpl.
    eapply chain_step; [vm_compute; reflexivity|]. simpl.
    eapply chain_step; [vm_compute; reflexivity|]. simpl. constructor.
  - vm_compute. eexists. reflexivity.
  - by apply (bool_decide_unpack _).
Defined.

(** X6.  [updateFocus(nullptr)] returns whatever the fuel, even none: it
    empties the focus path, notifies only widgets of the former path and
    only of the loss of focus, leaves them all reporting not focused and
    every other widget, the order of the Screen's children included, as
    it was. *)
Theorem updateFocus_nullptr_clears fuel st :
  Forall (λ w, is_Some (heap st !! w)) (mFocusPath st) →
  ∃ h1 lost,
    updateFocus fuel None st
    = Some (tt, set_events (events st ++ lost) (set_mFocusPath [] (set_heap h1 st)))
    ∧ shape h1 = shape (heap st)
    ∧ (∀ w, w ∈ mFocusPath st → focused_in h1 w = false)
    ∧ (∀ w, w ∉ mFocusPath st → h1 !! w = heap st !! w)
    ∧ (∀ e, e ∈ lost → ∃ w, w ∈ mFocusPath st ∧ e = EvFocus w false).
Proof.
  intros Hall.
  destruct (focus_lost_loop_run _ st Hall)
    as (h1 & lost & Hlost & Hshape & Honly & Hcount).
  destruct (focus_lost_loop_flags _ _ _ Hlost) as [Hin Hout]. screen_simpl.
  exists h1, lost. split; [|split; [done|split; [done|split; [done|]]]].
  - unfold updateFocus. unfold_M. rewrite Hlost. by destruct fuel.
  - intros e He. destruct (Honly e He) as [w ->]. exists w. split; [|done].
    destruct (decide (w ∈ mFocusPath st)) as [|Hn]; [done|]. exfalso.
    specialize (Hcount w). rewrite bool_decide_eq_false_2 in Hcount by done.
    cbn [andb] in Hcount. unfold count_event in Hcount.
    assert (EvFocus w false ∈ filter (λ x, x = EvFocus w false) lost) as Hin'
      by (by apply list_elem_of_filter).
    destruct (filter (λ x, x = EvFocus w false) lost); [|done].
    by apply elem_of_nil in Hin'.
Qed.

Lemma updateFocus_nullptr_clears_witness :
  ∃ h1 lost,
    updateFocus 0 None stale_focus_scene
    = Some (tt, set_events (events stale_focus_scene ++ lost)
                  (set_mFocusPath [] (set_heap h1 stale_focus_scene)))
    ∧ shape h1 = shape (heap stale_focus_scene)
    ∧ (∀ w, w ∈ mFocusPath stale_focus_scene → focused_in h1 w = false)
    ∧ (∀ w, w ∉ mFocusPath stale_focus_scene → h1 !! w = heap stale_focus_scene !! w)
    ∧ (∀ e, e ∈ lost → ∃ w, w ∈ mFocusPath stale_focus_scene ∧ e = EvFocus w false).
Proof.
  apply (updateFocus_nullptr_clears 0 stale_focus_scene).
  repeat constructor; vm_compute; eexists; reflexivity.
Defined.

(** ** Keyboard: short focus paths *)

(** X7.  With a focus path of one entry, as with an empty one, a key or
    character callback stores the time, offers the event to nobody and
    returns false: the last entry of the path is never asked, whatever it
    is and whether or not it reports itself focused. *)
Theorem key_callbacks_short_path env key scancode action mods codepoint st :
  length (mFocusPath st) ≤ 1 →
  keyCallbackEvent env key scancode action mods st
  = Some (false, set_mLastInteraction (ngGetTime env) st)
  ∧ charCallbackEvent env codepoint st
    = Some (false, set_mLastInteraction (ngGetTime env) st).
Proof.
  intros Hlen.
  unfold keyCallbackEvent, charCallbackEvent, keyboardEvent, keyboardCharacterEvent.
  unfold mbind, M_bind, modify, get_state. screen_simpl.
  destruct (mFocusPath st) as [|w [|w' rest]]; [by split|by split|].
  simpl in Hlen. lia.
Qed.

Lemma key_callbacks_short_path_witness :
  keyCallbackEvent backend 65 0 NG_PRESS 0 lone_focus_scene
  = Some (false, set_mLastInteraction 42 lone_focus_scene)
  ∧ charCallbackEvent backend 97 lone_focus_scene
    = Some (false, set_mLastInteraction 42 lone_focus_scene).
Proof.
  apply (key_callbacks_short_path backend 65 0 NG_PRESS 0 97 lone_focus_scene).
  simpl. lia.
Defined.

(** ** Mouse buttons *)

Lemma bind_inv {A B} (m : M A) (f : A → M B) st r st' :
  (m ≫= f) st = Some (r, st') →
  ∃ a s1, m st = Some (a, s1) ∧ f a s1 = Some (r, st').
Proof.
  unfold mbind, M_bind. destruct (m st) as [[a s1]|]; [|done]. eauto.
Qed.

Lemma steady_refl st : steady st st.
Proof. done. Qed.

Lemma steady_trans st1 st2 st3 : steady st1 st2 → steady st2 st3 → steady st1 st3.
Proof. intros (? & ? & ? & ?) (? & ? & ? & ?). repeat split; congruence. Qed.

Lemma focusEvent_steady w b st st' : focusEvent w b st = Some (tt, st') → steady st st'.
Proof.
  rewrite focusEvent_run. destruct (heap st !! w); [|done]. by intros [= <-].
Qed.

Lemma notify_focus_lost_steady w st st' :
  notify_focus_lost w st = Some (tt, st') → steady st st'.
Proof.
  unfold notify_focus_lost. intros (wd & s1 & Hd & H)%bind_inv.
  unfold deref in Hd. destruct (heap st !! w) as [rec|]; [|done]. injection Hd as <- <-.
  destruct (focused rec); [by apply focusEvent_steady in H | by injection H as <-].
Qed.

Lemma for_each_steady (body : wid → M unit) l :
  (∀ w s s', body w s = Some (tt, s') → steady s s') →
  ∀ st st', for_each l body st = Some (tt, st') → steady st st'.
Proof.
  intros Hbody. induction l as [|w rest IH]; intros st st' H.
  - by injection H as <-.
  - apply for_each_cons_inv in H as (s1 & H1 & H2).
    eapply steady_trans; [by eapply Hbody | by eapply IH].
Qed.

Lemma updateFocus_nullptr_steady fuel st st' :
  updateFocus fuel None st = Some (tt, st') → steady st st'.
Proof.
  unfold updateFocus. intros (s & s0 & Hg & H)%bind_inv. injection Hg as <- <-.
  apply bind_inv in H as ([] & s1 & Hlost & H).
  apply (for_each_steady _ _ notify_focus_lost_steady) in Hlost.
  apply bind_inv in H as ([] & s2 & Hm & H). injection Hm as <-.
  apply bind_inv in H as (window & s3 & Hwalk & H).
  assert (window = None ∧ s3 = set_mFocusPath [] s1) as [-> ->]
    by (destruct fuel; by injection Hwalk as <- <-).
  apply bind_inv in H as (s4 & s5 & Hg & H). injection Hg as <- <-.
  apply bind_inv in H as ([] & s6 & Hgain & H).
  injection Hgain as <-. injection H as <-.
  eapply steady_trans; [exact Hlost|done].
Qed.

Lemma findWidget_inv fuel p st r st' :
  findWidget fuel p st = Some (r, st') → st' = st.
Proof. unfold findWidget. destruct (findWidget_node _ _ _ _); [|done]. by intros [= _ <-]. Qed.

Lemma release_drag_widget_steady fuel button action dropWidget st st' :
  release_drag_widget fuel button action dropWidget st = Some (tt, st') → steady st st'.
Proof.
  unfold release_drag_widget. intros (s & s0 & Hg & H)%bind_inv. injection Hg as <- <-.
  destruct (_ && _); [|by injection H as <-].
  apply bind_inv in H as (dw & s1 & Hd & H).
  assert (s1 = st) as ->.
  { unfold deref_opt, fault in Hd. destruct (mDragWidget st); [|done].
    destruct (heap st !! _); [|done]. by injection Hd as _ <-. }
  apply bind_inv in H as (a & s2 & Ha & H).
  assert (s2 = st) as ->.
  { unfold parent_absolutePosition, absolutePosition, fault in Ha.
    destruct (parent dw.2); [|done].
    destruct (absolutePosition_node _ _ _); [|done]. by injection Ha as _ <-. }
  by injection H as <-.
Qed.

Lemma update_cursor_steady hit st st' :
  update_cursor hit st = Some (tt, st') → steady st st'.
Proof.
  destruct hit as [d|]; cbn [update_cursor]; [|by intros [= <-]].
  intros (wd & s1 & Hd & H)%bind_inv.
  unfold deref in Hd. destruct (heap st !! d); [|done]. injection Hd as <- <-.
  apply bind_inv in H as (s & s0 & Hg & H). injection Hg as <- <-.
  destruct (bool_decide _); [|by injection H as <-].
  apply bind_inv in H as ([] & s2 & Hm & H). injection Hm as <-. by injection H as <-.
Qed.

Lemma update_drag_steady fuel button action st st' :
  update_drag fuel button action st = Some (tt, st') → steady st st'.
Proof.
  unfold update_drag. destruct (_ && _).
  - intros (s & s0 & Hg & H)%bind_inv. injection Hg as <- <-.
    apply bind_inv in H as (hit & s1 & Hf & H).
    apply findWidget_inv in Hf as ->.
    apply bind_inv in H as ([] & s2 & Hm & H). injection Hm as <-.
    apply bind_inv in H as ([] & s3 & Hm & H). injection Hm as <-.
    destruct (bool_decide _); [by injection H as <-|].
    by apply updateFocus_nullptr_steady in H.
  - intros ([] & s1 & Hm & H)%bind_inv. injection Hm as <-. by injection H as <-.
Qed.

Lemma Widget_mouseButtonEvent_steady fuel p button down modifiers st r st' :
  Widget_mouseButtonEvent fuel p button down modifiers st = Some (r, st') → steady st st'.
Proof.
  unfold Widget_mouseButtonEvent. intros (hit & s1 & Hf & H)%bind_inv.
  apply findWidget_inv in Hf as ->.
  destruct hit as [w|]; [|by injection H as _ <-].
  apply bind_inv in H as (wd & s1 & Hd & H).
  unfold deref in Hd. destruct (heap st !! w); [|done]. injection Hd as <- <-.
  apply bind_inv in H as ([] & s2 & Hm & H). injection Hm as <-. by injection H as _ <-.
Qed.

Lemma modal_window_blocks_inv st b st' :
  modal_window_blocks st = Some (b, st') → st' = st.
Proof.
  unfold modal_window_blocks. unfold_M.
  destruct (bool_decide _); [|by intros [= _ <-]].
  destruct (mFocusPath st !! _) as [w|]; [|done]. cbv beta.
  destruct (heap st !! w) as [wd|]; [|done].
  destruct (window_modal wd) as [[|]|]; by intros [= _ <-].
Qed.

(** What a button callback leaves in [mMouseState], whether it was idle
    or dragging before. *)
Lemma mouseButtonCallbackEvent_mouse_state env fuel button action modifiers st r st' :
  modal_window_blocks st = Some (false, st) →
  mouseButtonCallbackEvent env fuel button action modifiers st = Some (r, st') →
  mMouseState st'
  = (if bool_decide (action = NG_PRESS)
     then Z.lor (mMouseState st) (button_mask button)
     else Z.land (mMouseState st) (Z.lnot (button_mask button)))
  ∧ mLastInteraction st' = ngGetTime env.
Proof.
  intros Hpass. unfold mouseButtonCallbackEvent.
  intros ([] & s1 & Hm & H)%bind_inv. injection Hm as <-.
  apply bind_inv in H as ([] & s2 & Hm & H). injection Hm as <-.
  apply bind_inv in H as (blocked & s3 & Hb & H).
  rewrite (modal_window_blocks_ext false st
             (set_mLastInteraction (ngGetTime env) (set_mModifiers modifiers st))
             Hpass eq_refl eq_refl eq_refl) in Hb.
  injection Hb as <- <-.
  apply bind_inv in H as ([] & s4 & Hms & H).
  apply bind_inv in H as (s & s5 & Hg & H). injection Hg as <- <-.
  apply bind_inv in H as (hit & s6 & Hf & H). apply findWidget_inv in Hf as ->.
  apply bind_inv in H as ([] & s7 & H1 & H). apply release_drag_widget_steady in H1.
  apply bind_inv in H as ([] & s8 & H2 & H). apply update_cursor_steady in H2.
  apply bind_inv in H as ([] & s9 & H3 & H). apply update_drag_steady in H3.
  apply bind_inv in H as (s & s10 & Hg & H). injection Hg as <- <-.
  apply Widget_mouseButtonEvent_steady in H.
  destruct (steady_trans _ _ _ (steady_trans _ _ _ (steady_trans _ _ _ H1 H2) H3) H)
    as (-> & -> & _).
  unfold update_mouse_state in Hms.
  destruct (bool_decide (action = NG_PRESS)); by injection Hms as <-.
Qed.

Local Open Scope Z_scope.

Lemma button_mask_pow2 button : 0 ≤ button < 31 → button_mask button = 2 ^ button.
Proof.
  intros Hb. unfold button_mask, int_wrap. rewrite Z.shiftl_1_l.
  assert (0 < 2 ^ button < 2 ^ 31)
    by (split; [apply Z.pow_pos_nonneg; lia | apply Z.pow_lt_mono_r; lia]).
  rewrite Z.mod_small by lia. lia.
Qed.

(** X8.  A button callback that the modality check lets pass sets, on a
    press, the bit of the button in [mMouseState] and clears it on every
    other action, and leaves the bits of the other buttons as they were
    (buttons 0 to 30). *)
Theorem mouseButtonCallbackEvent_button_bit
    env fuel button action modifiers st r st' :
  0 ≤ button < 31 →
  modal_window_blocks st = Some (false, st) →
  mouseButtonCallbackEvent env fuel button action modifiers st = Some (r, st') →
  ∀ j, 0 ≤ j →
    Z.testbit (mMouseState st') j
    = if bool_decide (j = button) then bool_decide (action = NG_PRESS)
      else Z.testbit (mMouseState st) j.
Proof.
  intros Hb Hpass H j Hj.
  destruct (mouseButtonCallbackEvent_mouse_state _ _ _ _ _ _ _ _ Hpass H) as [-> _].
  rewrite (button_mask_pow2 button Hb).
  destruct (bool_decide (action = NG_PRESS)).
  - rewrite Z.lor_spec, Z.pow2_bits_eqb by lia.
    destruct (decide (j = button)) as [->|Hne].
    + by rewrite bool_decide_eq_true_2, Z.eqb_refl, orb_true_r.
    + rewrite bool_decide_eq_false_2 by done.
      replace (button =? j) with false by (symmetry; apply Z.eqb_neq; lia).
      by rewrite orb_false_r.
  - rewrite Z.land_spec, Z.lnot_spec, Z.pow2_bits_eqb by lia.
    destruct (decide (j = button)) as [->|Hne].
    + by rewrite bool_decide_eq_true_2, Z.eqb_refl, andb_false_r.
    + rewrite bool_decide_eq_false_2 by done.
      replace (button =? j) with false by (symmetry; apply Z.eqb_neq; lia).
      by rewrite andb_true_r.
Qed.

Lemma mouseButtonCallbackEvent_button_bit_witness :
  Z.testbit (mMouseState
               (state_after (mouseButtonCallbackEvent backend 5 NG_MOUSE_BUTTON_2
                                                      NG_PRESS 0) popup_scene)) 1
  = if bool_decide (1 = NG_MOUSE_BUTTON_2) then bool_decide (NG_PRESS = NG_PRESS)
    else Z.testbit (mMouseState popup_scene) 1.
Proof.
  apply (mouseButtonCallbackEvent_button_bit backend 5 NG_MOUSE_BUTTON_2 NG_PRESS 0
           popup_scene false).
  - unfold NG_MOUSE_BUTTON_2. lia.
  - vm_compute. reflexivity.
  - vm_compute. reflexivity.
  - lia.
Defined.

Local Close Scope Z_scope.

Lemma release_drag_widget_idle fuel button action dropWidget st :
  mDragActive st = false →
  release_drag_widget fuel button action dropWidget st = Some (tt, st).
Proof.
  intros Hidle. unfold release_drag_widget. unfold_M. by rewrite Hidle.
Qed.

(** What the press test makes of the focus path: it is cleared exactly
    when a press of the first or second button captures nothing. *)
Lemma update_drag_path fuel button action st hit :
  findWidget_node fuel (heap st) (this st) (mMousePos st) = Some hit →
  Forall (λ w, is_Some (heap st !! w)) (mFocusPath st) →
  ∃ st', update_drag fuel button action st = Some (tt, st')
         ∧ mFocusPath st'
           = if is_drag_press button action && negb (captures st hit) then []
             else mFocusPath st.
Proof.
  intros Hhit Hall. unfold update_drag. rewrite is_drag_press_eq.
  destruct (is_drag_press button action); simpl.
  - unfold_M. rewrite (findWidget_run _ _ _ _ Hhit).
    destruct hit as [x|]; simpl.
    + destruct (decide (x = this st)) as [->|Hne].
      * rewrite (bool_decide_eq_true_2 (Some (this st) = Some (this st))) by done.
        rewrite (bool_decide_eq_false_2 (this st ≠ this st)) by (intros ?; done).
        rewrite (bool_decide_eq_false_2 (None ≠ None)) by (intros ?; done).
        match goal with |- context [updateFocus fuel None ?s] =>
          destruct (updateFocus_None_run fuel s Hall) as (h1 & lost & -> & Hshape) end.
        by eexists.
      * rewrite (bool_decide_eq_false_2 (Some x = Some (this st))) by congruence.
        rewrite (bool_decide_eq_true_2 (Some x ≠ None)) by done.
        rewrite (bool_decide_eq_true_2 (x ≠ this st)) by done.
        by eexists.
    + match goal with |- context [updateFocus fuel None ?s] =>
        destruct (updateFocus_None_run fuel s Hall) as (h1 & lost & -> & Hshape) end.
      by eexists.
  - unfold_M. by eexists.
Qed.

Lemma Widget_mouseButtonEvent_path fuel p button down modifiers st r st' :
  Widget_mouseButtonEvent fuel p button down modifiers st = Some (r, st') →
  mFocusPath st' = mFocusPath st.
Proof.
  unfold Widget_mouseButtonEvent. intros (hit & s1 & Hf & H)%bind_inv.
  apply findWidget_inv in Hf as ->.
  destruct hit as [w|]; [|by injection H as _ <-].
  apply bind_inv in H as (wd & s1 & Hd & H).
  unfold deref in Hd. destruct (heap st !! w); [|done]. injection Hd as <- <-.
  apply bind_inv in H as ([] & s2 & Hm & H). injection Hm as <-. by injection H as _ <-.
Qed.

(** X9.  On an idle Screen, a button callback that the modality check
    lets pass begins a drag exactly when the first or second button is
    pressed over a widget other than the Screen, which becomes the
    captured widget; when such a press hits the Screen or nothing the
    drag stays idle and the focus path is cleared; any other event leaves
    both the drag idle and the focus path as it was.  Afterwards the
    captured widget of an active drag exists. *)
Theorem button_on_idle_screen env fuel button action modifiers st hit :
  mDragActive st = false →
  Forall (λ w, is_Some (heap st !! w)) (mFocusPath st) →
  modal_window_blocks st = Some (false, st) →
  findWidget_node fuel (heap st) (this st) (mMousePos st) = Some hit →
  ∃ r st',
    mouseButtonCallbackEvent env fuel button action modifiers st = Some (r, st')
    ∧ (if is_drag_press button action && captures st hit
       then mDragActive st' = true ∧ mDragWidget st' = hit
       else mDragActive st' = false ∧ mDragWidget st' = None)
    ∧ mFocusPath st'
      = (if is_drag_press button action && negb (captures st hit) then []
         else mFocusPath st)
    ∧ drag_invariant st'.
Proof.
  intros Hidle Hall Hpass Hhit.
  unfold mouseButtonCallbackEvent.
  unfold mbind at 1, M_bind at 1, modify at 1.
  unfold mbind at 1, M_bind at 1, modify at 1.
  unfold mbind at 1, M_bind at 1.
  set (st1 := set_mLastInteraction (ngGetTime env) (set_mModifiers modifiers st)).
  rewrite (modal_window_blocks_ext false st st1 Hpass eq_refl eq_refl eq_refl).
  unfold mbind at 1, M_bind at 1.
  destruct (update_mouse_state_run button action st1) as [ms ->].
  set (st2 := set_mMouseState ms st1).
  unfold mbind at 1, M_bind at 1, get_state at 1.
  unfold mbind at 1, M_bind at 1.
  rewrite (findWidget_run fuel (mMousePos st2) st2 hit Hhit).
  unfold mbind at 1, M_bind at 1.
  rewrite (release_drag_widget_idle fuel button action hit st2 Hidle).
  unfold mbind at 1, M_bind at 1.
  destruct (update_cursor_run hit st2) as (st4 & -> & Hf24 & _ & Hheap4 & Hpath4).
  { intros d ->. exact (findWidget_node_allocated _ _ _ _ _ Hhit). }
  pose proof Hf24 as (Ht4 & Hm4 & _ & _ & _ & _).
  unfold mbind at 1, M_bind at 1.
  assert (findWidget_node fuel (heap st4) (this st4) (mMousePos st4) = Some hit) as Hhit4
    by (rewrite Hheap4, Ht4, Hm4; exact Hhit).
  assert (Forall (λ w, is_Some (heap st4 !! w)) (mFocusPath st4)) as Hall4
    by (rewrite Hheap4, Hpath4; exact Hall).
  destruct (update_drag_run fuel button action st4 hit Hhit4 Hall4)
    as (st5 & Hrun5 & Hf45 & Hdrag).
  destruct (update_drag_path fuel button action st4 hit Hhit4 Hall4)
    as (st5' & Hrun5' & Hpath5).
  rewrite Hrun5 in Hrun5'. injection Hrun5' as <-. rewrite Hrun5.
  pose proof Hf45 as (Ht5 & Hm5 & _ & Hs5 & _ & _).
  unfold mbind at 1, M_bind at 1, get_state at 1.
  destruct (Widget_mouseButtonEvent_run fuel (mMousePos st5) button
              (bool_decide (action = NG_PRESS)) (mModifiers st5) st5 hit)
    as (r & st6 & Hrun6 & Hf56 & Hd56a & Hd56w).
  { rewrite (findWidget_node_shape fuel (heap st5) (heap st4)) by exact Hs5.
    rewrite Ht5, Hm5. exact Hhit4. }
  pose proof (Widget_mouseButtonEvent_path _ _ _ _ _ _ _ _ Hrun6) as Hpath6.
  rewrite Hrun6. exists r, st6. split; [done|].
  assert (captures st4 hit = captures st hit) as Hcap
    by (unfold captures; by rewrite Ht4).
  rewrite Hcap in Hdrag, Hpath5. rewrite Hpath4 in Hpath5.
  split; [by rewrite Hd56a, Hd56w|]. split; [by rewrite Hpath6|].
  intros Hactive. rewrite Hd56a in Hactive. rewrite Hd56w.
  destruct (is_drag_press button action && captures st hit) eqn:Hcaptured;
    [|destruct Hdrag as [Hd _]; congruence].
  destruct Hdrag as [_ ->]. destruct hit as [x|].
  - exists x. split; [done|].
    pose proof (frame_trans _ _ _ (frame_trans _ _ _ Hf24 Hf45) Hf56)
      as (_ & _ & _ & Hshape & _).
    eapply shape_is_Some; [symmetry; exact Hshape|].
    exact (findWidget_node_allocated _ _ _ _ _ Hhit).
  - by rewrite andb_false_r in Hcaptured.
Qed.

Lemma button_on_idle_screen_witness :
  ∃ r st',
    mouseButtonCallbackEvent backend 5 NG_MOUSE_BUTTON_1 NG_PRESS 0 keyboard_scene
    = Some (r, st')
    ∧ (if is_drag_press NG_MOUSE_BUTTON_1 NG_PRESS && captures keyboard_scene (Some 2)
       then mDragActive st' = true ∧ mDragWidget st' = Some 2
       else mDragActive st' = false ∧ mDragWidget st' = None)
    ∧ mFocusPath st'
      = (if is_drag_press NG_MOUSE_BUTTON_1 NG_PRESS
            && negb (captures keyboard_scene (Some 2)) then []
         else mFocusPath keyboard_scene)
    ∧ drag_invariant st'.
Proof.
  apply (button_on_idle_screen backend 5 NG_MOUSE_BUTTON_1 NG_PRESS 0 keyboard_scene
           (Some 2)).
  - reflexivity.
  - vm_compute. repeat constructor; eexists; reflexivity.
  - vm_compute. reflexivity.
  - vm_compute. reflexivity.
Defined.

Lemma findWidget_node_root fuel h w p r :
  findWidget_node fuel h w p = Some r → is_Some (h !! w).
Proof.
  destruct fuel as [|fuel]; [done|]. simpl. destruct (h !! w); [by eexists|done].
Qed.

(** X10.  While a drag is active, a motion callback sends the drag event
    to the captured widget, at the pointer position relative to the
    widget's parent and with the displacement since the last position; it
    sends the generic motion event, to the widget under the pointer or
    else to the Screen, only when the drag handler declined.  The cursor
    shape, the drag, the widgets and the focus path stay as they are, and
    the pointer position is stored.  No modality check is made. *)
Theorem cursorPosCallbackEvent_dragging env fuel x y st w wd pw a hit :
  mDragActive st = true →
  mDragWidget st = Some w →
  heap st !! w = Some wd →
  parent wd = Some pw →
  absolutePosition_node fuel (heap st) pw = Some a →
  findWidget_node fuel (heap st) (this st) (pointer env st x y) = Some hit →
  ∃ r st',
    cursorPosCallbackEvent env fuel x y st = Some (r, st')
    ∧ events st'
      = events st
        ++ EvMouseDrag w (vsub (pointer env st x y) a)
                       (vsub (pointer env st x y) (mMousePos st))
                       (mMouseState st) (mModifiers st)
        :: (if mouseDragEvent_h (handlers wd) (vsub (pointer env st x y) a)
                                (vsub (pointer env st x y) (mMousePos st))
                                (mMouseState st) (mModifiers st)
            then []
            else [EvMouseMotion (default (this st) hit) (pointer env st x y)
                                (vsub (pointer env st x y) (mMousePos st))
                                (mMouseState st) (mModifiers st)])
    ∧ (mouseDragEvent_h (handlers wd) (vsub (pointer env st x y) a)
                        (vsub (pointer env st x y) (mMousePos st))
                        (mMouseState st) (mModifiers st) = true → r = true)
    ∧ mMousePos st' = pointer env st x y
    ∧ mLastInteraction st' = ngGetTime env
    ∧ mCursor st' = mCursor st
    ∧ keeps_drag st st'
    ∧ heap st' = heap st
    ∧ mFocusPath st' = mFocusPath st.
Proof.
  intros Hactive Hdw Hw Hpw Ha Hhit.
  assert (is_Some (heap st !! default (this st) hit)) as [twd Ht].
  { destruct hit as [d|]; simpl.
    - exact (findWidget_node_allocated _ _ _ _ _ Hhit).
    - exact (findWidget_node_root _ _ _ _ _ Hhit). }
  unfold cursorPosCallbackEvent. unfold pointer in *. cbv zeta.
  set (p := vsub _ (1%Z, 2%Z)) in *.
  unfold mbind at 1, M_bind at 1, get_state at 1.
  unfold mbind at 1, M_bind at 1, modify at 1.
  rewrite Hactive. cbn [negb].
  unfold mbind at 1, M_bind at 1.
  unfold mbind at 1, M_bind at 1. rewrite Hdw.
  unfold deref_opt. screen_simpl. rewrite Hw.
  unfold mbind at 1, M_bind at 1. cbn [fst snd].
  unfold parent_absolutePosition. rewrite Hpw. unfold absolutePosition.
  screen_simpl. rewrite Ha.
  unfold mbind at 1, M_bind at 1, emit at 1, modify at 1.
  unfold mret at 1, M_ret at 1.
  destruct (mouseDragEvent_h _ _ _ _ _).
  - unfold_M. eexists _, _. split; [reflexivity|]. screen_simpl. done.
  - unfold Widget_mouseMotionEvent.
    unfold mbind at 1, M_bind at 1.
    unfold mbind at 1, M_bind at 1.
    rewrite (findWidget_run fuel p _ hit) by (screen_simpl; exact Hhit).
    unfold_M. screen_simpl. rewrite Ht.
    eexists _, _. split; [reflexivity|]. screen_simpl.
    split; [by rewrite <- app_assoc|done].
Qed.

Lemma cursorPosCallbackEvent_dragging_witness :
  ∃ r st',
    cursorPosCallbackEvent backend 5 121 122 (drag_scene (115, 115)%Z 2) = Some (r, st')
    ∧ events st'
      = events (drag_scene (115, 115)%Z 2)
        ++ [EvMouseDrag 2 (20, 20)%Z (5, 5)%Z 1 0;
            EvMouseMotion 2 (120, 120)%Z (5, 5)%Z 1 0]
    ∧ mMousePos st' = (120, 120)%Z
    ∧ keeps_drag (drag_scene (115, 115)%Z 2) st'.
Proof.
  destruct (cursorPosCallbackEvent_dragging backend 5 121 122
              (drag_scene (115, 115)%Z 2) 2 drag_button 1 (100, 100)%Z (Some 2))
    as (r & st' & Hrun & Hev & _ & Hpos & _ & _ & Hdrag & _);
    [reflexivity | reflexivity | reflexivity | reflexivity | reflexivity
    | vm_compute; reflexivity |].
  exists r, st'. split; [exact Hrun|]. split; [exact Hev|]. split; [exact Hpos|exact Hdrag].
Defined.

(** X11.  While no drag is active, a motion callback takes the cursor
    shape of the widget under the pointer, announcing the shape to the
    backend only when it differs from the current one, and then sends
    the generic motion event to that widget, or to the Screen when the
    pointer is over nothing.  The drag stays idle, the widgets and the
    focus path stay as they are, and the pointer position is stored. *)
Theorem cursorPosCallbackEvent_idle env fuel x y st hit :
  mDragActive st = false →
  findWidget_node fuel (heap st) (this st) (pointer env st x y) = Some hit →
  ∃ r st',
    cursorPosCallbackEvent env fuel x y st = Some (r, st')
    ∧ mCursor st' = cursor_over st hit
    ∧ events st'
      = events st
        ++ (if bool_decide (cursor_over st hit ≠ mCursor st)
            then [EvSetCursor (cursor_over st hit)] else [])
        ++ [EvMouseMotion (default (this st) hit) (pointer env st x y)
                          (vsub (pointer env st x y) (mMousePos st))
                          (mMouseState st) (mModifiers st)]
    ∧ mMousePos st' = pointer env st x y
    ∧ mLastInteraction st' = ngGetTime env
    ∧ keeps_drag st st'
    ∧ heap st' = heap st
    ∧ mFocusPath st' = mFocusPath st.
Proof.
  intros Hidle Hhit.
  assert (is_Some (heap st !! default (this st) hit)) as [twd Ht].
  { destruct hit as [d|]; simpl.
    - exact (findWidget_node_allocated _ _ _ _ _ Hhit).
    - exact (findWidget_node_root _ _ _ _ _ Hhit). }
  unfold cursorPosCallbackEvent. unfold pointer in *. cbv zeta.
  set (p := vsub _ (1%Z, 2%Z)) in *.
  unfold mbind at 1, M_bind at 1, get_state at 1.
  unfold mbind at 1, M_bind at 1, modify at 1.
  rewrite Hidle. cbn [negb].
  unfold mbind at 1, M_bind at 1.
  unfold mbind at 1, M_bind at 1.
  rewrite (findWidget_run fuel p _ hit) by (screen_simpl; exact Hhit).
  unfold Widget_mouseMotionEvent.
  destruct hit as [d|]; cbn [update_cursor cursor_over from_option id] in *.
  - rewrite Ht. rename Ht into Hd.
    unfold mbind at 1, M_bind at 1.
    unfold mbind at 1, M_bind at 1, deref at 1. screen_simpl. rewrite Hd.
    unfold mbind at 1, M_bind at 1, get_state at 1. screen_simpl.
    destruct (bool_decide (cursor twd ≠ mCursor st)) eqn:Hc.
    + unfold mbind at 1, M_bind at 1, modify at 1.
      unfold emit at 1, modify at 1. unfold mret at 1, M_ret at 1.
      unfold mbind at 1, M_bind at 1.
      unfold mbind at 1, M_bind at 1.
      rewrite (findWidget_run fuel p _ (Some d)) by (screen_simpl; exact Hhit).
      unfold_M. cbn [from_option id]. screen_simpl. rewrite Hd.
      eexists _, _. split; [reflexivity|]. screen_simpl.
      split; [done|]. split; [by rewrite <- app_assoc|done].
    + unfold mret at 1 2, M_ret at 1 2.
      unfold mbind at 1, M_bind at 1.
      unfold mbind at 1, M_bind at 1.
      rewrite (findWidget_run fuel p _ (Some d)) by (screen_simpl; exact Hhit).
      unfold_M. cbn [from_option id]. screen_simpl. rewrite Hd.
      eexists _, _. split; [reflexivity|]. screen_simpl.
      apply bool_decide_eq_false in Hc. apply dec_stable in Hc.
      split; [done|]. done.
  - rewrite (bool_decide_eq_false_2 (mCursor st ≠ mCursor st)) by (intros ?; done).
    unfold mbind at 1, M_bind at 1. unfold mret at 1 2, M_ret at 1 2.
    unfold mbind at 1, M_bind at 1.
    unfold mbind at 1, M_bind at 1.
    rewrite (findWidget_run fuel p _ None) by (screen_simpl; exact Hhit).
    unfold_M. cbn [from_option id]. screen_simpl. rewrite Ht.
    eexists _, _. split; [reflexivity|]. screen_simpl. done.
Qed.

Lemma cursorPosCallbackEvent_idle_witness :
  ∃ r st',
    cursorPosCallbackEvent backend 5 121 122 keyboard_scene = Some (r, st')
    ∧ mCursor st' = Arrow
    ∧ events st' = [EvMouseMotion 2 (120, 120)%Z (5, 5)%Z 0 0]
    ∧ mMousePos st' = (120, 120)%Z.
Proof.
  destruct (cursorPosCallbackEvent_idle backend 5 121 122 keyboard_scene (Some 2))
    as (r & st' & Hrun & Hcur & Hev & Hpos & _);
    [reflexivity | vm_compute; reflexivity |].
  exists r, st'. split; [exact Hrun|]. split; [exact Hcur|]. split; [exact Hev|exact Hpos].
Defined.

Lemma Widget_scrollEvent_inv fuel p rel st r st' :
  Widget_scrollEvent fuel p rel st = Some (r, st') →
  ∃ evs, st' = set_events (events st ++ evs) st ∧ length evs ≤ 1
         ∧ ∀ e, e ∈ evs → ∃ w, e = EvScroll w p rel ∧ is_Some (heap st !! w).
Proof.
  unfold Widget_scrollEvent. intros (hit & s1 & Hf & H)%bind_inv.
  apply findWidget_inv in Hf as ->.
  destruct hit as [w|].
  - apply bind_inv in H as (wd & s1 & Hd & H).
    unfold deref in Hd. destruct (heap st !! w) eqn:Hw; [|done]. injection Hd as <- <-.
    apply bind_inv in H as ([] & s2 & Hm & H). injection Hm as <-. injection H as _ <-.
    exists [EvScroll w p rel]. split; [done|]. split; [simpl; lia|].
    intros e ->%list_elem_of_singleton. exists w. by rewrite Hw.
  - injection H as _ <-. exists []. split; [by rewrite set_events_app_nil|].
    split; [simpl; lia|]. intros e He. by apply elem_of_nil in He.
Qed.

(** The narrowing of some doubles: 1.0 and -2.5 are floats already, 0.1
    is rounded up to the nearest float, the least positive double goes to
    zero, the greatest one to infinity, 2^-150, halfway between zero and
    the least positive float, goes to zero, the even neighbour, 2^-149
    to the least positive float, the double just below the least normal
    float up to that float, and a NaN to a NaN. *)
Lemma float_of_double_examples :
  float_of_double 4607182418800017408 = 1065353216%Z
  ∧ float_of_double 13836183955189006336 = 3223322624%Z
  ∧ float_of_double 4591870180066957722 = 1036831949%Z
  ∧ float_of_double 1 = 0%Z
  ∧ float_of_double 9218868437227405311 = 2139095040%Z
  ∧ float_of_double 3931642474694443008 = 0%Z
  ∧ float_of_double 3936146074321813504 = 1%Z
  ∧ float_of_double 4039728865751334911 = 8388608%Z
  ∧ float_of_double 9221120237041090560 = 2143289344%Z.
Proof. repeat split; vm_compute; reflexivity. Qed.

(** X12.  Whenever a scroll callback returns, all it has changed is the
    time of the last interaction, which is the backend's clock, and the
    log, which has grown by at most one scroll event, sent at the stored
    pointer position to an existing widget and carrying the two offsets
    narrowed to [float]: a scroll never moves the focus, the drag, the
    pointer, the button mask or the cursor. *)
Theorem scrollCallbackEvent_frame env fuel x y st r st' :
  scrollCallbackEvent env fuel x y st = Some (r, st') →
  ∃ evs,
    st' = set_events (events st ++ evs) (set_mLastInteraction (ngGetTime env) st)
    ∧ length evs ≤ 1
    ∧ ∀ e, e ∈ evs →
        ∃ w, e = EvScroll w (mMousePos st) (float_of_double x, float_of_double y)
             ∧ is_Some (heap st !! w).
Proof.
  unfold scrollCallbackEvent. intros ([] & s1 & Hm & H)%bind_inv. injection Hm as <-.
  apply bind_inv in H as (blocked & s2 & Hb & H).
  apply modal_window_blocks_inv in Hb as ->.
  destruct blocked.
  - injection H as _ <-. exists []. split; [screen_eq; by rewrite app_nil_r|].
    split; [simpl; lia|]. intros e He. by apply elem_of_nil in He.
  - apply bind_inv in H as (s & s3 & Hg & H). injection Hg as <- <-.
    apply Widget_scrollEvent_inv in H as (evs & -> & Hlen & Hev).
    exists evs. split; [by screen_eq|]. split; [done|]. exact Hev.
Qed.

Lemma scrollCallbackEvent_frame_witness :
  ∃ evs,
    state_after (scrollCallbackEvent backend 5 4591870180066957722 1) keyboard_scene
    = set_events (events keyboard_scene ++ evs)
                 (set_mLastInteraction (ngGetTime backend) keyboard_scene)
    ∧ length evs ≤ 1
    ∧ ∀ e, e ∈ evs →
        ∃ w, e = EvScroll w (mMousePos keyboard_scene)
                   (float_of_double 4591870180066957722, float_of_double 1)
             ∧ is_Some (heap keyboard_scene !! w).
Proof.
  apply (scrollCallbackEvent_frame backend 5 4591870180066957722 1 keyboard_scene true
           (state_after (scrollCallbackEvent backend 5 4591870180066957722 1)
                        keyboard_scene)).
  vm_compute. reflexivity.
Defined.

Local Open Scope Z_scope.

Lemma resizeCallbackEvent_inv env st r st' :
  resizeCallbackEvent env st = Some (r, st') →
  r = false
  ∧ (st' = st
     ∨ (mFBSize st' = ngGetFramebufferSize env
        ∧ mLastInteraction st' = ngGetTime env
        ∧ ∃ size, size ≠ (0, 0) ∧ events st' = events st ++ [EvResize size]
                  ∧ (mSize <$> heap st' !! this st') = Some size)).
Proof.
  unfold resizeCallbackEvent. intros (s & s0 & Hg & H)%bind_inv. injection Hg as <- <-.
  cbv zeta in H.
  set (size := if win32_or_linux env then _ else _) in *.
  destruct (bool_decide (mFBSize st = (0, 0))); cbn [orb] in H;
    [injection H as <- <-; by split; [|left]|].
  destruct (bool_decide (size = (0, 0))) eqn:Hsz;
    [injection H as <- <-; by split; [|left]|].
  apply bool_decide_eq_false in Hsz.
  apply bind_inv in H as ([] & s1 & Hm & H). injection Hm as <-.
  apply bind_inv in H as (scr & s2 & Hd & H).
  unfold deref in Hd. screen_simpl. destruct (heap st !! this st); [|done].
  injection Hd as <- <-.
  apply bind_inv in H as ([] & s3 & Hs & H). injection Hs as <-.
  apply bind_inv in H as ([] & s4 & Hm & H). injection Hm as <-.
  unfold resizeEvent in H.
  apply bind_inv in H as ([] & s5 & He & H). injection He as <-.
  injection H as <- <-. split; [done|]. right. screen_simpl.
  split; [done|]. split; [done|]. exists size. split; [done|]. split; [done|].
  by rewrite lookup_insert_eq.
Qed.

(** Once the cached framebuffer size is (0, 0), a run of resize
    callbacks answers false throughout and changes nothing. *)
Lemma resize_callbacks_stuck envs st :
  mFBSize st = (0, 0) →
  resize_callbacks envs st = Some (map (λ _, false) envs, st).
Proof.
  intros Hfb. induction envs as [|env envs IH]; [done|].
  cbn [resize_callbacks map].
  unfold mbind at 1, M_bind at 1. rewrite (resizeCallbackEvent_stuck env st Hfb).
  unfold mbind at 1, M_bind at 1. by rewrite IH.
Qed.

(** X13.  Once a resize callback has gone through while the backend
    reported a framebuffer of (0, 0), the resize callbacks that follow
    it directly, however many and whatever the backend reports to each,
    all answer false and change nothing: the callback itself never
    refreshes a cached framebuffer size of (0, 0). *)
Theorem resizeCallbackEvent_zero_framebuffer_sticks env envs st r st' :
  ngGetFramebufferSize env = (0, 0) →
  resizeCallbackEvent env st = Some (r, st') →
  st' ≠ st →
  resize_callbacks envs st' = Some (map (λ _, false) envs, st').
Proof.
  intros Hzero H Hne.
  apply resizeCallbackEvent_inv in H as [_ [->|(Hfb & _)]]; [done|].
  apply resize_callbacks_stuck. by rewrite Hfb.
Qed.

Lemma resizeCallbackEvent_zero_framebuffer_sticks_witness :
  resize_callbacks [backend; zero_framebuffer_backend; backend]
    (state_after (resizeCallbackEvent zero_framebuffer_backend) popup_scene)
  = Some (map (λ _, false) [backend; zero_framebuffer_backend; backend],
          state_after (resizeCallbackEvent zero_framebuffer_backend) popup_scene).
Proof.
  apply (resizeCallbackEvent_zero_framebuffer_sticks zero_framebuffer_backend
           [backend; zero_framebuffer_backend; backend] popup_scene false).
  - reflexivity.
  - vm_compute. reflexivity.
  - intros H. apply (f_equal events) in H. vm_compute in H. discriminate H.
Defined.

(** X14.  A resize callback answers false whenever it returns, and either
    changes nothing or stores the framebuffer size the backend reports,
    whatever it is, and the clock, gives the Screen a size other than
    (0, 0) and sends exactly one resize notification, carrying that size. *)
Theorem resizeCallbackEvent_outcome env st r st' :
  resizeCallbackEvent env st = Some (r, st') →
  r = false
  ∧ (st' = st
     ∨ (mFBSize st' = ngGetFramebufferSize env
        ∧ mLastInteraction st' = ngGetTime env
        ∧ ∃ size, size ≠ (0, 0) ∧ events st' = events st ++ [EvResize size]
                  ∧ (mSize <$> heap st' !! this st') = Some size)).
Proof. apply resizeCallbackEvent_inv. Qed.

Lemma resizeCallbackEvent_outcome_witness :
  false = false
  ∧ (state_after (resizeCallbackEvent backend) popup_scene = popup_scene
     ∨ (mFBSize (state_after (resizeCallbackEvent backend) popup_scene)
        = ngGetFramebufferSize backend
        ∧ mLastInteraction (state_after (resizeCallbackEvent backend) popup_scene)
          = ngGetTime backend
        ∧ ∃ size, size ≠ (0, 0)
                  ∧ events (state_after (resizeCallbackEvent backend) popup_scene)
                    = events popup_scene ++ [EvResize size]
                  ∧ (mSize <$> heap (state_after (resizeCallbackEvent backend) popup_scene)
                               !! this (state_after (resizeCallbackEvent backend) popup_scene))
                    = Some size)).
Proof.
  apply (resizeCallbackEvent_outcome backend popup_scene false
           (state_after (resizeCallbackEvent backend) popup_scene)).
  vm_compute. reflexivity.
Defined.

Lemma initialize_inv env ok st o st' :
  initialize env ok st = Some (o, st') →
  ∃ scr, heap st !! this st = Some scr
    ∧ this st' = this st
    ∧ heap st' = <[this st := set_size (ngGetWindowSize env) scr]> (heap st)
    ∧ mFBSize st' = ngGetFramebufferSize env
    ∧ mPixelRatio st' = 1
    ∧ events st' = events st
    ∧ o = (if ok then Returned else Thrown_runtime_error).
Proof.
  unfold initialize. intros ([] & s1 & Hm & H)%bind_inv. injection Hm as <-.
  apply bind_inv in H as (s & s2 & Hg & H). injection Hg as <- <-.
  apply bind_inv in H as (scr & s2 & Hd & H).
  unfold deref in Hd. screen_simpl. cbn [this heap set_mPixelRatio] in *.
  destruct (heap st !! this st) as [rec|] eqn:Hscr; [|done]. injection Hd as <- <-.
  apply bind_inv in H as ([] & s3 & Hs & H). injection Hs as <-.
  apply bind_inv in H as ([] & s4 & Hm & H). injection Hm as <-.
  exists rec. split; [done|]. destruct ok.
  - do 5 (apply bind_inv in H as ([] & ? & Hm & H); injection Hm as <-).
    injection H as <- <-. by cbn.
  - injection H as <- <-. by cbn.
Qed.

(** X15.  When the backend reports a framebuffer of (0, 0) at start-up,
    the resize callbacks that follow start-up directly, before anything
    else is run on the Screen, all answer false and change nothing,
    however many they are and whatever the backend reports to each; this
    holds also when start-up ended by throwing. *)
Theorem initialize_zero_framebuffer_blocks_resize env envs ok st o st' :
  ngGetFramebufferSize env = (0, 0) →
  initialize env ok st = Some (o, st') →
  resize_callbacks envs st' = Some (map (λ _, false) envs, st').
Proof.
  intros Hzero (scr & _ & _ & _ & Hfb & _)%initialize_inv.
  apply resize_callbacks_stuck. by rewrite Hfb.
Qed.

Lemma initialize_zero_framebuffer_blocks_resize_witness :
  resize_callbacks [backend; backend]
    (state_after (initialize zero_framebuffer_backend true) popup_scene)
  = Some (map (λ _, false) [backend; backend],
          state_after (initialize zero_framebuffer_backend true) popup_scene).
Proof.
  apply (initialize_zero_framebuffer_blocks_resize zero_framebuffer_backend
           [backend; backend] true popup_scene Returned).
  - reflexivity.
  - vm_compute. reflexivity.
Defined.

(** X16.  After a start-up that found a window and a framebuffer other
    than (0, 0), a resize callback under the same backend is accepted and
    confirms what start-up stored: the widgets and the cached framebuffer
    size stay as they are, and one resize notification with the window
    size is sent.  The pixel ratio set at start-up is 1, so the window
    size is stored undivided both times. *)
Theorem initialize_then_resize env ok st o st1 :
  ngGetFramebufferSize env ≠ (0, 0) →
  ngGetWindowSize env ≠ (0, 0) →
  initialize env ok st = Some (o, st1) →
  ∃ st2,
    resizeCallbackEvent env st1 = Some (false, st2)
    ∧ heap st2 = heap st1
    ∧ mFBSize st2 = mFBSize st1
    ∧ events st2 = events st1 ++ [EvResize (ngGetWindowSize env)].
Proof.
  intros Hfb Hws (scr & Hscr & Hthis & Hheap & Hfb1 & Hratio & _)%initialize_inv.
  unfold resizeCallbackEvent.
  unfold mbind at 1, M_bind at 1, get_state at 1. cbv zeta.
  rewrite Hratio, Hfb1.
  assert ((if win32_or_linux env then vquot (ngGetWindowSize env) 1
           else ngGetWindowSize env) = ngGetWindowSize env) as ->.
  { destruct (win32_or_linux env); [|done]. destruct (ngGetWindowSize env) as [a b].
    unfold vquot. cbn [fst snd]. by rewrite !Z.quot_1_r. }
  rewrite (bool_decide_eq_false_2 _ Hfb), (bool_decide_eq_false_2 _ Hws). cbn [orb].
  unfold resizeEvent. unfold_M. screen_simpl.
  rewrite Hthis, Hheap, lookup_insert_eq.
  eexists. split; [reflexivity|]. screen_simpl.
  split; [|done]. rewrite Hheap. by rewrite insert_insert_eq.
Qed.

Lemma initialize_then_resize_witness :
  ∃ st2,
    resizeCallbackEvent backend (state_after (initialize backend true) popup_scene)
    = Some (false, st2)
    ∧ heap st2 = heap (state_after (initialize backend true) popup_scene)
    ∧ mFBSize st2 = mFBSize (state_after (initialize backend true) popup_scene)
    ∧ events st2
      = events (state_after (initialize backend true) popup_scene)
        ++ [EvResize (ngGetWindowSize backend)].
Proof.
  apply (initialize_then_resize backend true popup_scene Returned).
  - discriminate.
  - discriminate.
  - vm_compute. reflexivity.
Defined.

Local Close Scope Z_scope.

Local Open Scope Z_scope.

Lemma quot_2_centred d : Z.abs (d - 2 * (d ÷ 2)) ≤ 1.
Proof.
  pose proof (Z.quot_rem' d 2) as Hd.
  pose proof (Z.rem_bound_abs d 2 ltac:(lia)) as Hr. lia.
Qed.

Lemma centred_vquot outer inner : centred outer inner (vquot (vsub outer inner) 2).
Proof.
  destruct outer as [a b], inner as [c d]. unfold centred, vquot, vsub. cbn [fst snd].
  split; apply quot_2_centred.
Qed.

(** X17.  Whenever [centerWindow] returns, the window lies centred in
    the Screen: on each axis the margins on its two sides differ by at
    most one pixel.  This holds whatever the preferred size and the
    layout pass do when the window had no size yet. *)
Theorem centerWindow_centred preferredSize performLayout window st st' :
  centerWindow preferredSize performLayout window st = Some (tt, st') →
  ∃ scr wd,
    heap st' !! this st' = Some scr
    ∧ heap st' !! window = Some wd
    ∧ centred (mSize scr) (mSize wd) (position wd).
Proof.
  unfold centerWindow. intros (wd0 & s0 & _ & H)%bind_inv.
  apply bind_inv in H as ([] & s1 & _ & H).
  apply bind_inv in H as (s & s2 & Hg & H). injection Hg as <- <-.
  apply bind_inv in H as (scr & s2 & Hd & H).
  unfold deref in Hd. destruct (heap s1 !! this s1) as [rec|] eqn:Hscr; [|done].
  injection Hd as <- <-.
  apply bind_inv in H as (wd & s2 & Hd & H).
  unfold deref in Hd. destruct (heap s1 !! window) as [rec'|] eqn:Hw; [|done].
  injection Hd as <- <-.
  unfold store, modify in H. injection H as <-. screen_simpl.
  destruct (decide (window = this s1)) as [->|Hne].
  - rewrite lookup_insert_eq. rewrite Hscr in Hw. injection Hw as <-.
    eexists _, _. split; [reflexivity|]. split; [reflexivity|]. apply centred_vquot.
  - rewrite lookup_insert_ne by done. rewrite lookup_insert_eq, Hscr.
    eexists _, _. split; [reflexivity|]. split; [reflexivity|]. apply centred_vquot.
Qed.

Lemma centerWindow_centred_witness :
  ∃ scr wd,
    heap (state_after (centerWindow (λ _ _, (50, 50)) (λ _, mret tt) 1%nat)
                      two_windows_scene)
      !! this (state_after (centerWindow (λ _ _, (50, 50)) (λ _, mret tt) 1%nat)
                           two_windows_scene) = Some scr
    ∧ heap (state_after (centerWindow (λ _ _, (50, 50)) (λ _, mret tt) 1%nat)
                        two_windows_scene) !! 1%nat = Some wd
    ∧ centred (mSize scr) (mSize wd) (position wd).
Proof.
  apply (centerWindow_centred (λ _ _, (50, 50)) (λ _, mret tt) 1%nat two_windows_scene).
  vm_compute. reflexivity.
Defined.

(** X18.  For a window that has a size, [centerWindow] returns having
    changed nothing but the position of the window, which becomes half
    the difference of the two sizes, rounded towards zero; neither the
    preferred size is asked for nor the layout pass run. *)
Theorem centerWindow_sized preferredSize performLayout window st wd scr :
  heap st !! window = Some wd →
  heap st !! this st = Some scr →
  mSize wd ≠ (0, 0) →
  centerWindow preferredSize performLayout window st
  = Some (tt, set_heap (<[window := set_position
                                      (vquot (vsub (mSize scr) (mSize wd)) 2) wd]>
                          (heap st)) st).
Proof.
  intros Hw Hscr Hsz. unfold centerWindow.
  unfold mbind at 1, M_bind at 1, deref at 1. rewrite Hw.
  rewrite (bool_decide_eq_false_2 _ Hsz).
  unfold_M. by rewrite Hscr, Hw.
Qed.

Lemma centerWindow_sized_witness :
  centerWindow (λ _ _, (50, 50)) (λ _, fault) 1%nat two_windows_scene
  = Some (tt, set_heap (<[1%nat := set_position
                                     (vquot (vsub (800, 600) (201, 150)) 2)
                                     (node (Some 0%nat) [] (100, 100) (201, 150)
                                           (IsWindow false) ignores)]>
                          (heap two_windows_scene)) two_windows_scene).
Proof.
  apply (centerWindow_sized (λ _ _, (50, 50)) (λ _, fault) 1%nat two_windows_scene
           (node (Some 0%nat) [] (100, 100) (201, 150) (IsWindow false) ignores)
           (node None [1; 2]%nat (0, 0) (800, 600) PlainWidget ignores)).
  - reflexivity.
  - reflexivity.
  - discriminate.
Defined.

Local Close Scope Z_scope.

(** ** Disposal *)

Lemma removeChild_effect fuel w s s' :
  removeChild fuel w s = Some (tt, s') →
  ∃ scr h',
    heap s !! this s = Some scr
    ∧ destroy fuel w (<[this s := set_children (filter (λ c, c ≠ w) (mChildren scr)) scr]>
                        (heap s)) = Some h'
    ∧ s' = set_heap h' s.
Proof.
  unfold removeChild. intros (s0 & s1 & Hg & H)%bind_inv. injection Hg as <- <-.
  apply bind_inv in H as (scr & s1 & Hd & H).
  unfold deref in Hd. destruct (heap s !! this s) as [rec|] eqn:Hscr; [|done].
  injection Hd as <- <-.
  apply bind_inv in H as ([] & s2 & Hs & H). injection Hs as <-.
  unfold delete_widget in H. screen_simpl.
  destruct (destroy fuel w _) as [h'|] eqn:Hdestroy; [|done].
  injection H as <-. exists rec, h'. split; [done|]. split; [done|]. by screen_eq.
Qed.

(** All that [disposeWindow] changes: the focus path and the drag widget
    as its two tests say, and the heap, where records leave and the
    Screen loses a child. *)
Lemma disposeWindow_effect fuel window st st' :
  disposeWindow fuel window st = Some (tt, st') →
  ∃ h',
    st' = set_heap h'
            (set_mDragWidget (if bool_decide (mDragWidget st = Some window) then None
                              else mDragWidget st)
               (set_mFocusPath (if bool_decide (window ∈ mFocusPath st) then []
                                else mFocusPath st) st))
    ∧ ∀ x wd', h' !! x = Some wd' →
        ∃ wd, heap st !! x = Some wd ∧ wd' = set_children (mChildren wd') wd.
Proof.
  unfold disposeWindow. intros (s & s0 & Hg & H)%bind_inv. injection Hg as <- <-.
  apply bind_inv in H as ([] & s1 & H1 & H).
  apply bind_inv in H as ([] & s2 & H2 & H).
  apply removeChild_effect in H as (scr & h' & Hscr & Hdestroy & ->).
  assert (s1 = set_mFocusPath (if bool_decide (window ∈ mFocusPath st) then []
                               else mFocusPath st) st) as ->.
  { destruct (bool_decide (window ∈ mFocusPath st)); injection H1 as <-; [done|].
    by screen_eq. }
  assert (s2 = set_mDragWidget (if bool_decide (mDragWidget st = Some window) then None
                                else mDragWidget st)
                 (set_mFocusPath (if bool_decide (window ∈ mFocusPath st) then []
                                  else mFocusPath st) st)) as ->.
  { destruct (bool_decide (mDragWidget st = Some window)); injection H2 as <-; [done|].
    by screen_eq. }
  exists h'. split; [done|].
  intros x wd' Hx. screen_simpl.
  apply (destroy_lookup _ _ _ _ _ _ Hdestroy) in Hx.
  destruct (decide (x = this st)) as [->|Hne].
  - rewrite lookup_insert_eq in Hx. injection Hx as <-. exists scr.
    split; [done|]. by destruct scr.
  - rewrite lookup_insert_ne in Hx by done. exists wd'. split; [done|]. by destruct wd'.
Qed.

(** X19.  After [disposeWindow] has returned, the window is no child of
    the Screen, is not on the focus path and is not the drag widget. *)
Theorem disposeWindow_unlinks_window fuel window st st' :
  disposeWindow fuel window st = Some (tt, st') →
  (∀ scr, heap st' !! this st' = Some scr → window ∉ mChildren scr)
  ∧ (window ∉ mFocusPath st')
  ∧ mDragWidget st' ≠ Some window.
Proof. apply disposeWindow_forgets_window. Qed.

Lemma disposeWindow_unlinks_window_witness :
  (∀ scr, heap (state_after (disposeWindow 5 1) keyboard_scene)
            !! this (state_after (disposeWindow 5 1) keyboard_scene) = Some scr →
          1 ∉ mChildren scr)
  ∧ (1 ∉ mFocusPath (state_after (disposeWindow 5 1) keyboard_scene))
  ∧ mDragWidget (state_after (disposeWindow 5 1) keyboard_scene) ≠ Some 1.
Proof.
  apply (disposeWindow_unlinks_window 5 1 keyboard_scene).
  vm_compute. reflexivity.
Defined.

(** X20.  When the focus path is the ancestor chain of a widget, the
    focus path that [disposeWindow] leaves holds no widget of the
    disposed window's subtree. *)
Theorem disposeWindow_focus_path_outside_subtree fuel window st st' widget :
  ancestor_chain (heap st) widget (mFocusPath st) →
  disposeWindow fuel window st = Some (tt, st') →
  ∀ x, in_subtree (heap st) window x → x ∉ mFocusPath st'.
Proof. apply disposeWindow_cleans_focus_path. Qed.

Lemma disposeWindow_focus_path_outside_subtree_witness :
  2 ∉ mFocusPath (state_after (disposeWindow 5 1) keyboard_scene).
Proof.
  assert (ancestor_chain (heap keyboard_scene) (Some 2) [2; 1; 0]) as Hchain.
  { eapply chain_step; [vm_compute; reflexivity|]. cbn.
    eapply chain_step; [vm_compute; reflexivity|]. cbn.
    eapply chain_step; [vm_compute; reflexivity|]. cbn. constructor. }
  apply (disposeWindow_focus_path_outside_subtree 5 1 keyboard_scene
           (state_after (disposeWindow 5 1) keyboard_scene) (Some 2)).
  - exact Hchain.
  - vm_compute. reflexivity.
  - exists [2; 1; 0]. split; [exact Hchain|]. right. left.
Defined.

(** X21.  [disposeWindow] sends no notification and changes no focus
    flag: the log is as before, and every widget that is left reports
    itself focused or not as it did, also when the focus path was
    cleared.  The drag stays active or idle as it was, also when the drag
    widget was cleared. *)
Theorem disposeWindow_silent fuel window st st' :
  disposeWindow fuel window st = Some (tt, st') →
  events st' = events st
  ∧ mDragActive st' = mDragActive st
  ∧ mFocusPath st' = (if bool_decide (window ∈ mFocusPath st) then [] else mFocusPath st)
  ∧ ∀ x wd', heap st' !! x = Some wd' →
      ∃ wd, heap st !! x = Some wd ∧ focused wd' = focused wd.
Proof.
  intros (h' & -> & Hkept)%disposeWindow_effect. screen_simpl.
  split; [done|]. split; [done|]. split; [done|].
  intros x wd' Hx. destruct (Hkept x wd' Hx) as (wd & Hwd & ->). by exists wd.
Qed.

Lemma disposeWindow_silent_witness :
  events (state_after (disposeWindow 5 1) keyboard_scene) = events keyboard_scene
  ∧ mDragActive (state_after (disposeWindow 5 1) keyboard_scene)
    = mDragActive keyboard_scene
  ∧ mFocusPath (state_after (disposeWindow 5 1) keyboard_scene)
    = (if bool_decide (1 ∈ mFocusPath keyboard_scene) then []
       else mFocusPath keyboard_scene)
  ∧ ∀ x wd', heap (state_after (disposeWindow 5 1) keyboard_scene) !! x = Some wd' →
      ∃ wd, heap keyboard_scene !! x = Some wd ∧ focused wd' = focused wd.
Proof.
  apply (disposeWindow_silent 5 1 keyboard_scene).
  vm_compute. reflexivity.
Defined.

(** X22.  When the window that is disposed of is the captured widget of
    an active drag, the drag is left active with no drag widget, and
    every motion callback after that dereferences the null drag widget,
    whatever the position and the recursion bound. *)
Theorem disposeWindow_captured_then_motion fuel window st st' env fuel' x y :
  mDragActive st = true →
  mDragWidget st = Some window →
  disposeWindow fuel window st = Some (tt, st') →
  mDragActive st' = true ∧ mDragWidget st' = None
  ∧ cursorPosCallbackEvent env fuel' x y st' = None.
Proof.
  intros Hactive Hdw (h' & -> & _)%disposeWindow_effect.
  rewrite (bool_decide_eq_true_2 _ Hdw).
  split; [done|]. split; [done|].
  unfold cursorPosCallbackEvent.
  unfold mbind at 1, M_bind at 1, get_state at 1. cbv zeta.
  unfold mbind at 1, M_bind at 1, modify at 1.
  screen_simpl. rewrite Hactive. cbn [negb].
  unfold mbind at 1, M_bind at 1.
  unfold mbind at 1, M_bind at 1. done.
Qed.

Lemma disposeWindow_captured_then_motion_witness :
  mDragActive (state_after (disposeWindow 5 1) (drag_scene (115, 115)%Z 1)) = true
  ∧ mDragWidget (state_after (disposeWindow 5 1) (drag_scene (115, 115)%Z 1)) = None
  ∧ cursorPosCallbackEvent backend 7 300 300
      (state_after (disposeWindow 5 1) (drag_scene (115, 115)%Z 1)) = None.
Proof.
  apply (disposeWindow_captured_then_motion 5 1 (drag_scene (115, 115)%Z 1)).
  - reflexivity.
  - reflexivity.
  - vm_compute. reflexivity.
Defined.

(** X23.  After the disposal of a window that was on the focus path, a
    key or character callback stores the time, reaches no widget and
    answers false. *)
Theorem disposeWindow_then_key fuel window st st' env key scancode action mods codepoint :
  window ∈ mFocusPath st →
  disposeWindow fuel window st = Some (tt, st') →
  keyCallbackEvent env key scancode action mods st'
  = Some (false, set_mLastInteraction (ngGetTime env) st')
  ∧ charCallbackEvent env codepoint st'
    = Some (false, set_mLastInteraction (ngGetTime env) st').
Proof.
  intros Hin (h' & -> & _)%disposeWindow_effect.
  rewrite (bool_decide_eq_true_2 _ Hin).
  unfold keyCallbackEvent, charCallbackEvent, keyboardEvent, keyboardCharacterEvent.
  unfold mbind, M_bind, modify, get_state. screen_simpl. done.
Qed.

Lemma disposeWindow_then_key_witness :
  keyCallbackEvent backend 65 0 NG_PRESS 0 (state_after (disposeWindow 5 1) keyboard_scene)
  = Some (false, set_mLastInteraction (ngGetTime backend)
                   (state_after (disposeWindow 5 1) keyboard_scene))
  ∧ charCallbackEvent backend 97 (state_after (disposeWindow 5 1) keyboard_scene)
    = Some (false, set_mLastInteraction (ngGetTime backend)
                     (state_after (disposeWindow 5 1) keyboard_scene)).
Proof.
  apply (disposeWindow_then_key 5 1 keyboard_scene).
  - right. left.
  - vm_compute. reflexivity.
Defined.
